(** * Chromecast control channel: framing, keepalive, message builder

    A shallow embedding of
    [modules/stream_out/chromecast/chromecast_communication.cpp]
    (class [ChromecastCommunication]) together with the properties of
    its wire framing, its keepalive bookkeeping, its request counters
    and its connection set-up.

    Conventions.
    - [unsigned] and [uint32_t] values are [Z] in [0, 2^32) and every
      operation of the source on them is followed by [u32].
    - [int] values are [Z]; the conversion of a [ssize_t] to [int] is
      written [to_int].  The retry budget is only ever compared with
      zero and decremented; its signed overflow is undefined in C and
      is not modelled.
    - Bytes are [Byte.byte]; the caller's packet buffer is a
      [list byte].
    - The transport ([tls_Recv], [tls_Send], [vlc_poll_i11e], the
      socket and TLS constructors) lives outside this translation
      unit; it is modelled as a script of events supplied by the
      environment.
    - An [assert] that fails ends the call.  Whether
      [new(std::nothrow)] yields a buffer is decided by the
      environment, like the answers of the transport. *)

From Stdlib Require Import ZArith List Bool Lia String Ascii.
From Stdlib Require Import Strings.Byte.
From Stdlib Require Import SpecFloat DecimalString.
Import ListNotations.

Local Open Scope list_scope.
Local Open Scope Z_scope.

(** ** Machine integers *)

Definition u32 (z : Z) : Z := z mod 2 ^ 32.

Definition to_int (z : Z) : Z := (z + 2 ^ 31) mod 2 ^ 32 - 2 ^ 31.

(** ** Bytes and the big-endian length prefix *)

Definition byte_of_Z (z : Z) : byte :=
  match Byte.of_N (Z.to_N (z mod 256)) with
  | Some b => b
  | None => x00
  end.

Definition Z_of_byte (b : byte) : Z := Z.of_N (Byte.to_N b).

(** Modelled from the spec: [SetDWBE] (vlc_common.h, outside this
    translation unit) stores a 32-bit value as a 4-byte big-endian
    prefix. *)
Definition SetDWBE (v : Z) : list byte :=
  let w := u32 v in
  [ byte_of_Z (Z.shiftr w 24); byte_of_Z (Z.shiftr w 16);
    byte_of_Z (Z.shiftr w 8); byte_of_Z w ].

(** Modelled from the spec: [U32_AT] (vlc_common.h, outside this
    translation unit) reads the first four bytes of a buffer as a
    big-endian 32-bit value; bytes missing from a short buffer read as
    zero. *)
Definition U32_AT (p : list byte) : Z :=
  let b i := Z_of_byte (nth i p x00) in
  Z.lor (Z.lor (Z.lor (Z.shiftl (b 0%nat) 24) (Z.shiftl (b 1%nat) 16))
               (Z.shiftl (b 2%nat) 8))
        (b 3%nat).

(** ** The receiving side of the transport

    [tls_Recv] and [vlc_poll_i11e] belong to the VLC core.  What one
    call of each yields is decided by the environment: the peer sends
    data in chunks, closes the stream, or the read fails. *)

Inductive event : Type :=
| Data (bs : list byte)   (* bytes that have arrived together *)
| Eof                     (* orderly shutdown: the read yields 0 *)
| Err.                    (* failed read: the read yields -1 *)

Definition blen (l : list byte) : Z := Z.of_nat (List.length l).

(** Modelled from the spec: [receive(buffer, max_len) -> bytes_read |
    0 (closed) | negative (error)].  One call consumes at most [len]
    bytes of the chunk at the head of the script and never waits for
    a second chunk; a script that has run dry reads as a closed
    stream.  The result is the [ssize_t] value, the bytes stored and
    the script that remains. *)
Definition tls_Recv (w : list event) (len : Z) : Z * list byte * list event :=
  match w with
  | [] => (0, [], [])
  | Eof :: w' => (0, [], w')
  | Err :: w' => (-1, [], w')
  | Data bs :: w' =>
      let n := Z.to_nat (Z.min len (blen bs)) in
      (Z.of_nat n, firstn n bs,
       if Z.of_nat n <? blen bs then Data (skipn n bs) :: w' else w')
  end.

(** [store buf off bs]: the effect on the caller's buffer of a read
    that deposits [bs] at [buf + off].  Only writes inside the buffer
    have a defined meaning in C; the requests of every read are
    recorded so that this can be stated. *)
Definition store (buf : list byte) (off : Z) (bs : list byte) : list byte :=
  firstn (Z.to_nat off) buf ++ bs
  ++ skipn (Z.to_nat off + List.length bs) buf.

(** What [vlc_poll_i11e] reports: its return value, whether [errno]
    is [EINTR], and whether [POLLIN] is set in [revents]. *)
Record poll_result : Type := mkPoll {
  val : Z;
  errno_EINTR : bool;
  revents_POLLIN : bool
}.

Inductive log_entry : Type :=
| msg_Err (text : string)
| msg_Warn (text : string)
| msg_Dbg (text : string).

(** The three places where [recvPacket] calls [tls_Recv]. *)
Inductive read_site : Type := HeaderRead | DrainRead | PayloadRead.

(** A read request: the offset into [p_data] handed to [tls_Recv] and
    the number of bytes it is allowed to store there. *)
Record request : Type := mkReq {
  r_site : read_site;
  r_off : Z;
  r_len : Z
}.

(** The caller-owned variables that [recvPacket] reads and updates
    through its pointer and reference parameters. *)
Record rx_state : Type := mkRx {
  b_msgReceived : bool;
  i_payloadSize : Z;
  pi_received : Z;
  p_data : list byte;
  pb_pingTimeout : bool;
  pi_wait_delay : Z;
  pi_wait_retries : Z
}.

Definition set_keepalive (s : rx_state) (t : bool) (d r : Z) : rx_state :=
  mkRx (b_msgReceived s) (i_payloadSize s) (pi_received s) (p_data s) t d r.

Definition set_frame (s : rx_state) (done : bool) (size rcv : Z)
    (buf : list byte) : rx_state :=
  mkRx done size rcv buf (pb_pingTimeout s) (pi_wait_delay s)
       (pi_wait_retries s).

Inductive outcome : Type :=
| Returned (i_ret : Z)
| AssertFailed
| OutOfFuel.

Record recv_result : Type := mkRes {
  res : outcome;
  st : rx_state;
  script : list event;
  reads : list request;
  logs : list log_entry
}.

(** Modelled from the spec: the header length, 4 bytes; the macro is
    defined in [chromecast.h]. *)
Definition PACKET_HEADER_LEN : Z := 4.

(** Lines 36-37. *)
Definition PONG_WAIT_TIME : Z := 500.
Definition PONG_WAIT_RETRIES : Z := 2.

Inductive keepalive_result : Type :=
| KaReturn (i_ret : Z) (l : list log_entry)
| KaContinue (s : rx_state) (l : list log_entry).

Inductive header_result : Type :=
| HdrDone (rcv : Z) (buf : list byte) (w : list event) (tr : list request)
| HdrReturn (i_ret rcv : Z) (buf : list byte) (w : list event)
            (tr : list request)
| HdrFuel.

(** The loop over [pi_received < PACKET_HEADER_LEN].  Every turn
    either returns or adds at least one byte, so [PACKET_HEADER_LEN]
    turns suffice; [HdrFuel] marks a loop that would need more. *)
Fixpoint recv_header (fuel : nat) (rcv : Z) (buf : list byte)
    (w : list event) (tr : list request) : header_result :=
  if rcv <? PACKET_HEADER_LEN then
    match fuel with
    | O => HdrFuel
    | S fuel' =>
        let len := u32 (PACKET_HEADER_LEN - rcv) in
        let '(r, bs, w') := tls_Recv w len in
        let i_ret := to_int r in
        let tr' := tr ++ [mkReq HeaderRead rcv len] in
        if i_ret <=? 0 then HdrReturn i_ret rcv buf w' tr'
        else recv_header fuel' (u32 (rcv + i_ret)) (store buf rcv bs) w' tr'
    end
  else HdrDone rcv buf w tr.

Section Receiver.

(** Constants of [chromecast.h]. *)
Variable PACKET_MAX_LEN : Z.
Variable PING_WAIT_TIME : Z.
Variable PING_WAIT_RETRIES : Z.

Definition i_maxPayloadSize : Z := u32 (PACKET_MAX_LEN - PACKET_HEADER_LEN).

(** Lines 149-179: the poll and the ping/pong bookkeeping. *)
Definition keepalive (p : poll_result) (s : rx_state) : keepalive_result :=
  if (val p =? -1) && negb (errno_EINTR p) then KaReturn (-1) []
  else if val p =? 0 then
    if pb_pingTimeout s then
      if pi_wait_retries s =? 0 then
        KaReturn 0 [msg_Err "No PONG answer received from the Chromecast"]
      else
        KaContinue (set_keepalive s true (pi_wait_delay s)
                                  (pi_wait_retries s - 1)) []
    else
      KaContinue (set_keepalive s true PONG_WAIT_TIME PONG_WAIT_RETRIES)
        [msg_Warn "No PING received from the Chromecast, sending a PING"]
  else
    KaContinue (set_keepalive s false PING_WAIT_TIME PING_WAIT_RETRIES) [].

(** Lines 205-224: the packet announced by the header is too long. *)
Definition recv_drain (s : rx_state) (size rcv : Z) (buf : list byte)
    (w : list event) (tr : list request) (l : list log_entry)
    : recv_result :=
  let l' := l ++ [msg_Err "Packet too long: droping its data"] in
  let i_size0 := u32 (size - u32 (rcv - PACKET_HEADER_LEN)) in
  let i_size := if i_maxPayloadSize <? i_size0 then i_maxPayloadSize
                else i_size0 in
  let '(r, bs, w') := tls_Recv w i_size in
  let i_ret := to_int r in
  let tr' := tr ++ [mkReq DrainRead PACKET_HEADER_LEN i_size] in
  let buf' := store buf PACKET_HEADER_LEN bs in
  if i_ret <=? 0 then
    mkRes (Returned i_ret) (set_frame s (b_msgReceived s) size rcv buf')
          w' tr' l'
  else
    let rcv' := u32 (rcv + i_ret) in
    if rcv' <? u32 (size + PACKET_HEADER_LEN) then
      mkRes (Returned i_ret) (set_frame s (b_msgReceived s) size rcv' buf')
            w' tr' l'
    else
      mkRes (Returned (-1)) (set_frame s (b_msgReceived s) size 0 buf')
            w' tr' l'.

(** Lines 226-238 and 241-245: the payload read, the completion of a
    message and the common exit. *)
Definition recv_payload (p : poll_result) (s : rx_state) (size rcv : Z)
    (buf : list byte) (w : list event) (tr : list request)
    (l : list log_entry) : recv_result :=
  let len := u32 (size - u32 (rcv - PACKET_HEADER_LEN)) in
  let '(r, bs, w') := tls_Recv w len in
  let i_ret := to_int r in
  let tr' := tr ++ [mkReq PayloadRead rcv len] in
  let buf' := store buf rcv bs in
  if i_ret <=? 0 then
    mkRes (Returned i_ret) (set_frame s (b_msgReceived s) size rcv buf')
          w' tr' l
  else
    let rcv' := u32 (rcv + i_ret) in
    if rcv' <? u32 (size + PACKET_HEADER_LEN) then
      mkRes (Returned i_ret) (set_frame s (b_msgReceived s) size rcv' buf')
            w' tr' l
    else if rcv' =? u32 (size + PACKET_HEADER_LEN) then
      mkRes (Returned (if (val p =? -1) && errno_EINTR p then 1 else i_ret))
            (set_frame s true size 0 buf') w' tr' l
    else
      mkRes AssertFailed (set_frame s (b_msgReceived s) size rcv' buf')
            w' tr' l.

(** [recvPacket]: one invocation, from the poll to the return. *)
Definition recvPacket (p : poll_result) (s : rx_state) (w : list event)
    : recv_result :=
  match keepalive p s with
  | KaReturn i_ret l => mkRes (Returned i_ret) s w [] l
  | KaContinue s1 l =>
      if revents_POLLIN p then
        match recv_header (Z.to_nat PACKET_HEADER_LEN) (pi_received s1)
                          (p_data s1) w [] with
        | HdrFuel => mkRes OutOfFuel s1 w [] l
        | HdrReturn i_ret rcv buf w' tr =>
            mkRes (Returned i_ret)
                  (set_frame s1 (b_msgReceived s1) (i_payloadSize s1) rcv buf)
                  w' tr l
        | HdrDone rcv buf w' tr =>
            let size := U32_AT buf in
            if i_maxPayloadSize <? size
            then recv_drain s1 size rcv buf w' tr l
            else recv_payload p s1 size rcv buf w' tr l
        end
      else
        mkRes (Returned (if (val p =? -1) && errno_EINTR p then 1 else 0))
              s1 w [] l
  end.

End Receiver.

(** ** The envelope and the sending side *)

Inductive CastMessage_ProtocolVersion : Type :=
| CastMessage_ProtocolVersion_CASTV2_1_0.

Inductive CastMessage_PayloadType : Type :=
| CastMessage_PayloadType_STRING
| CastMessage_PayloadType_BINARY.

(** [castchannel::CastMessage].  A field of a protocol-buffer object
    is either absent or set; a freshly constructed message has none. *)
Record CastMessage : Type := mkMsg {
  protocol_version : option CastMessage_ProtocolVersion;
  source_id : option string;
  destination_id : option string;
  namespace_ : option string;
  payload_type : option CastMessage_PayloadType;
  payload_utf8 : option string;
  payload_binary : option string
}.

Definition CastMessage_new : CastMessage :=
  mkMsg None None None None None None None.

Fixpoint varint (fuel : nat) (n : Z) : list byte :=
  match fuel with
  | O => []
  | S fuel' =>
      if n <? 128 then [byte_of_Z n]
      else byte_of_Z (Z.lor (Z.land n 127) 128) :: varint fuel' (Z.shiftr n 7)
  end.

Definition field_varint (num v : Z) : list byte :=
  varint 10 (Z.shiftl num 3) ++ varint 10 v.

Definition field_bytes (num : Z) (s : string) : list byte :=
  varint 10 (Z.lor (Z.shiftl num 3) 2)
  ++ varint 10 (Z.of_nat (String.length s)) ++ list_byte_of_string s.

Definition opt_field {A : Type} (enc : A -> list byte) (o : option A)
    : list byte :=
  match o with
  | Some a => enc a
  | None => []
  end.

(** Modelled from the spec: the envelope's serialization, "a fixed,
    versioned binary encoding (protocol-buffer-style)" that preserves
    field presence and absence.  This is
    [SerializeWithCachedSizesToArray] of the class generated from
    [cast_channel.proto]: every field that is set contributes its key
    and its value, a field that is absent contributes nothing. *)
Definition SerializeWithCachedSizesToArray (msg : CastMessage) : list byte :=
  opt_field (fun _ => field_varint 1 0) (protocol_version msg)
  ++ opt_field (field_bytes 2) (source_id msg)
  ++ opt_field (field_bytes 3) (destination_id msg)
  ++ opt_field (field_bytes 4) (namespace_ msg)
  ++ opt_field (fun t => field_varint 5
                  match t with
                  | CastMessage_PayloadType_STRING => 0
                  | CastMessage_PayloadType_BINARY => 1
                  end) (payload_type msg)
  ++ opt_field (field_bytes 6) (payload_utf8 msg)
  ++ opt_field (field_bytes 7) (payload_binary msg).

Definition ByteSize (msg : CastMessage) : Z :=
  blen (SerializeWithCachedSizesToArray msg).

(** Modelled from the spec: [send(bytes) -> bytes_written | error].
    The sending side of the TLS session is the list of buffers handed
    to [tls_Send] so far, and what the coming calls will return (chosen
    by the environment; once the list is used up a call writes the
    whole buffer).  With it goes what the coming calls of
    [new(std::nothrow)] in [sendMessage] yield: [true] for a buffer,
    [false] for [NULL]; once the list is used up an allocation
    succeeds. *)
Record link : Type := mkLink {
  sent : list (list byte);
  send_results : list Z;
  new_results : list bool
}.

Definition tls_Send (l : link) (buf : list byte) (len : Z) : Z * link :=
  match send_results l with
  | [] => (len, mkLink (sent l ++ [buf]) [] (new_results l))
  | r :: rs => (r, mkLink (sent l ++ [buf]) rs (new_results l))
  end.

(** [new(std::nothrow) uint8_t[...]]: whether a buffer was obtained. *)
Definition new_nothrow (l : link) : bool * link :=
  match new_results l with
  | [] => (true, l)
  | b :: rest => (b, mkLink (sent l) (send_results l) rest)
  end.

Inductive vlc_error : Type := VLC_SUCCESS | VLC_EGENERIC | VLC_ENOMEM.

(** [sendMessage], lines 435-457. *)
Definition sendMessage (l : link) (msg : CastMessage) : vlc_error * link :=
  let i_size := ByteSize msg in
  let '(allocated, l0) := new_nothrow l in
  if negb allocated then (VLC_ENOMEM, l0)
  else
    let p_data := SetDWBE i_size ++ SerializeWithCachedSizesToArray msg in
    let '(i_ret, l') := tls_Send l0 p_data (PACKET_HEADER_LEN + i_size) in
    if i_ret =? PACKET_HEADER_LEN + i_size then (VLC_SUCCESS, l')
    else (VLC_EGENERIC, l').

Definition set_payload (msg : CastMessage)
    (payloadType : CastMessage_PayloadType) (payload : string) : CastMessage :=
  match payloadType with
  | CastMessage_PayloadType_STRING =>
      mkMsg (protocol_version msg) (source_id msg) (destination_id msg)
            (namespace_ msg) (payload_type msg) (Some payload)
            (payload_binary msg)
  | CastMessage_PayloadType_BINARY =>
      mkMsg (protocol_version msg) (source_id msg) (destination_id msg)
            (namespace_ msg) (payload_type msg) (payload_utf8 msg)
            (Some payload)
  end.

(** The message that [buildMessage] assembles (lines 114-124). *)
Definition envelope (namespace_ payload destinationId : string)
    (payloadType : CastMessage_PayloadType) : CastMessage :=
  set_payload
    (mkMsg (Some CastMessage_ProtocolVersion_CASTV2_1_0) (Some "sender-vlc"%string)
           (Some destinationId) (Some namespace_) (Some payloadType) None None)
    payloadType payload.

(** [buildMessage], lines 109-127; the result of [sendMessage] is
    dropped, as in the source. *)
Definition buildMessage (l : link) (namespace_ payload destinationId : string)
    (payloadType : CastMessage_PayloadType) : link :=
  snd (sendMessage l (envelope namespace_ payload destinationId payloadType)).

(** ** The connection object and the message builder *)

(** The data members of [ChromecastCommunication].  The two request
    counters are declared in [chromecast.h].  Modelled from the spec:
    "two independent monotonically increasing integers". *)
Record ChromecastCommunication : Type := mkComm {
  i_sock_fd : Z;
  p_creds : option Z;
  p_tls : option Z;
  serverIp : string;
  i_receiver_requestId : Z;
  i_requestId : Z
}.

(** The constructor, lines 39-47. *)
Definition ChromecastCommunication_new : ChromecastCommunication :=
  mkComm (-1) None None ""%string 0 0.

Definition bump_receiver (c : ChromecastCommunication)
    : ChromecastCommunication :=
  mkComm (i_sock_fd c) (p_creds c) (p_tls c) (serverIp c)
         (i_receiver_requestId c + 1) (i_requestId c).

Definition bump_player (c : ChromecastCommunication)
    : ChromecastCommunication :=
  mkComm (i_sock_fd c) (p_creds c) (p_tls c) (serverIp c)
         (i_receiver_requestId c) (i_requestId c + 1).

(** How a call of a builder method ends: it returns, or one of its
    [assert]s fails and the process aborts.  Either way the value is
    the state reached at that point. *)
Inductive call (A : Type) : Type :=
| Finished (a : A)
| Aborted (a : A).
Arguments Finished {A} a.
Arguments Aborted {A} a.

Definition state_of {A : Type} (r : call A) : A :=
  match r with
  | Finished a => a
  | Aborted a => a
  end.

Definition dq : string := String "034"%char EmptyString.

(** Decimal output of an integer by [operator<<]. *)
Definition dec (z : Z) : string := NilZero.string_of_int (Z.to_int z).

Definition empty (s : string) : bool :=
  match s with
  | EmptyString => true
  | String _ _ => false
  end.

(** [strncmp] of the C library on NUL-terminated strings. *)
Fixpoint strncmp (a b : string) (n : nat) : Z :=
  match n with
  | O => 0
  | S n' =>
      match a, b with
      | EmptyString, EmptyString => 0
      | EmptyString, String c _ => - Z.of_nat (nat_of_ascii c)
      | String c _, EmptyString => Z.of_nat (nat_of_ascii c)
      | String c1 a', String c2 b' =>
          if Ascii.eqb c1 c2 then
            if Ascii.eqb c1 zero then 0 else strncmp a' b' n'
          else Z.of_nat (nat_of_ascii c1) - Z.of_nat (nat_of_ascii c2)
      end
  end.

(** [float] values are IEEE-754 binary32 numbers in canonical form.
    The comparisons of the source promote to [double], which is exact
    and keeps the order, so they are the comparisons of the values. *)
Definition f32_zero : spec_float := S754_zero false.
Definition f32_one : spec_float := S754_finite false 8388608 (-23).

Declare Scope stream_scope.
Delimit Scope stream_scope with stream.
Notation "ss << x" := (String.append ss x)
  (at level 49, left associativity) : stream_scope.

Section Builder.

(** Constants of [chromecast.h], and the text that [operator<<]
    produces for a [float]. *)
Variable NAMESPACE_RECEIVER : string.
Variable NAMESPACE_MEDIA : string.
Variable DEFAULT_CHOMECAST_RECEIVER : string.
Variable APP_ID : string.
Variable show_float : spec_float -> string.

Local Open Scope string_scope.
Local Open Scope stream_scope.

Definition conn : Type := (ChromecastCommunication * link)%type.

(** [pushMediaPlayerMessage], lines 459-463. *)
Definition pushMediaPlayerMessage (c : ChromecastCommunication) (l : link)
    (destinationId payload : string) : call conn :=
  if empty destinationId then Aborted (c, l)
  else Finished (c, buildMessage l NAMESPACE_MEDIA payload destinationId
                                 CastMessage_PayloadType_STRING).

(** [msgReceiverGetStatus], lines 287-294. *)
Definition msgReceiverGetStatus (c : ChromecastCommunication) (l : link)
    : call conn :=
  let ss := "" << "{" << dq << "type" << dq << ":" << dq << "GET_STATUS" << dq
               << ","
               << dq << "requestId" << dq << ":"
               << dec (i_receiver_requestId c) << "}" in
  let c := bump_receiver c in
  Finished (c, buildMessage l NAMESPACE_RECEIVER ss DEFAULT_CHOMECAST_RECEIVER
                            CastMessage_PayloadType_STRING).

(** [msgReceiverLaunchApp], lines 296-304. *)
Definition msgReceiverLaunchApp (c : ChromecastCommunication) (l : link)
    : call conn :=
  let ss := "" << "{" << dq << "type" << dq << ":" << dq << "LAUNCH" << dq
               << ","
               << dq << "appId" << dq << ":" << dq << APP_ID << dq << ","
               << dq << "requestId" << dq << ":"
               << dec (i_receiver_requestId c) << "}" in
  let c := bump_receiver c in
  Finished (c, buildMessage l NAMESPACE_RECEIVER ss DEFAULT_CHOMECAST_RECEIVER
                            CastMessage_PayloadType_STRING).

(** [msgPlayerGetStatus], lines 306-314. *)
Definition msgPlayerGetStatus (c : ChromecastCommunication) (l : link)
    (destinationId : string) : call conn :=
  let ss := "" << "{" << dq << "type" << dq << ":" << dq << "GET_STATUS" << dq
               << ","
               << dq << "requestId" << dq << ":" << dec (i_requestId c)
               << "}" in
  let c := bump_player c in
  pushMediaPlayerMessage c l destinationId ss.

(** [GetMedia], lines 316-344. *)
Definition GetMedia (c : ChromecastCommunication) (i_port : Z)
    (title artwork mime : string) : string :=
  let ss := "" in
  let ss :=
    if negb (String.length title =? 0)%nat then
      let ss := ss << dq << "metadata" << dq << ":{"
                   << " " << dq << "metadataType" << dq << ":0"
                   << "," << dq << "title" << dq << ":" << dq << title << dq in
      let ss :=
        if negb (String.length artwork =? 0)%nat
           && (strncmp artwork "http" 4 =? 0)%Z
        then ss << "," << dq << "images" << dq << ":[" << dq << artwork << dq
                << "]"
        else ss in
      ss << "},"
    else ss in
  let chromecast_url :=
    "" << "http://" << serverIp c << ":" << dec i_port << "/stream" in
  ss << dq << "contentId" << dq << ":" << dq << chromecast_url << dq
     << "," << dq << "streamType" << dq << ":" << dq << "LIVE" << dq
     << "," << dq << "contentType" << dq << ":" << dq << mime << dq.

(** [msgPlayerLoad], lines 346-358. *)
Definition msgPlayerLoad (c : ChromecastCommunication) (l : link)
    (destinationId : string) (i_port : Z) (title artwork mime : string)
    : call conn :=
  let ss := "" << "{" << dq << "type" << dq << ":" << dq << "LOAD" << dq << ","
               << dq << "media" << dq << ":{"
               << GetMedia c i_port title artwork mime << "},"
               << dq << "autoplay" << dq << ":" << dq << "false" << dq << ","
               << dq << "requestId" << dq << ":" << dec (i_requestId c)
               << "}" in
  let c := bump_player c in
  pushMediaPlayerMessage c l destinationId ss.

(** The body shared, up to the verb, by [msgPlayerPlay], [msgPlayerStop]
    and [msgPlayerPause] (lines 360-397). *)
Definition player_verb (verb : string) (c : ChromecastCommunication)
    (l : link) (destinationId mediaSessionId : string) : call conn :=
  if empty mediaSessionId then Aborted (c, l)
  else
    let ss := "" << "{" << dq << "type" << dq << ":" << dq << verb << dq << ","
                 << dq << "mediaSessionId" << dq << ":" << mediaSessionId
                 << ","
                 << dq << "requestId" << dq << ":" << dec (i_requestId c)
                 << "}" in
    let c := bump_player c in
    pushMediaPlayerMessage c l destinationId ss.

Definition msgPlayerPlay := player_verb "PLAY".
Definition msgPlayerStop := player_verb "STOP".
Definition msgPlayerPause := player_verb "PAUSE".

(** [msgPlayerSetVolume], lines 399-414. *)
Definition msgPlayerSetVolume (c : ChromecastCommunication) (l : link)
    (destinationId mediaSessionId : string) (f_volume : spec_float)
    (b_mute : bool) : call conn :=
  if empty mediaSessionId then Aborted (c, l)
  else if SFltb f_volume f32_zero || SFltb f32_one f_volume
  then Finished (c, l)
  else
    let ss := "" << "{" << dq << "type" << dq << ":" << dq << "SET_VOLUME" << dq
                 << ","
                 << dq << "volume" << dq << ":{" << dq << "level" << dq << ":"
                 << show_float f_volume << "," << dq << "muted" << dq << ":"
                 << (if b_mute then "true" else "false") << "},"
                 << dq << "mediaSessionId" << dq << ":" << mediaSessionId
                 << ","
                 << dq << "requestId" << dq << ":" << dec (i_requestId c)
                 << "}" in
    let c := bump_player c in
    pushMediaPlayerMessage c l destinationId ss.

(** [msgPlayerSeek], lines 416-428. *)
Definition msgPlayerSeek (c : ChromecastCommunication) (l : link)
    (destinationId mediaSessionId currentTime : string) : call conn :=
  if empty mediaSessionId then Aborted (c, l)
  else
    let ss := "" << "{" << dq << "type" << dq << ":" << dq << "SEEK" << dq << ","
                 << dq << "currentTime" << dq << ":" << currentTime << ","
                 << dq << "mediaSessionId" << dq << ":" << mediaSessionId
                 << ","
                 << dq << "requestId" << dq << ":" << dec (i_requestId c)
                 << "}" in
    let c := bump_player c in
    pushMediaPlayerMessage c l destinationId ss.

End Builder.

(** ** Connection set-up *)

(** Modelled from the spec: the transport collaborator,
    [connect/send/receive/close].  The resources of the process that
    [connect] and [disconnect] acquire and release are the sockets that
    are open and the TLS credentials and TLS sessions that are alive;
    [net_Close], [vlc_tls_Delete] and [vlc_tls_Close] of the VLC core
    take a handle out of them. *)
Record resources : Type := mkRsrc {
  open_sockets : list Z;
  live_creds : list Z;
  live_sessions : list Z
}.

(** What the four calls that [connect] makes into the VLC core yield
    on one attempt: [net_ConnectTCP] (a descriptor, or a negative
    value), [net_GetSockAddress] (zero and the local address, or
    non-zero), [vlc_tls_ClientCreate] and
    [vlc_tls_ClientSessionCreateFD] (an object, or [NULL]). *)
Record connect_env : Type := mkEnv {
  env_ConnectTCP : Z;
  env_GetSockAddress : Z * string;
  env_ClientCreate : option Z;
  env_ClientSessionCreateFD : option Z
}.

Definition remove_handle (h : Z) (l : list Z) : list Z :=
  filter (fun x => negb (x =? h)) l.

Definition net_Close (fd : Z) (r : resources) : resources :=
  mkRsrc (remove_handle fd (open_sockets r)) (live_creds r) (live_sessions r).

Definition vlc_tls_Delete (creds : option Z) (r : resources) : resources :=
  match creds with
  | Some h => mkRsrc (open_sockets r) (remove_handle h (live_creds r))
                     (live_sessions r)
  | None => r
  end.

(** Closing a session also closes the socket it was created on. *)
Definition vlc_tls_Close (tls fd : Z) (r : resources) : resources :=
  mkRsrc (remove_handle fd (open_sockets r)) (live_creds r)
         (remove_handle tls (live_sessions r)).

Definition set_sock (c : ChromecastCommunication) (fd : Z)
    : ChromecastCommunication :=
  mkComm fd (p_creds c) (p_tls c) (serverIp c) (i_receiver_requestId c)
         (i_requestId c).

Definition set_serverIp (c : ChromecastCommunication) (ip : string)
    : ChromecastCommunication :=
  mkComm (i_sock_fd c) (p_creds c) (p_tls c) ip (i_receiver_requestId c)
         (i_requestId c).

Definition set_creds (c : ChromecastCommunication) (h : option Z)
    : ChromecastCommunication :=
  mkComm (i_sock_fd c) h (p_tls c) (serverIp c) (i_receiver_requestId c)
         (i_requestId c).

Definition set_tls (c : ChromecastCommunication) (h : option Z)
    : ChromecastCommunication :=
  mkComm (i_sock_fd c) (p_creds c) h (serverIp c) (i_receiver_requestId c)
         (i_requestId c).

Record connect_result : Type := mkConn {
  connected : bool;
  comm : ChromecastCommunication;
  rsrc : resources;
  peer : string * Z;
  conn_logs : list log_entry
}.

Section Connect.

Variable CHROMECAST_CONTROL_PORT : Z.

(** [connect], lines 49-83. *)
Definition connect (e : connect_env) (c : ChromecastCommunication)
    (r : resources) (targetIP : string) (devicePort : Z) : connect_result :=
  let devicePort :=
    if devicePort =? 0 then CHROMECAST_CONTROL_PORT else devicePort in
  let fd := env_ConnectTCP e in
  let r := if fd <? 0 then r
           else mkRsrc (fd :: open_sockets r) (live_creds r)
                       (live_sessions r) in
  let c := set_sock c fd in
  if i_sock_fd c <? 0 then mkConn false c r (targetIP, devicePort) []
  else
    let '(rc, psz_localIP) := env_GetSockAddress e in
    if negb (rc =? 0) then
      mkConn false c r (targetIP, devicePort)
             [msg_Err "Cannot get local IP address"]
    else
      let c := set_serverIp c psz_localIP in
      let c := set_creds c (env_ClientCreate e) in
      match p_creds c with
      | None =>
          mkConn false c (net_Close (i_sock_fd c) r) (targetIP, devicePort)
                 [msg_Err "Failed to create TLS client"]
      | Some creds =>
          let r := mkRsrc (open_sockets r) (creds :: live_creds r)
                          (live_sessions r) in
          let c := set_tls c (env_ClientSessionCreateFD e) in
          match p_tls c with
          | None =>
              mkConn false c
                     (vlc_tls_Delete (p_creds c) (net_Close (i_sock_fd c) r))
                     (targetIP, devicePort)
                     [msg_Err "Failed to create client session"]
          | Some tls =>
              mkConn true c
                     (mkRsrc (open_sockets r) (live_creds r)
                             (tls :: live_sessions r))
                     (targetIP, devicePort) []
          end
      end.

(** [disconnect], lines 90-98. *)
Definition disconnect (c : ChromecastCommunication) (r : resources)
    : ChromecastCommunication * resources :=
  match p_tls c with
  | Some tls =>
      (set_tls c None,
       vlc_tls_Delete (p_creds c) (vlc_tls_Close tls (i_sock_fd c) r))
  | None => (c, r)
  end.

End Connect.

(** ** Vocabulary of the statements *)

(** A poll that ran into its deadline: nothing is ready. *)
Definition is_timeout (p : poll_result) : Prop :=
  val p = 0 /\ revents_POLLIN p = false.

(** A poll that found the socket readable. *)
Definition is_readable (p : poll_result) : Prop :=
  0 < val p /\ revents_POLLIN p = true.

Definition NO_PONG : log_entry :=
  msg_Err "No PONG answer received from the Chromecast".

(** The invocation took the branch commented "Connection died". *)
Definition reports_dead (r : recv_result) : Prop := In NO_PONG (logs r).

Section Windows.

Variable PACKET_MAX_LEN : Z.
Variable PING_WAIT_TIME : Z.
Variable PING_WAIT_RETRIES : Z.
Variable p : poll_result.
Variable w : list event.

(** The caller's variables after [n] further invocations that all see
    the poll result [p]. *)
Fixpoint windows (n : nat) (s : rx_state) : rx_state :=
  match n with
  | O => s
  | S n' =>
      st (recvPacket PACKET_MAX_LEN PING_WAIT_TIME PING_WAIT_RETRIES p
                     (windows n' s) w)
  end.

(** The invocation that follows [n] such invocations. *)
Definition window (n : nat) (s : rx_state) : recv_result :=
  recvPacket PACKET_MAX_LEN PING_WAIT_TIME PING_WAIT_RETRIES p
             (windows n s) w.

End Windows.

(** The bytes of one message on the wire. *)
Definition frame (msg : CastMessage) : list byte :=
  SetDWBE (ByteSize msg) ++ SerializeWithCachedSizesToArray msg.

(** The next allocation in [sendMessage] yields a buffer. *)
Definition allocates (l : link) : bool := hd true (new_results l).

(** What one call of [sendMessage] hands to the transport: the bytes of
    the message, or nothing when the allocation of the packet fails. *)
Definition handed (l : link) (msg : CastMessage) : list (list byte) :=
  if allocates l then [frame msg] else [].

(** JSON text as the receiver reads it. *)
Definition json_string (s : string) : string := (dq ++ s ++ dq)%string.

Definition json_member (key value : string) : string :=
  (json_string key ++ ":" ++ value)%string.

Definition json_object (members : list string) : string :=
  ("{" ++ String.concat "," members ++ "}")%string.

Definition get_status_json (requestId : Z) : string :=
  json_object [ json_member "type" (json_string "GET_STATUS");
                json_member "requestId" (dec requestId) ].

Definition launch_json (appId : string) (requestId : Z) : string :=
  json_object [ json_member "type" (json_string "LAUNCH");
                json_member "appId" (json_string appId);
                json_member "requestId" (dec requestId) ].

Definition load_json (media : string) (requestId : Z) : string :=
  json_object [ json_member "type" (json_string "LOAD");
                json_member "media" ("{" ++ media ++ "}")%string;
                json_member "autoplay" (json_string "false");
                json_member "requestId" (dec requestId) ].

Definition verb_json (verb mediaSessionId : string) (requestId : Z) : string :=
  json_object [ json_member "type" (json_string verb);
                json_member "mediaSessionId" mediaSessionId;
                json_member "requestId" (dec requestId) ].

Definition seek_json (currentTime mediaSessionId : string) (requestId : Z)
    : string :=
  json_object [ json_member "type" (json_string "SEEK");
                json_member "currentTime" currentTime;
                json_member "mediaSessionId" mediaSessionId;
                json_member "requestId" (dec requestId) ].

Definition set_volume_json (level : string) (muted : bool)
    (mediaSessionId : string) (requestId : Z) : string :=
  json_object [ json_member "type" (json_string "SET_VOLUME");
                json_member "volume"
                  (json_object [ json_member "level" level;
                                 json_member "muted"
                                   (if muted then "true" else "false") ]);
                json_member "mediaSessionId" mediaSessionId;
                json_member "requestId" (dec requestId) ].

(** The media descriptor: where the stream is served, and the optional
    metadata block in front of it. *)
Definition content_url (ip : string) (port : Z) : string :=
  ("http://" ++ ip ++ ":" ++ dec port ++ "/stream")%string.

Definition media_content (ip : string) (port : Z) (mime : string) : string :=
  String.concat ","
    [ json_member "contentId" (json_string (content_url ip port));
      json_member "streamType" (json_string "LIVE");
      json_member "contentType" (json_string mime) ].

Definition media_metadata (title : string) (image : option string) : string :=
  (json_member "metadata"
     ("{ " ++ String.concat ","
        ([ json_member "metadataType" "0";
           json_member "title" (json_string title) ]
         ++ match image with
            | Some url => [ json_member "images" ("[" ++ json_string url ++ "]") ]
            | None => []
            end)
      ++ "}") ++ ",")%string.

(** An http or https URL, by its scheme. *)
Definition is_http_url (s : string) : bool :=
  prefix "http://" s || prefix "https://" s.

Fixpoint contains (needle hay : string) : bool :=
  prefix needle hay
  || match hay with
     | EmptyString => false
     | String _ rest => contains needle rest
     end.

(** The descriptor has an images entry for [url]. *)
Definition has_image (media url : string) : bool :=
  contains (json_member "images" ("[" ++ json_string url ++ "]")%string) media.

(** A call that returned, advanced [counter] by one, left [other]
    alone, and sent exactly one message: the text [json] applied to the
    value that [counter] had before the call, to [dest] in namespace
    [ns].  The message reaches the transport unless the allocation of
    its packet fails. *)
Definition request_made (counter other : ChromecastCommunication -> Z)
    (ns dest : string) (json : Z -> string) (c : ChromecastCommunication)
    (l : link) (r : call (ChromecastCommunication * link)) : Prop :=
  exists c' l',
    r = Finished (c', l')
    /\ counter c' = counter c + 1
    /\ other c' = other c
    /\ sent l' = sent l ++ handed l (envelope ns (json (counter c)) dest
                                              CastMessage_PayloadType_STRING).

(** The two halves of the range check, on values. *)
Definition below_zero (v : spec_float) : Prop := SFltb v f32_zero = true.
Definition above_one (v : spec_float) : Prop := SFltb f32_one v = true.
Definition in_unit_range (v : spec_float) : Prop :=
  SFleb f32_zero v = true /\ SFleb v f32_one = true.

(** Sample values: binary32 numbers and the constants of a session. *)
Definition f32_half : spec_float := S754_finite false 8388608 (-24).
Definition f32_two : spec_float := S754_finite false 8388608 (-22).
Definition f32_minus_tenth : spec_float := S754_finite true 13421773 (-27).

Definition sample_receiver_ns : string := "urn:x-cast:com.google.cast.receiver".
Definition sample_media_ns : string := "urn:x-cast:com.google.cast.media".
Definition sample_receiver : string := "receiver-0".
Definition sample_app : string := "CC1AD845".

(** A stand-in for the text of a [float]: enough digits for the sample
    values above. *)
Definition sample_show (v : spec_float) : string :=
  match v with
  | S754_zero _ => "0"
  | S754_finite false 8388608 (-24) => "0.5"
  | S754_finite false 8388608 (-23) => "1"
  | S754_finite false 8388608 (-22) => "2"
  | _ => "?"
  end.

Definition sample_comm : ChromecastCommunication :=
  mkComm 7 (Some 1) (Some 2) "10.0.0.5" 3 5.

Definition idle_link : link := mkLink [] [] [].

(** The next packet cannot be allocated. *)
Definition starved_link : link := mkLink [] [] [false].

(** One attempt to connect in which the TCP connection is established
    on descriptor 7 and [net_GetSockAddress] then fails. *)
Definition no_local_address : connect_env :=
  mkEnv 7 (1, ""%string) (Some 1) (Some 2).

Definition no_resources : resources := mkRsrc [] [] [].

(** The attempt failed at a step other than [net_GetSockAddress]. *)
Definition fails_elsewhere (e : connect_env) : Prop :=
  env_ConnectTCP e < 0
  \/ (0 <= env_ConnectTCP e /\ fst (env_GetSockAddress e) = 0
      /\ (env_ClientCreate e = None \/ env_ClientSessionCreateFD e = None)).

(** The handles that the environment gives out are not in use. *)
Definition fresh (e : connect_env) (r : resources) : Prop :=
  ~ In (env_ConnectTCP e) (open_sockets r)
  /\ forall h, env_ClientCreate e = Some h -> ~ In h (live_creds r).

(** The accumulator on entry to [recvPacket]: the buffer has the
    capacity [cap], the count is an [unsigned], and once the header is
    in the buffer the count does not exceed the header plus the length
    that the header declares. *)
Definition consistent (cap : Z) (s : rx_state) : Prop :=
  blen (p_data s) = cap
  /\ 0 <= pi_received s < 2 ^ 32
  /\ (PACKET_HEADER_LEN <= pi_received s ->
      pi_received s - PACKET_HEADER_LEN <= U32_AT (p_data s)).

(** A read request stays inside a buffer of capacity [cap]; [size] is
    the payload length that the header declares. *)
Definition request_ok (cap size : Z) (q : request) : Prop :=
  0 <= r_off q /\ 0 <= r_len q /\ r_off q + r_len q <= cap
  /\ match r_site q with
     | HeaderRead => r_off q + r_len q = PACKET_HEADER_LEN
     | PayloadRead => r_off q + r_len q = PACKET_HEADER_LEN + size
     | DrainRead => r_off q = PACKET_HEADER_LEN
                    /\ r_len q <= cap - PACKET_HEADER_LEN
     end.

(** The bytes that a script delivers, in order. *)
Fixpoint data_of (w : list event) : list byte :=
  match w with
  | [] => []
  | Data bs :: w' => bs ++ data_of w'
  | _ :: w' => data_of w'
  end.

Definition nonempty_chunk (e : event) : Prop :=
  match e with
  | Data bs => bs <> []
  | _ => True
  end.

(** [w] delivers the bytes [bs] in non-empty chunks, possibly with
    failed reads in between. *)
Definition delivers (w : list event) (bs : list byte) : Prop :=
  data_of w = bs /\ Forall nonempty_chunk w.

(** The message that the caller finds in its buffer. *)
Definition message (s : rx_state) : list byte :=
  firstn (Z.to_nat (i_payloadSize s))
         (skipn (Z.to_nat PACKET_HEADER_LEN) (p_data s)).

(** The caller's variables before the first byte of a frame. *)
Definition awaiting_frame (cap : Z) (s : rx_state) : Prop :=
  blen (p_data s) = cap /\ pi_received s = 0 /\ b_msgReceived s = false.

Section Invocations.

Variable PACKET_MAX_LEN : Z.
Variable PING_WAIT_TIME : Z.
Variable PING_WAIT_RETRIES : Z.
Variable p : poll_result.

(** The caller's loop: one invocation and at most [n] more, each on
    what the previous one left of the script, until a message is
    complete.  The value is the result of the last invocation. *)
Fixpoint invocations (n : nat) (s : rx_state) (w : list event)
    : recv_result :=
  let r := recvPacket PACKET_MAX_LEN PING_WAIT_TIME PING_WAIT_RETRIES p s w in
  match n with
  | O => r
  | S n' =>
      if b_msgReceived (st r) then r
      else invocations n' (st r) (script r)
  end.

End Invocations.

(** A packet: the 4-byte big-endian length of [body], then [body]. *)
Definition packet (body : list byte) : list byte :=
  SetDWBE (blen body) ++ body.

(** Sample values for the receiving side: a poll that found data, and
    the caller's variables before the first byte, with a buffer of
    [cap] bytes. *)
Definition readable : poll_result := mkPoll 1 false true.

Definition fresh_rx (cap : Z) : rx_state :=
  mkRx false 0 0 (repeat x00 (Z.to_nat cap)) false 6000 0.

(** The bytes "ABC" in one packet, delivered in four chunks with a
    failed read in between. *)
Definition abc_in_pieces : list event :=
  [ Data [x00]; Data [x00; x00]; Err; Data [x03; x41]; Data [x42; x43] ].

Definition PACKET_TOO_LONG : log_entry :=
  msg_Err "Packet too long: droping its data".

Definition log_eqb (a b : log_entry) : bool :=
  match a, b with
  | msg_Err x, msg_Err y => String.eqb x y
  | msg_Warn x, msg_Warn y => String.eqb x y
  | msg_Dbg x, msg_Dbg y => String.eqb x y
  | _, _ => false
  end.

(** The invocation was in the drain branch and emptied the
    accumulator: the oversized packet is behind it. *)
Definition drop_reported (r : recv_result) : bool :=
  existsb (log_eqb PACKET_TOO_LONG) (logs r) && (pi_received (st r) =? 0).

Section Draining.

Variable PACKET_MAX_LEN : Z.
Variable PING_WAIT_TIME : Z.
Variable PING_WAIT_RETRIES : Z.
Variable p : poll_result.

(** The caller's loop across an oversized packet: one invocation and at
    most [n] more, until the drop is reported. *)
Fixpoint drain_loop (n : nat) (s : rx_state) (w : list event) : recv_result :=
  let r := recvPacket PACKET_MAX_LEN PING_WAIT_TIME PING_WAIT_RETRIES p s w in
  match n with
  | O => r
  | S n' =>
      if drop_reported r then r
      else drain_loop n' (st r) (script r)
  end.

End Draining.

(** ** Invariants of the receiving side *)

Section SafetyInvariants.

Variable PACKET_MAX_LEN : Z.

(** A header read is in bounds whatever the header will declare. *)
Definition header_ok (q : request) : Prop :=
  forall size, request_ok PACKET_MAX_LEN size q.

(** What the header loop guarantees when it is entered with the count
    [rcv0] and the buffer [buf0]. *)
Definition header_safe (rcv0 : Z) (buf0 : list byte) (h : header_result)
    : Prop :=
  match h with
  | HdrDone rcv buf _ tr =>
      blen buf = PACKET_MAX_LEN /\ Forall header_ok tr
      /\ ((rcv0 < PACKET_HEADER_LEN /\ rcv = PACKET_HEADER_LEN)
          \/ (PACKET_HEADER_LEN <= rcv0 /\ rcv = rcv0 /\ buf = buf0))
  | HdrReturn i rcv buf _ tr =>
      i <= 0 /\ blen buf = PACKET_MAX_LEN /\ Forall header_ok tr
      /\ 0 <= rcv < PACKET_HEADER_LEN
  | HdrFuel => False
  end.

(** One invocation kept inside the buffer, met its assertion and left
    the accumulator consistent. *)
Definition invocation_safe (r : recv_result) : Prop :=
  res r <> AssertFailed /\ res r <> OutOfFuel
  /\ Forall (request_ok PACKET_MAX_LEN (i_payloadSize (st r))) (reads r)
  /\ consistent PACKET_MAX_LEN (st r).

End SafetyInvariants.

Section PacketInvariants.

Variable PACKET_MAX_LEN : Z.
Variable body : list byte.

(** The header loop, started with [k] bytes of the packet counted, the
    header bytes among them stored, and the rest of the packet still to
    come. *)
Definition header_assembling (k : nat) (buf0 : list byte) (w : list event)
    (h : header_result) : Prop :=
  match h with
  | HdrDone rcv buf w' _ =>
      exists k' : nat,
        rcv = Z.of_nat k' /\ (4 <= k' < List.length (packet body))%nat
        /\ blen buf = PACKET_MAX_LEN
        /\ firstn 4 buf = firstn 4 (packet body)
        /\ delivers w' (skipn k' (packet body))
        /\ (List.length w' <= List.length w)%nat
        /\ ((k < 4 /\ k' = 4)%nat \/ ((4 <= k)%nat /\ k' = k /\ buf = buf0))
  | HdrReturn i rcv buf w' _ =>
      (i = 0 \/ i = -1)
      /\ exists k' : nat,
           rcv = Z.of_nat k' /\ (k <= k' < 4)%nat
           /\ blen buf = PACKET_MAX_LEN
           /\ firstn k' buf = firstn k' (packet body)
           /\ delivers w' (skipn k' (packet body))
           /\ (List.length w' < List.length w)%nat
  | HdrFuel => False
  end.

(** Between invocations, for a packet that fits the buffer: [k] bytes
    of the packet are counted and stored, the script delivers the
    rest. *)
Definition assembling (k : nat) (s : rx_state) (w : list event) : Prop :=
  pi_received s = Z.of_nat k
  /\ (k < List.length (packet body))%nat
  /\ blen (p_data s) = PACKET_MAX_LEN
  /\ firstn k (p_data s) = firstn k (packet body)
  /\ delivers w (skipn k (packet body))
  /\ b_msgReceived s = false.

(** The invocation completed the packet. *)
Definition completed (r : recv_result) : Prop :=
  b_msgReceived (st r) = true
  /\ pi_received (st r) = 0
  /\ i_payloadSize (st r) = blen body
  /\ message (st r) = body
  /\ data_of (script r) = []
  /\ exists i, res r = Returned i /\ 0 < i.

(** What an invocation amounts to between the first and the last byte
    of the packet: it leaves the invariant in place on a shorter
    script, or it completes the packet. *)
Definition advances (w : list event) (r : recv_result) : Prop :=
  (exists k' : nat,
     assembling k' (st r) (script r)
     /\ (List.length (script r) < List.length w)%nat)
  \/ completed r.

(** Between invocations, for an oversized packet: [k] bytes of the
    packet are counted, its header is stored, the script delivers the
    rest. *)
Definition draining (k : nat) (s : rx_state) (w : list event) : Prop :=
  pi_received s = Z.of_nat k
  /\ (k < List.length (packet body))%nat
  /\ blen (p_data s) = PACKET_MAX_LEN
  /\ firstn (Nat.min k 4) (p_data s) = firstn (Nat.min k 4) (packet body)
  /\ delivers w (skipn k (packet body))
  /\ b_msgReceived s = false.

(** The invocation reported the drop with the whole packet consumed. *)
Definition dropped (r : recv_result) : Prop :=
  res r = Returned (-1)
  /\ pi_received (st r) = 0
  /\ b_msgReceived (st r) = false
  /\ data_of (script r) = []
  /\ drop_reported r = true.

(** What is left to do: the bytes and the events still in the script. *)
Definition remaining (w : list event) : nat :=
  (List.length (data_of w) + List.length w)%nat.

Definition drains (w : list event) (r : recv_result) : Prop :=
  (exists k' : nat,
     draining k' (st r) (script r)
     /\ drop_reported r = false
     /\ (remaining (script r) < remaining w)%nat)
  \/ dropped r.

End PacketInvariants.

(** ** The rest of the class *)

Section Session.

(** Constants of [chromecast.h], the text that [operator<<] produces
    for a [float], and what [SerializeAsString] yields for the
    [DeviceAuthMessage] with an empty challenge that [msgAuth] builds. *)
Variable NAMESPACE_DEVICEAUTH : string.
Variable NAMESPACE_HEARTBEAT : string.
Variable NAMESPACE_CONNECTION : string.
Variable NAMESPACE_RECEIVER : string.
Variable NAMESPACE_MEDIA : string.
Variable DEFAULT_CHOMECAST_RECEIVER : string.
Variable APP_ID : string.
Variable show_float : spec_float -> string.
Variable auth_challenge : string.

Local Open Scope string_scope.
Local Open Scope stream_scope.

(** [msgAuth], lines 252-259. *)
Definition msgAuth (c : ChromecastCommunication) (l : link)
    : call (ChromecastCommunication * link) :=
  Finished (c, buildMessage l NAMESPACE_DEVICEAUTH auth_challenge
                            DEFAULT_CHOMECAST_RECEIVER
                            CastMessage_PayloadType_BINARY).

(** [msgPing], lines 262-266. *)
Definition msgPing (c : ChromecastCommunication) (l : link)
    : call (ChromecastCommunication * link) :=
  let s := "{" << dq << "type" << dq << ":" << dq << "PING" << dq << "}" in
  Finished (c, buildMessage l NAMESPACE_HEARTBEAT s DEFAULT_CHOMECAST_RECEIVER
                            CastMessage_PayloadType_STRING).

(** [msgPong], lines 269-273. *)
Definition msgPong (c : ChromecastCommunication) (l : link)
    : call (ChromecastCommunication * link) :=
  let s := "{" << dq << "type" << dq << ":" << dq << "PONG" << dq << "}" in
  Finished (c, buildMessage l NAMESPACE_HEARTBEAT s DEFAULT_CHOMECAST_RECEIVER
                            CastMessage_PayloadType_STRING).

(** [msgConnect], lines 275-279. *)
Definition msgConnect (c : ChromecastCommunication) (l : link)
    (destinationId : string) : call (ChromecastCommunication * link) :=
  let s := "{" << dq << "type" << dq << ":" << dq << "CONNECT" << dq << "}" in
  Finished (c, buildMessage l NAMESPACE_CONNECTION s destinationId
                            CastMessage_PayloadType_STRING).

(** [msgReceiverClose], lines 281-285. *)
Definition msgReceiverClose (c : ChromecastCommunication) (l : link)
    (destinationId : string) : call (ChromecastCommunication * link) :=
  let s := "{" << dq << "type" << dq << ":" << dq << "CLOSE" << dq << "}" in
  Finished (c, buildMessage l NAMESPACE_CONNECTION s destinationId
                            CastMessage_PayloadType_STRING).

(** One call of a public message method, with its arguments. *)
Inductive command : Type :=
| Auth
| Ping
| Pong
| Connect (destinationId : string)
| ReceiverClose (destinationId : string)
| ReceiverGetStatus
| ReceiverLaunchApp
| PlayerGetStatus (destinationId : string)
| PlayerLoad (destinationId : string) (i_port : Z)
             (title artwork mime : string)
| PlayerPlay (destinationId mediaSessionId : string)
| PlayerStop (destinationId mediaSessionId : string)
| PlayerPause (destinationId mediaSessionId : string)
| PlayerSetVolume (destinationId mediaSessionId : string)
                  (f_volume : spec_float) (b_mute : bool)
| PlayerSeek (destinationId mediaSessionId currentTime : string).

Definition exec (cmd : command) (c : ChromecastCommunication) (l : link)
    : call (ChromecastCommunication * link) :=
  match cmd with
  | Auth => msgAuth c l
  | Ping => msgPing c l
  | Pong => msgPong c l
  | Connect d => msgConnect c l d
  | ReceiverClose d => msgReceiverClose c l d
  | ReceiverGetStatus =>
      msgReceiverGetStatus NAMESPACE_RECEIVER DEFAULT_CHOMECAST_RECEIVER c l
  | ReceiverLaunchApp =>
      msgReceiverLaunchApp NAMESPACE_RECEIVER DEFAULT_CHOMECAST_RECEIVER APP_ID
                           c l
  | PlayerGetStatus d => msgPlayerGetStatus NAMESPACE_MEDIA c l d
  | PlayerLoad d port title artwork mime =>
      msgPlayerLoad NAMESPACE_MEDIA c l d port title artwork mime
  | PlayerPlay d m => msgPlayerPlay NAMESPACE_MEDIA c l d m
  | PlayerStop d m => msgPlayerStop NAMESPACE_MEDIA c l d m
  | PlayerPause d m => msgPlayerPause NAMESPACE_MEDIA c l d m
  | PlayerSetVolume d m v mute =>
      msgPlayerSetVolume NAMESPACE_MEDIA show_float c l d m v mute
  | PlayerSeek d m t => msgPlayerSeek NAMESPACE_MEDIA c l d m t
  end.

(** The calls of a caller, one after the other; a failed assertion ends
    the process and with it the sequence. *)
Fixpoint run (cmds : list command) (c : ChromecastCommunication) (l : link)
    : call (ChromecastCommunication * link) :=
  match cmds with
  | [] => Finished (c, l)
  | cmd :: rest =>
      match exec cmd c l with
      | Finished (c', l') => run rest c' l'
      | Aborted a => Aborted a
      end
  end.

End Session.

(** The destructor, lines 85-88. *)
Definition ChromecastCommunication_delete (c : ChromecastCommunication)
    (r : resources) : ChromecastCommunication * resources :=
  disconnect c r.

(** An envelope as [buildMessage] fills it in: version and sender
    fixed, destination and namespace set, and exactly the payload field
    that the payload type names. *)
Definition envelope_ok (m : CastMessage) : Prop :=
  protocol_version m = Some CastMessage_ProtocolVersion_CASTV2_1_0
  /\ source_id m = Some "sender-vlc"%string
  /\ destination_id m <> None
  /\ namespace_ m <> None
  /\ ((payload_type m = Some CastMessage_PayloadType_STRING
       /\ payload_utf8 m <> None /\ payload_binary m = None)
      \/ (payload_type m = Some CastMessage_PayloadType_BINARY
          /\ payload_binary m <> None /\ payload_utf8 m = None)).

(** A buffer handed to the transport that is one such envelope behind
    its length prefix. *)
Definition is_frame (wire : list byte) : Prop :=
  exists m, envelope_ok m /\ wire = frame m.

(** The request ids given out so far, both namespaces together. *)
Definition ids_used (c : ChromecastCommunication) : Z :=
  i_receiver_requestId c + i_requestId c.

(** The members that belong to the transport. *)
Definition transport_of (c : ChromecastCommunication)
    : Z * option Z * option Z * string :=
  (i_sock_fd c, p_creds c, p_tls c, serverIp c).

(** No allocation that is still to come fails. *)
Definition all_allocated (l : link) : Prop :=
  Forall (fun b => b = true) (new_results l).

(** The effect of one call, whether it returns or stops at an
    assertion. *)
Definition step_ok (c : ChromecastCommunication) (l : link)
    (r : call (ChromecastCommunication * link)) : Prop :=
  transport_of (fst (state_of r)) = transport_of c
  /\ i_receiver_requestId c <= i_receiver_requestId (fst (state_of r))
  /\ i_requestId c <= i_requestId (fst (state_of r))
  /\ exists extra,
       sent (snd (state_of r)) = sent l ++ extra
       /\ (List.length extra <= 1)%nat
       /\ Forall is_frame extra
       /\ (all_allocated l ->
           all_allocated (snd (state_of r))
           /\ forall a, r = Finished a ->
                ids_used (fst a) - ids_used c
                <= Z.of_nat (List.length extra)).

(** A short session on the sample connection: a heartbeat, a status
    request, a PLAY and two volume changes, the second one out of range. *)
Definition sample_session : list command :=
  [ Ping; ReceiverGetStatus; PlayerPlay "app-1" "1";
    PlayerSetVolume "app-1" "1" f32_half false;
    PlayerSetVolume "app-1" "1" f32_two false ]%string.

Definition sample_run : call (ChromecastCommunication * link) :=
  run "urn:x-cast:com.google.cast.tp.deviceauth"
      "urn:x-cast:com.google.cast.tp.heartbeat"
      "urn:x-cast:com.google.cast.tp.connection"
      sample_receiver_ns sample_media_ns sample_receiver sample_app
      sample_show EmptyString sample_session sample_comm idle_link.

(** What a caller can tell of a message call: the object afterwards and
    the buffers handed to the transport, not what the transport
    answered. *)
Definition outcome_of (r : call (ChromecastCommunication * link))
    : call (ChromecastCommunication * list (list byte)) :=
  match r with
  | Finished (c, l) => Finished (c, sent l)
  | Aborted (c, l) => Aborted (c, sent l)
  end.

(** What a caller sees of a message call: whether it returned, and
    the object afterwards. *)
Definition object_of (r : call (ChromecastCommunication * link))
    : call ChromecastCommunication :=
  match r with
  | Finished (c, _) => Finished c
  | Aborted (c, _) => Aborted c
  end.

(** A transport that refuses the next three buffers. *)
Definition failing_link : link := mkLink [] [-1; 0; 3] [].

(** Every step of a connection attempt works. *)
Definition succeeds (e : connect_env) : Prop :=
  0 <= env_ConnectTCP e
  /\ fst (env_GetSockAddress e) = 0
  /\ env_ClientCreate e <> None
  /\ env_ClientSessionCreateFD e <> None.

(** The session handle that the environment gives out is not in use. *)
Definition fresh_session (e : connect_env) (r : resources) : Prop :=
  forall h, env_ClientSessionCreateFD e = Some h -> ~ In h (live_sessions r).

(** An attempt on which everything works, and one on which the TLS
    session cannot be created. *)
Definition working_env : connect_env :=
  mkEnv 7 (0, "10.0.0.5"%string) (Some 1) (Some 2).

Definition no_session_env : connect_env :=
  mkEnv 7 (0, "10.0.0.5"%string) (Some 1) None.

(** Resources of the process that belong to somebody else. *)
Definition busy_resources : resources := mkRsrc [3; 4] [9] [8].

(** The caller's variables after the header of a packet that declares
    an empty payload, with a buffer of 16 bytes. *)
Definition after_empty_header : rx_state :=
  mkRx false 0 4 (repeat x00 16) false 6000 0.

(** A poll that was interrupted: -1 with [errno] at [EINTR], nothing
    readable. *)
Definition interrupted : poll_result := mkPoll (-1) true false.

(** A poll that reports only a hang-up. *)
Definition hung_up : poll_result := mkPoll 1 false false.

(** ** A packet at the head of a stream *)

Section StreamInvariants.

Variable PACKET_MAX_LEN : Z.
Variable body : list byte.
Variable rest : list byte.

(** What is still to come once [k] bytes of the packet are counted: the
    rest of the packet, then the bytes [rest] that follow it. *)
Definition upcoming (k : nat) : list byte := skipn k (packet body) ++ rest.

Definition header_in_stream (k : nat) (buf0 : list byte) (w : list event)
    (h : header_result) : Prop :=
  match h with
  | HdrDone rcv buf w' _ =>
      exists k' : nat,
        rcv = Z.of_nat k' /\ (4 <= k' < List.length (packet body))%nat
        /\ blen buf = PACKET_MAX_LEN
        /\ firstn 4 buf = firstn 4 (packet body)
        /\ delivers w' (upcoming k')
        /\ (List.length w' <= List.length w)%nat
        /\ ((k < 4 /\ k' = 4)%nat \/ ((4 <= k)%nat /\ k' = k /\ buf = buf0))
  | HdrReturn i rcv buf w' _ =>
      (i = 0 \/ i = -1)
      /\ exists k' : nat,
           rcv = Z.of_nat k' /\ (k <= k' < 4)%nat
           /\ blen buf = PACKET_MAX_LEN
           /\ firstn k' buf = firstn k' (packet body)
           /\ delivers w' (upcoming k')
           /\ (List.length w' < List.length w)%nat
  | HdrFuel => False
  end.

(** Between invocations: [k] bytes of the packet are counted and
    stored, the script delivers what is still to come. *)
Definition in_stream (k : nat) (s : rx_state) (w : list event) : Prop :=
  pi_received s = Z.of_nat k
  /\ (k < List.length (packet body))%nat
  /\ blen (p_data s) = PACKET_MAX_LEN
  /\ firstn k (p_data s) = firstn k (packet body)
  /\ delivers w (upcoming k)
  /\ b_msgReceived s = false.

(** The invocation completed the packet and took nothing of what
    follows it: the accumulator is empty, and the script still delivers
    all of [rest]. *)
Definition taken (r : recv_result) : Prop :=
  b_msgReceived (st r) = true
  /\ pi_received (st r) = 0
  /\ i_payloadSize (st r) = blen body
  /\ message (st r) = body
  /\ blen (p_data (st r)) = PACKET_MAX_LEN
  /\ delivers (script r) rest
  /\ exists i, res r = Returned i /\ 0 < i.

Definition proceeds (w : list event) (r : recv_result) : Prop :=
  (exists k' : nat,
     in_stream k' (st r) (script r)
     /\ (List.length (script r) < List.length w)%nat)
  \/ taken r.

End StreamInvariants.

(** Two packets back to back, "ABC" and "DE", in chunks that do not
    respect the boundary between them. *)
Definition two_packets : list event :=
  [ Data [x00; x00]; Data [x00; x03; x41; x42];
    Data [x43; x00; x00; x00]; Data [x02; x44; x45] ].

(** A packet of five payload bytes for a buffer of eight, in two
    chunks around a failed read. *)
Definition oversized_in_pieces : list event :=
  [ Data [x00; x00; x00; x05; x41; x42]; Err; Data [x43; x44; x45] ].

(** * Properties *)

(** ** Machine integers and the length prefix *)

Lemma u32_small z : 0 <= z < 2 ^ 32 -> u32 z = z.
Proof. intros H. unfold u32. apply Z.mod_small. exact H. Qed.

Lemma u32_range z : 0 <= u32 z < 2 ^ 32.
Proof. unfold u32. apply Z.mod_pos_bound. lia. Qed.

Lemma to_int_small z : - 2 ^ 31 <= z < 2 ^ 31 -> to_int z = z.
Proof.
  intros H. unfold to_int. rewrite Z.mod_small; lia.
Qed.

Lemma Z_of_byte_range b : 0 <= Z_of_byte b < 256.
Proof.
  unfold Z_of_byte. pose proof (Byte.to_N_bounded b) as H.
  split; [apply N2Z.is_nonneg|]. lia.
Qed.

Lemma Z_of_byte_of_Z z : Z_of_byte (byte_of_Z z) = z mod 256.
Proof.
  unfold Z_of_byte, byte_of_Z.
  assert (Hr : 0 <= z mod 256 < 256) by (apply Z.mod_pos_bound; lia).
  destruct (Byte.of_N (Z.to_N (z mod 256))) as [b|] eqn:E.
  - apply Byte.to_of_N in E. rewrite E. rewrite Z2N.id; lia.
  - apply Byte.of_N_None_iff in E. lia.
Qed.

Lemma lor_shiftl_add hi lo k :
  0 <= k -> 0 <= lo < 2 ^ k -> Z.lor (Z.shiftl hi k) lo = hi * 2 ^ k + lo.
Proof.
  intros Hk Hlo.
  assert (Hdisj : Z.land (Z.shiftl hi k) lo = 0).
  { apply Z.bits_inj'. intros n Hn.
    rewrite Z.land_spec, Z.bits_0.
    destruct (Z.lt_ge_cases n k) as [Hlt|Hge].
    - rewrite Z.shiftl_spec_low by exact Hlt. reflexivity.
    - replace lo with (lo mod 2 ^ k) by (apply Z.mod_small; exact Hlo).
      rewrite Z.mod_pow2_bits_high by lia. apply andb_false_r. }
  rewrite <- Z.lxor_lor by exact Hdisj.
  rewrite <- Z.add_nocarry_lxor by exact Hdisj.
  rewrite Z.shiftl_mul_pow2 by exact Hk. reflexivity.
Qed.

Lemma lor_aligned_add x lo k :
  0 <= k -> 0 <= lo < 2 ^ k -> x mod 2 ^ k = 0 -> Z.lor x lo = x + lo.
Proof.
  intros Hk Hlo Hx.
  assert (Hpos : 0 < 2 ^ k) by (apply Z.pow_pos_nonneg; lia).
  assert (E : x = x / 2 ^ k * 2 ^ k).
  { pose proof (Z.div_mod x (2 ^ k)) as D. lia. }
  rewrite E at 1. rewrite <- Z.shiftl_mul_pow2 by exact Hk.
  rewrite lor_shiftl_add by assumption. lia.
Qed.

Lemma U32_AT_bytes b0 b1 b2 b3 rest :
  U32_AT (b0 :: b1 :: b2 :: b3 :: rest) =
  Z_of_byte b0 * 2 ^ 24 + Z_of_byte b1 * 2 ^ 16 + Z_of_byte b2 * 2 ^ 8
  + Z_of_byte b3.
Proof.
  unfold U32_AT. cbn [nth].
  pose proof (Z_of_byte_range b0). pose proof (Z_of_byte_range b1).
  pose proof (Z_of_byte_range b2). pose proof (Z_of_byte_range b3).
  generalize dependent (Z_of_byte b0). intros a Ha.
  generalize dependent (Z_of_byte b1). intros b Hb.
  generalize dependent (Z_of_byte b2). intros c Hc.
  generalize dependent (Z_of_byte b3). intros d Hd.
  rewrite !Z.shiftl_mul_pow2 by lia.
  change (2 ^ 24) with 16777216. change (2 ^ 16) with 65536.
  change (2 ^ 8) with 256.
  rewrite (lor_aligned_add (a * 16777216) (b * 65536) 24);
    [ | lia | change (2 ^ 24) with 16777216; lia
      | change (2 ^ 24) with 16777216;
        Z.to_euclidean_division_equations; lia ].
  rewrite (lor_aligned_add _ (c * 256) 16);
    [ | lia | change (2 ^ 16) with 65536; lia
      | change (2 ^ 16) with 65536;
        Z.to_euclidean_division_equations; lia ].
  rewrite (lor_aligned_add _ d 8);
    [ | lia | change (2 ^ 8) with 256; lia
      | change (2 ^ 8) with 256;
        Z.to_euclidean_division_equations; lia ].
  reflexivity.
Qed.

Lemma U32_AT_range p : 0 <= U32_AT p < 2 ^ 32.
Proof.
  assert (H : exists b0 b1 b2 b3 rest,
             U32_AT p = U32_AT (b0 :: b1 :: b2 :: b3 :: rest)).
  { unfold U32_AT.
    exists (nth 0 p x00), (nth 1 p x00), (nth 2 p x00), (nth 3 p x00), [].
    reflexivity. }
  destruct H as (b0 & b1 & b2 & b3 & rest & ->).
  rewrite U32_AT_bytes.
  pose proof (Z_of_byte_range b0). pose proof (Z_of_byte_range b1).
  pose proof (Z_of_byte_range b2). pose proof (Z_of_byte_range b3).
  lia.
Qed.

Lemma U32_AT_SetDWBE v rest : U32_AT (SetDWBE v ++ rest) = u32 v.
Proof.
  unfold SetDWBE. cbn [app]. rewrite U32_AT_bytes.
  rewrite !Z_of_byte_of_Z, !Z.shiftr_div_pow2 by lia.
  pose proof (u32_range v) as Hr. generalize dependent (u32 v). intros w Hw.
  change (2 ^ 32) with 4294967296 in Hw.
  change (2 ^ 24) with 16777216. change (2 ^ 16) with 65536.
  change (2 ^ 8) with 256.
  Z.to_euclidean_division_equations. lia.
Qed.

Lemma SetDWBE_length v : List.length (SetDWBE v) = 4%nat.
Proof. reflexivity. Qed.

(** ** Keepalive *)

Section KeepaliveFacts.

Variable PACKET_MAX_LEN : Z.
Variable PING_WAIT_TIME : Z.
Variable PING_WAIT_RETRIES : Z.

Local Abbreviation recvPacket' := (recvPacket PACKET_MAX_LEN PING_WAIT_TIME PING_WAIT_RETRIES).
Local Abbreviation windows' := (windows PACKET_MAX_LEN PING_WAIT_TIME PING_WAIT_RETRIES).
Local Abbreviation window' := (window PACKET_MAX_LEN PING_WAIT_TIME PING_WAIT_RETRIES).

Lemma timeout_first p s w :
  is_timeout p -> pb_pingTimeout s = false ->
  recvPacket' p s w =
  mkRes (Returned 0) (set_keepalive s true PONG_WAIT_TIME PONG_WAIT_RETRIES) w []
        [msg_Warn "No PING received from the Chromecast, sending a PING"].
Proof.
  intros [Hv Hp] Hf. unfold recvPacket, keepalive.
  rewrite Hv, Hf, Hp. reflexivity.
Qed.

Lemma timeout_waiting p s w :
  is_timeout p -> pb_pingTimeout s = true -> pi_wait_retries s <> 0 ->
  recvPacket' p s w =
  mkRes (Returned 0)
        (set_keepalive s true (pi_wait_delay s) (pi_wait_retries s - 1)) w [] [].
Proof.
  intros [Hv Hp] Hf Hr. unfold recvPacket, keepalive.
  rewrite Hv, Hf, Hp. cbn.
  destruct (pi_wait_retries s =? 0) eqn:E; [lia | reflexivity].
Qed.

Lemma timeout_dead p s w :
  is_timeout p -> pb_pingTimeout s = true -> pi_wait_retries s = 0 ->
  recvPacket' p s w = mkRes (Returned 0) s w [] [NO_PONG].
Proof.
  intros [Hv Hp] Hf Hr. unfold recvPacket, keepalive.
  rewrite Hv, Hf, Hr. reflexivity.
Qed.

Lemma windows_S p w n s :
  windows' p w (S n) s = st (window' p w n s).
Proof. reflexivity. Qed.

(** While the ping is outstanding, [k] further timeouts use up [k]
    retries and nothing else. *)
Lemma windows_waiting p w s (k : nat) :
  is_timeout p -> pb_pingTimeout s = true ->
  Z.of_nat k <= pi_wait_retries s ->
  windows' p w k s =
  set_keepalive s true (pi_wait_delay s) (pi_wait_retries s - Z.of_nat k).
Proof.
  intros Hp Hf. induction k as [|k IH]; intros Hk.
  - cbn [windows Z.of_nat]. rewrite Z.sub_0_r. rewrite <- Hf.
    destruct s; reflexivity.
  - cbn [windows]. rewrite IH by lia.
    rewrite timeout_waiting;
      [ | exact Hp | reflexivity
        | unfold set_keepalive; cbn [pi_wait_retries]; lia ].
    unfold set_keepalive. cbn [st b_msgReceived i_payloadSize pi_received
      p_data pb_pingTimeout pi_wait_delay pi_wait_retries]. f_equal. lia.
Qed.

Lemma readable_resets p s w :
  0 < val p ->
  let r := recvPacket' p s w in
  pb_pingTimeout (st r) = false /\ pi_wait_delay (st r) = PING_WAIT_TIME
  /\ pi_wait_retries (st r) = PING_WAIT_RETRIES.
Proof.
  intros Hv. cbv zeta. unfold recvPacket, keepalive.
  destruct (val p =? -1) eqn:E1; [lia|].
  destruct (val p =? 0) eqn:E0; [lia|]. cbn [andb].
  destruct (revents_POLLIN p); [|cbn; auto].
  destruct (recv_header _ _ _ _ _) as [rcv buf w' tr|i rcv buf w' tr|];
    [ | cbn; auto | cbn; auto ].
  unfold recv_drain, recv_payload.
  repeat match goal with
         | |- context [let '(_, _) := ?x in _] => destruct x
         | |- context [if ?x then _ else _] => destruct x
         end; cbn; auto.
Qed.

Lemma windows_add p w n m s :
  windows' p w (n + m) s = windows' p w n (windows' p w m s).
Proof.
  induction n as [|n IH]; [reflexivity|].
  cbn [Nat.add windows]. rewrite IH. reflexivity.
Qed.

Lemma NO_PONG_not_warn text : ~ In NO_PONG [msg_Warn text].
Proof. intros [H|[]]. discriminate H. Qed.

(** C6 (as amended).  From a state whose ping-timeout flag is clear,
    consecutive poll timeouts behave as follows.  Every one of them
    returns 0.  The first sets the flag, shortens the wait delay to
    [PONG_WAIT_TIME] and sets the retry budget to [PONG_WAIT_RETRIES].
    The next [PONG_WAIT_RETRIES] timeouts each use up one retry and do
    not report the connection dead.  The timeout after those, the
    [(PONG_WAIT_RETRIES + 1)]-th after the first, takes the dead branch:
    it logs the missing PONG, returns 0 and leaves the caller's
    variables as they were.  An invocation whose poll finds data clears
    the flag and restores [PING_WAIT_TIME] and [PING_WAIT_RETRIES]. *)
Theorem keepalive_death_window p w s :
  is_timeout p -> pb_pingTimeout s = false ->
  (forall n, (n <= 1 + Z.to_nat PONG_WAIT_RETRIES)%nat ->
             res (window' p w n s) = Returned 0)
  /\ (~ reports_dead (window' p w 0 s)
      /\ pb_pingTimeout (windows' p w 1 s) = true
      /\ pi_wait_delay (windows' p w 1 s) = PONG_WAIT_TIME
      /\ pi_wait_retries (windows' p w 1 s) = PONG_WAIT_RETRIES)
  /\ (forall k, (1 <= k <= Z.to_nat PONG_WAIT_RETRIES)%nat ->
                ~ reports_dead (window' p w k s)
                /\ pb_pingTimeout (windows' p w (S k) s) = true
                /\ pi_wait_delay (windows' p w (S k) s) = PONG_WAIT_TIME
                /\ pi_wait_retries (windows' p w (S k) s)
                   = PONG_WAIT_RETRIES - Z.of_nat k)
  /\ (reports_dead (window' p w (1 + Z.to_nat PONG_WAIT_RETRIES) s)
      /\ st (window' p w (1 + Z.to_nat PONG_WAIT_RETRIES) s)
         = windows' p w (1 + Z.to_nat PONG_WAIT_RETRIES) s)
  /\ (forall p' s' w', 0 < val p' ->
        let r := recvPacket' p' s' w' in
        pb_pingTimeout (st r) = false
        /\ pi_wait_delay (st r) = PING_WAIT_TIME
        /\ pi_wait_retries (st r) = PING_WAIT_RETRIES).
Proof.
  intros Hp Hf.
  assert (H1 : windows' p w 1 s
               = set_keepalive s true PONG_WAIT_TIME PONG_WAIT_RETRIES).
  { cbn [windows]. rewrite timeout_first by assumption. reflexivity. }
  assert (Hk : forall k, (k <= Z.to_nat PONG_WAIT_RETRIES)%nat ->
             windows' p w (S k) s
             = set_keepalive s true PONG_WAIT_TIME
                             (PONG_WAIT_RETRIES - Z.of_nat k)).
  { intros k Hk. replace (S k) with (k + 1)%nat by lia.
    rewrite windows_add, H1.
    rewrite windows_waiting;
      [ reflexivity | exact Hp | reflexivity
        | cbn [set_keepalive pi_wait_retries]; unfold PONG_WAIT_RETRIES in *;
          lia ]. }
  assert (Hw : forall k, (k <= Z.to_nat PONG_WAIT_RETRIES)%nat ->
             window' p w (S k) s
             = recvPacket' p (set_keepalive s true PONG_WAIT_TIME
                                (PONG_WAIT_RETRIES - Z.of_nat k)) w).
  { intros k Hle. unfold window. rewrite Hk by exact Hle. reflexivity. }
  assert (Hlive : forall k, (k < Z.to_nat PONG_WAIT_RETRIES)%nat ->
             window' p w (S k) s
             = mkRes (Returned 0)
                 (set_keepalive s true PONG_WAIT_TIME
                    (PONG_WAIT_RETRIES - Z.of_nat (S k))) w [] []).
  { intros k Hlt. rewrite Hw by lia.
    rewrite timeout_waiting;
      [ | exact Hp | reflexivity
        | cbn [set_keepalive pi_wait_retries]; unfold PONG_WAIT_RETRIES in *;
          lia ].
    unfold set_keepalive. cbn [b_msgReceived i_payloadSize pi_received p_data
      pb_pingTimeout pi_wait_delay pi_wait_retries]. f_equal. f_equal. lia. }
  assert (Hdead : window' p w (1 + Z.to_nat PONG_WAIT_RETRIES) s
             = mkRes (Returned 0)
                 (windows' p w (1 + Z.to_nat PONG_WAIT_RETRIES) s) w []
                 [NO_PONG]).
  { change (1 + Z.to_nat PONG_WAIT_RETRIES)%nat
      with (S (Z.to_nat PONG_WAIT_RETRIES)).
    unfold window. rewrite Hk by lia.
    apply timeout_dead; [exact Hp | reflexivity | ].
    cbn [set_keepalive pi_wait_retries]. unfold PONG_WAIT_RETRIES. lia. }
  assert (H0 : window' p w 0 s
             = mkRes (Returned 0)
                 (set_keepalive s true PONG_WAIT_TIME PONG_WAIT_RETRIES) w []
                 [msg_Warn
                    "No PING received from the Chromecast, sending a PING"]).
  { unfold window. cbn [windows]. apply timeout_first; assumption. }
  split; [|split; [|split; [|split]]].
  - intros n Hn. destruct n as [|n]; [rewrite H0; reflexivity|].
    destruct (Nat.eq_dec n (Z.to_nat PONG_WAIT_RETRIES)) as [->|Hne].
    + change (S (Z.to_nat PONG_WAIT_RETRIES))
        with (1 + Z.to_nat PONG_WAIT_RETRIES)%nat.
      rewrite Hdead. reflexivity.
    + rewrite Hlive by lia. reflexivity.
  - rewrite H0, H1. unfold reports_dead. cbn [logs].
    split; [apply NO_PONG_not_warn|]. repeat split.
  - intros k [Hk1 Hk2]. destruct k as [|k]; [lia|].
    rewrite Hlive by lia. rewrite Hk by lia.
    unfold reports_dead. cbn [logs]. split; [intros []|]. repeat split.
  - rewrite Hdead. unfold reports_dead. cbn [logs st].
    split; [left; reflexivity | reflexivity].
  - intros p' s' w' Hv. apply readable_resets. exact Hv.
Qed.

End KeepaliveFacts.

(** The statement applied to the start of a session: flag clear, 6 s
    between expected pings. *)
Lemma keepalive_death_window_witness :
  res (window 10240 6000 0 (mkPoll 0 false false) [] 3
              (mkRx false 0 0 [] false 6000 0)) = Returned 0.
Proof.
  refine (proj1 (keepalive_death_window 10240 6000 0 (mkPoll 0 false false) []
                   (mkRx false 0 0 [] false 6000 0) _ _) 3%nat _).
  - split; reflexivity.
  - reflexivity.
  - vm_compute. lia.
Defined.

(** C6 (as stated) does not hold: the return value 0 is not reserved to
    the window in which the connection is given up.  At the start of a
    session the very first timeout, which only triggers the ping,
    already returns 0. *)
Lemma keepalive_zero_before_death :
  ~ (forall n, (n < 1 + Z.to_nat PONG_WAIT_RETRIES)%nat ->
       res (window 10240 6000 0 (mkPoll 0 false false) [] n
                   (mkRx false 0 0 [] false 6000 0)) <> Returned 0).
Proof.
  intros H. apply (H 0%nat); [vm_compute; lia | reflexivity].
Qed.

(** ** Strings *)

Lemma append_assoc (a b c : string) :
  String.append (String.append a b) c = String.append a (String.append b c).
Proof.
  induction a as [|x a IH]; cbn; [reflexivity | rewrite IH; reflexivity].
Qed.

Lemma empty_length s : empty s = (String.length s =? 0)%nat.
Proof. destruct s; reflexivity. Qed.

Lemma nat_of_ascii_neq c1 c2 :
  c1 <> c2 -> Z.of_nat (nat_of_ascii c1) - Z.of_nat (nat_of_ascii c2) <> 0.
Proof.
  intros Hne Hz. apply Hne.
  rewrite <- (ascii_nat_embedding c1), <- (ascii_nat_embedding c2).
  f_equal. lia.
Qed.

(** [strncmp(s, t, n) == 0] with a [t] of [n] characters other than
    NUL says that [s] begins with [t]. *)
Lemma strncmp_prefix t : forall s,
  (forall c, In c (list_ascii_of_string t) -> c <> zero) ->
  (strncmp s t (String.length t) =? 0) = prefix t s.
Proof.
  induction t as [|c t IH]; intros s Hnz.
  - destruct s; reflexivity.
  - assert (Hc : c <> zero) by (apply Hnz; left; reflexivity).
    assert (Ht : forall d, In d (list_ascii_of_string t) -> d <> zero)
      by (intros d Hd; apply Hnz; right; exact Hd).
    destruct s as [|d s]; cbn [strncmp String.length prefix].
    + destruct (- Z.of_nat (nat_of_ascii c) =? 0) eqn:E; [|reflexivity].
      exfalso. apply (nat_of_ascii_neq c zero Hc).
      change (nat_of_ascii zero) with 0%nat. lia.
    + destruct (ascii_dec c d) as [<-|Hne].
      * rewrite Ascii.eqb_refl.
        destruct (Ascii.eqb c zero) eqn:E.
        { apply Ascii.eqb_eq in E. contradiction. }
        apply IH. exact Ht.
      * destruct (Ascii.eqb d c) eqn:E.
        { apply Ascii.eqb_eq in E. congruence. }
        apply Z.eqb_neq. apply nat_of_ascii_neq. congruence.
Qed.

Lemma strncmp_http artwork :
  negb (String.length artwork =? 0)%nat && (strncmp artwork "http" 4 =? 0)
  = prefix "http" artwork.
Proof.
  change 4%nat with (String.length "http").
  rewrite (strncmp_prefix "http" artwork).
  - destruct artwork; reflexivity.
  - intros c Hc. cbn in Hc.
    repeat destruct Hc as [<-|Hc]; try discriminate. destruct Hc.
Qed.

(** ** The message builder *)

Lemma sent_sendMessage l msg :
  sent (snd (sendMessage l msg)) = sent l ++ handed l msg.
Proof.
  unfold sendMessage, new_nothrow, handed, allocates, tls_Send, frame.
  destruct (new_results l) as [|[|] rest]; cbn [hd negb];
    try (cbn [snd sent]; symmetry; apply app_nil_r);
    cbn [sent send_results new_results];
    destruct (send_results l) as [|r rs]; cbn [sent snd];
    destruct (_ =? _); reflexivity.
Qed.

Lemma sent_buildMessage l ns payload dest t :
  sent (buildMessage l ns payload dest t)
  = sent l ++ handed l (envelope ns payload dest t).
Proof. apply sent_sendMessage. Qed.

Ltac json_eq :=
  unfold get_status_json, launch_json, load_json, verb_json, seek_json,
    set_volume_json, media_content, media_metadata, content_url;
  unfold json_object; cbn [String.concat List.app];
  unfold json_member, json_string;
  repeat rewrite append_assoc; cbn [String.append]; reflexivity.

Lemma SFcompare_antisym a b :
  SFcompare b a = match SFcompare a b with
                  | Some c => Some (CompOpp c)
                  | None => None
                  end.
Proof.
  destruct a as [s1|s1| |s1 m1 e1], b as [s2|s2| |s2 m2 e2];
    try destruct s1; try destruct s2; try reflexivity;
    unfold SFcompare; rewrite (Z.compare_antisym e1 e2);
    destruct (e1 ?= e2); cbn [CompOpp]; try reflexivity;
    rewrite (Pos.compare_cont_antisym m1 m2 Eq);
    destruct (Pos.compare_cont Eq m1 m2); reflexivity.
Qed.

Lemma SFleb_not_SFltb a b : SFleb a b = true -> SFltb b a = false.
Proof.
  unfold SFleb, SFltb. rewrite (SFcompare_antisym a b).
  destruct (SFcompare a b) as [[ | | ]|]; cbn [CompOpp]; congruence.
Qed.

Lemma in_range_passes v :
  in_unit_range v -> SFltb v f32_zero || SFltb f32_one v = false.
Proof.
  intros [H0 H1]. rewrite (SFleb_not_SFltb f32_zero v H0).
  rewrite (SFleb_not_SFltb v f32_one H1). reflexivity.
Qed.

Section BuilderFacts.

Variable NAMESPACE_RECEIVER : string.
Variable NAMESPACE_MEDIA : string.
Variable DEFAULT_CHOMECAST_RECEIVER : string.
Variable APP_ID : string.
Variable show_float : spec_float -> string.

Local Abbreviation SetVolume := (msgPlayerSetVolume NAMESPACE_MEDIA show_float).

Ltac made :=
  unfold request_made; eexists _, _;
  split; [reflexivity|]; split; [reflexivity|]; split; [reflexivity|];
  rewrite sent_buildMessage; do 4 f_equal; json_eq.

Lemma receiver_get_status_made c l :
  request_made i_receiver_requestId i_requestId NAMESPACE_RECEIVER
    DEFAULT_CHOMECAST_RECEIVER get_status_json c l
    (msgReceiverGetStatus NAMESPACE_RECEIVER DEFAULT_CHOMECAST_RECEIVER c l).
Proof. unfold msgReceiverGetStatus. made. Qed.

Lemma receiver_launch_made c l :
  request_made i_receiver_requestId i_requestId NAMESPACE_RECEIVER
    DEFAULT_CHOMECAST_RECEIVER (launch_json APP_ID) c l
    (msgReceiverLaunchApp NAMESPACE_RECEIVER DEFAULT_CHOMECAST_RECEIVER APP_ID
                          c l).
Proof. unfold msgReceiverLaunchApp. made. Qed.

Lemma player_get_status_made c l dest :
  empty dest = false ->
  request_made i_requestId i_receiver_requestId NAMESPACE_MEDIA dest
    get_status_json c l (msgPlayerGetStatus NAMESPACE_MEDIA c l dest).
Proof.
  intros Hd. unfold msgPlayerGetStatus, pushMediaPlayerMessage. rewrite Hd.
  made.
Qed.

Lemma player_load_made c l dest port title artwork mime :
  empty dest = false ->
  request_made i_requestId i_receiver_requestId NAMESPACE_MEDIA dest
    (load_json (GetMedia c port title artwork mime)) c l
    (msgPlayerLoad NAMESPACE_MEDIA c l dest port title artwork mime).
Proof.
  intros Hd. unfold msgPlayerLoad, pushMediaPlayerMessage. rewrite Hd.
  generalize (GetMedia c port title artwork mime). intros media. made.
Qed.

Lemma player_verb_made verb c l dest msid :
  empty dest = false -> empty msid = false ->
  request_made i_requestId i_receiver_requestId NAMESPACE_MEDIA dest
    (verb_json verb msid) c l (player_verb NAMESPACE_MEDIA verb c l dest msid).
Proof.
  intros Hd Hm. unfold player_verb, pushMediaPlayerMessage. rewrite Hd, Hm.
  made.
Qed.

Lemma player_seek_made c l dest msid t :
  empty dest = false -> empty msid = false ->
  request_made i_requestId i_receiver_requestId NAMESPACE_MEDIA dest
    (seek_json t msid) c l (msgPlayerSeek NAMESPACE_MEDIA c l dest msid t).
Proof.
  intros Hd Hm. unfold msgPlayerSeek, pushMediaPlayerMessage. rewrite Hd, Hm.
  made.
Qed.

Lemma player_set_volume_made c l dest msid v mute :
  empty dest = false -> empty msid = false -> in_unit_range v ->
  request_made i_requestId i_receiver_requestId NAMESPACE_MEDIA dest
    (set_volume_json (show_float v) mute msid) c l
    (SetVolume c l dest msid v mute).
Proof.
  intros Hd Hm Hv. unfold msgPlayerSetVolume, pushMediaPlayerMessage.
  rewrite Hd, Hm, (in_range_passes v Hv). destruct mute; made.
Qed.

Lemma player_set_volume_dropped c l dest msid v mute :
  below_zero v \/ above_one v ->
  state_of (SetVolume c l dest msid v mute) = (c, l)
  /\ (empty msid = false -> SetVolume c l dest msid v mute = Finished (c, l)).
Proof.
  intros Hv. unfold msgPlayerSetVolume.
  assert (Hg : SFltb v f32_zero || SFltb f32_one v = true).
  { destruct Hv as [H|H]; unfold below_zero, above_one in H; rewrite H;
      [reflexivity | apply orb_true_r]. }
  rewrite Hg. destruct (empty msid); split; try reflexivity; discriminate.
Qed.

End BuilderFacts.

Lemma GetMedia_descriptor c port title artwork mime :
  GetMedia c port title artwork mime
  = String.append
      (if empty title then ""%string
       else media_metadata title
              (if prefix "http" artwork then Some artwork else None))
      (media_content (serverIp c) port mime).
Proof.
  unfold GetMedia. rewrite strncmp_http, <- empty_length.
  destruct (empty title); cbn [negb]; [json_eq|].
  destruct (prefix "http" artwork); json_eq.
Qed.

Section BuilderClaims.

Variable NAMESPACE_RECEIVER : string.
Variable NAMESPACE_MEDIA : string.
Variable DEFAULT_CHOMECAST_RECEIVER : string.
Variable APP_ID : string.
Variable show_float : spec_float -> string.

Local Abbreviation SetVolume := (msgPlayerSetVolume NAMESPACE_MEDIA show_float).
Local Abbreviation player_request :=
  (request_made i_requestId i_receiver_requestId NAMESPACE_MEDIA).
Local Abbreviation receiver_request :=
  (request_made i_receiver_requestId i_requestId NAMESPACE_RECEIVER
                DEFAULT_CHOMECAST_RECEIVER).

(** C5 (as amended).  Both request counters are 0 after construction.
    [msgReceiverGetStatus] and [msgReceiverLaunchApp] add exactly 1 to
    the receiver counter and leave the media-player counter alone.
    [msgPlayerGetStatus], [msgPlayerLoad], [msgPlayerPlay],
    [msgPlayerStop], [msgPlayerPause], [msgPlayerSeek], and
    [msgPlayerSetVolume] with a level within [0.0, 1.0], called with the
    non-empty identifiers they assert, add exactly 1 to the media-player
    counter and leave the receiver counter alone.  Each of these calls
    sends one message whose [requestId] is the value its counter had
    before the call. *)
Theorem request_counters c l :
  i_receiver_requestId ChromecastCommunication_new = 0
  /\ i_requestId ChromecastCommunication_new = 0
  /\ receiver_request get_status_json c l
       (msgReceiverGetStatus NAMESPACE_RECEIVER DEFAULT_CHOMECAST_RECEIVER c l)
  /\ receiver_request (launch_json APP_ID) c l
       (msgReceiverLaunchApp NAMESPACE_RECEIVER DEFAULT_CHOMECAST_RECEIVER
                             APP_ID c l)
  /\ forall dest, empty dest = false ->
       player_request dest get_status_json c l
         (msgPlayerGetStatus NAMESPACE_MEDIA c l dest)
       /\ (forall port title artwork mime,
             player_request dest
               (load_json (GetMedia c port title artwork mime)) c l
               (msgPlayerLoad NAMESPACE_MEDIA c l dest port title artwork mime))
       /\ forall msid, empty msid = false ->
            player_request dest (verb_json "PLAY" msid) c l
              (msgPlayerPlay NAMESPACE_MEDIA c l dest msid)
            /\ player_request dest (verb_json "STOP" msid) c l
                 (msgPlayerStop NAMESPACE_MEDIA c l dest msid)
            /\ player_request dest (verb_json "PAUSE" msid) c l
                 (msgPlayerPause NAMESPACE_MEDIA c l dest msid)
            /\ (forall t,
                  player_request dest (seek_json t msid) c l
                    (msgPlayerSeek NAMESPACE_MEDIA c l dest msid t))
            /\ (forall v mute, in_unit_range v ->
                  player_request dest
                    (set_volume_json (show_float v) mute msid) c l
                    (SetVolume c l dest msid v mute)).
Proof.
  split; [reflexivity|]. split; [reflexivity|].
  split; [apply receiver_get_status_made|].
  split; [apply receiver_launch_made|].
  intros dest Hd. split; [apply player_get_status_made; exact Hd|].
  split; [intros; apply player_load_made; exact Hd|].
  intros msid Hm.
  split; [apply player_verb_made; assumption|].
  split; [apply player_verb_made; assumption|].
  split; [apply player_verb_made; assumption|].
  split; [intros; apply player_seek_made; assumption|].
  intros v mute Hv. apply player_set_volume_made; assumption.
Qed.


(** C9.  A call of [msgPlayerSetVolume] whose level is below 0.0 or
    above 1.0 leaves the whole connection state as it was, the
    media-player request counter included: whatever is called next
    behaves as if the dropped call had not happened, and the next
    message of the media-player namespace carries the request id that
    it would have carried. *)
Theorem set_volume_drop_is_silent c l dest msid v mute :
  below_zero v \/ above_one v ->
  state_of (SetVolume c l dest msid v mute) = (c, l)
  /\ i_requestId (fst (state_of (SetVolume c l dest msid v mute)))
     = i_requestId c
  /\ (empty msid = false -> SetVolume c l dest msid v mute = Finished (c, l))
  /\ forall dest',
       msgPlayerGetStatus NAMESPACE_MEDIA
         (fst (state_of (SetVolume c l dest msid v mute)))
         (snd (state_of (SetVolume c l dest msid v mute))) dest'
       = msgPlayerGetStatus NAMESPACE_MEDIA c l dest'.
Proof.
  intros Hv.
  destruct (player_set_volume_dropped NAMESPACE_MEDIA show_float
              c l dest msid v mute Hv) as [E F].
  rewrite E. cbn [fst snd]. repeat split. exact F.
Qed.

(** C8 (as amended).  The media descriptor that [GetMedia] builds for
    [msgPlayerLoad] always ends with the content URL
    ["http://" + local IP + ":" + port + "/stream"], the stream type
    "LIVE" and the mime type.  It starts with a metadata block exactly
    when the title is not empty, and that block has an images entry
    with the artwork exactly when the artwork begins with the four
    characters "http".  [msgPlayerLoad] sends this descriptor as the
    [media] member of its LOAD message.  For the title "X", the artwork
    "http://img/a.png", the mime type "video/mp4", the port 8080 and the
    local IP "10.0.0.5" the content URL is "http://10.0.0.5:8080/stream"
    and the artwork is included. *)
Theorem load_media_descriptor c l dest port title artwork mime :
  GetMedia c port title artwork mime
  = String.append
      (if empty title then ""%string
       else media_metadata title
              (if prefix "http" artwork then Some artwork else None))
      (media_content (serverIp c) port mime)
  /\ (empty dest = false ->
        player_request dest (load_json (GetMedia c port title artwork mime))
          c l (msgPlayerLoad NAMESPACE_MEDIA c l dest port title artwork mime))
  /\ (serverIp c = "10.0.0.5"%string ->
        GetMedia c 8080 "X" "http://img/a.png" "video/mp4"
        = String.append (media_metadata "X" (Some "http://img/a.png"%string))
                        (media_content "10.0.0.5" 8080 "video/mp4")
        /\ content_url (serverIp c) 8080 = "http://10.0.0.5:8080/stream"%string
        /\ has_image (GetMedia c 8080 "X" "http://img/a.png" "video/mp4")
                     "http://img/a.png" = true).
Proof.
  split; [apply GetMedia_descriptor|].
  split; [intros Hd; apply player_load_made; exact Hd|].
  intros Hip. rewrite GetMedia_descriptor, Hip.
  split; [reflexivity|]. split; vm_compute; reflexivity.
Qed.

End BuilderClaims.

(** A SET_VOLUME request with the level 0.5 on the sample connection. *)
Lemma request_counters_witness :
  request_made i_requestId i_receiver_requestId sample_media_ns "app-1"
    (set_volume_json "0.5" true "1") sample_comm idle_link
    (msgPlayerSetVolume sample_media_ns sample_show sample_comm idle_link
                        "app-1" "1" f32_half true).
Proof.
  refine (proj2 (proj2 (proj2 (proj2 (proj2 (proj2 (proj2
            (proj2 (proj2 (proj2
               (request_counters sample_receiver_ns sample_media_ns
                  sample_receiver sample_app sample_show sample_comm
                  idle_link))))
            "app-1"%string _)) "1"%string _)))) f32_half true _).
  - reflexivity.
  - reflexivity.
  - split; reflexivity.
Defined.

(** C5 (as stated) does not hold for every call of
    [msgPlayerSetVolume]: with the level 2.0 the call returns without
    touching the media-player counter. *)
Lemma set_volume_out_of_range_keeps_counter :
  ~ exists c' l',
      msgPlayerSetVolume sample_media_ns sample_show sample_comm idle_link
                         "app-1" "1" f32_two false = Finished (c', l')
      /\ i_requestId c' = i_requestId sample_comm + 1.
Proof.
  intros (c' & l' & E & H). vm_compute in E.
  injection E as <- <-. vm_compute in H. discriminate H.
Qed.


(** The level -0.1 leaves the sample connection as it is. *)
Lemma set_volume_drop_is_silent_witness :
  state_of (msgPlayerSetVolume sample_media_ns sample_show sample_comm
                               idle_link "app-1" "1" f32_minus_tenth true)
  = (sample_comm, idle_link).
Proof.
  refine (proj1 (set_volume_drop_is_silent sample_media_ns sample_show
                   sample_comm idle_link "app-1" "1" f32_minus_tenth true _)).
  left. reflexivity.
Defined.

(** The example call: title "X", artwork "http://img/a.png", port
    8080, local address 10.0.0.5. *)
Lemma load_media_descriptor_witness :
  request_made i_requestId i_receiver_requestId sample_media_ns "app-1"
    (load_json (GetMedia sample_comm 8080 "X" "http://img/a.png" "video/mp4"))
    sample_comm idle_link
    (msgPlayerLoad sample_media_ns sample_comm idle_link "app-1" 8080 "X"
                   "http://img/a.png" "video/mp4")
  /\ content_url (serverIp sample_comm) 8080
     = "http://10.0.0.5:8080/stream"%string.
Proof.
  split.
  - refine (proj1 (proj2 (load_media_descriptor sample_media_ns sample_comm
                            idle_link "app-1" 8080 "X" "http://img/a.png"
                            "video/mp4")) _).
    reflexivity.
  - refine (proj1 (proj2 (proj2 (proj2 (load_media_descriptor sample_media_ns
                            sample_comm idle_link "app-1" 8080 "X"
                            "http://img/a.png" "video/mp4")) _))).
    reflexivity.
Defined.

(** C8 (as stated) does not hold in either direction.  An artwork that
    is an http URL is left out when the title is empty, and an artwork
    that merely begins with "http" is forwarded although it is no URL. *)
Lemma artwork_not_forwarded_iff_http_url :
  (is_http_url "http://img/a.png" = true
   /\ has_image (GetMedia sample_comm 8080 "" "http://img/a.png" "video/mp4")
                "http://img/a.png" = false)
  /\ (is_http_url "httpd.conf" = false
      /\ has_image (GetMedia sample_comm 8080 "X" "httpd.conf" "video/mp4")
                   "httpd.conf" = true).
Proof. repeat split; vm_compute; reflexivity. Qed.

(** ** Connection set-up *)

Lemma remove_handle_fresh h l : ~ In h l -> remove_handle h l = l.
Proof.
  induction l as [|x l IH]; intros Hn; [reflexivity|].
  cbn. destruct (x =? h) eqn:E.
  - exfalso. apply Hn. left. lia.
  - cbn. f_equal. apply IH. intros H. apply Hn. right. exact H.
Qed.

Lemma remove_handle_head h l : ~ In h l -> remove_handle h (h :: l) = l.
Proof.
  intros Hn. cbn. rewrite Z.eqb_refl. cbn. apply remove_handle_fresh, Hn.
Qed.

(** X11.  The failure paths that do unwind: a failed TCP connection, and
    a failure to create the TLS credentials or the TLS session, leave
    the resources of the process as they were before the call. *)
Lemma connect_failure_unwinds port e c r targetIP devicePort :
  fresh e r -> fails_elsewhere e ->
  connected (connect port e c r targetIP devicePort) = false
  /\ rsrc (connect port e c r targetIP devicePort) = r.
Proof.
  intros [Hfd Hcr] Hfail. unfold connect. cbn [i_sock_fd set_sock].
  destruct r as [socks creds sessions]. cbn [open_sockets live_creds] in *.
  destruct Hfail as [Hneg | (Hpos & Hrc & Hnull)].
  - destruct (env_ConnectTCP e <? 0) eqn:E; [|lia]. split; reflexivity.
  - destruct (env_ConnectTCP e <? 0) eqn:E; [lia|].
    destruct (env_GetSockAddress e) as [rc ip]. cbn [fst] in Hrc. subst rc.
    cbn [Z.eqb negb].
    unfold set_tls, set_creds, set_serverIp, set_sock, vlc_tls_Delete,
      net_Close.
    cbn [p_creds p_tls i_sock_fd serverIp i_receiver_requestId i_requestId
         open_sockets live_creds live_sessions].
    destruct (env_ClientCreate e) as [h|] eqn:Ec.
    + destruct Hnull as [Hnull|Hnull]; [discriminate|]. rewrite Hnull.
      cbn [connected rsrc open_sockets live_creds live_sessions].
      split; [reflexivity|].
      rewrite !remove_handle_head by auto. reflexivity.
    + cbn [connected rsrc]. split; [reflexivity|].
      rewrite remove_handle_head by auto. reflexivity.
Qed.

(** C1, at the path that leaves the claim unmet.  When the TCP
    connection is established and [net_GetSockAddress] fails, [connect]
    returns [false] without closing the socket: descriptor 7 is still
    open and still stored in [i_sock_fd]. *)
Theorem connect_local_address_failure_keeps_socket :
  let r := connect 8009 no_local_address ChromecastCommunication_new
                   no_resources "192.168.1.20" 0 in
  connected r = false
  /\ open_sockets (rsrc r) = [7]
  /\ i_sock_fd (comm r) = 7
  /\ p_tls (comm r) = None
  /\ peer r = ("192.168.1.20"%string, 8009).
Proof. cbv zeta. repeat split. Qed.

(** [disconnect] frees nothing when no session exists, so the socket
    above stays open for the rest of the object's life. *)
Lemma disconnect_without_session c r :
  p_tls c = None -> disconnect c r = (c, r).
Proof. intros H. unfold disconnect. rewrite H. reflexivity. Qed.

(** ** Reads and the packet buffer *)

Lemma blen_nonneg l : 0 <= blen l.
Proof. unfold blen. lia. Qed.

Lemma blen_app a b : blen (a ++ b) = blen a + blen b.
Proof. unfold blen. rewrite length_app. lia. Qed.

Lemma blen_firstn n l : 0 <= n <= blen l -> blen (firstn (Z.to_nat n) l) = n.
Proof. unfold blen. intros H. rewrite length_firstn. lia. Qed.

Lemma blen_skipn n l : 0 <= n <= blen l -> blen (skipn (Z.to_nat n) l) = blen l - n.
Proof. unfold blen. intros H. rewrite length_skipn. lia. Qed.

Lemma blen_nil l : blen l = 0 -> l = [].
Proof. unfold blen. destruct l; [reflexivity | cbn; lia]. Qed.

(** What one read can yield: a failure with nothing stored, or between
    0 and [len] bytes. *)
Lemma tls_Recv_bounds w len r bs w' :
  0 <= len -> tls_Recv w len = (r, bs, w') ->
  (r = -1 /\ bs = []) \/ (0 <= r <= len /\ blen bs = r).
Proof.
  intros Hlen H. unfold tls_Recv in H.
  destruct w as [|[chunk| | ] w0]; inversion H; subst; clear H.
  - right. split; [lia | reflexivity].
  - right. pose proof (blen_nonneg chunk).
    split; [lia|]. unfold blen in *. rewrite length_firstn. lia.
  - right. split; [lia | reflexivity].
  - left. split; reflexivity.
Qed.

Lemma store_length buf off bs :
  0 <= off -> off + blen bs <= blen buf -> blen (store buf off bs) = blen buf.
Proof.
  unfold store, blen. intros H0 H1.
  rewrite !length_app, length_firstn, length_skipn. lia.
Qed.

Lemma store_nil buf off : store buf off [] = buf.
Proof.
  unfold store. cbn [List.length app]. rewrite Nat.add_0_r.
  apply firstn_skipn.
Qed.

Lemma nth_firstn_lt (i n : nat) (l : list byte) :
  (i < n)%nat -> nth i (firstn n l) x00 = nth i l x00.
Proof.
  revert i l. induction n as [|n IH]; intros i l Hi; [lia|].
  destruct l as [|x l]; [destruct i; reflexivity|].
  destruct i as [|i]; [reflexivity|]. cbn. apply IH. lia.
Qed.

(** A write at or after the end of the header leaves the declared
    length as it is. *)
Lemma U32_AT_store buf off bs :
  PACKET_HEADER_LEN <= off <= blen buf ->
  U32_AT (store buf off bs) = U32_AT buf.
Proof.
  unfold PACKET_HEADER_LEN, blen. intros H. unfold U32_AT, store.
  assert (E : forall i, (i < 4)%nat ->
            nth i (firstn (Z.to_nat off) buf
                   ++ bs ++ skipn (Z.to_nat off + List.length bs) buf) x00
            = nth i buf x00).
  { intros i Hi. rewrite app_nth1 by (rewrite length_firstn; lia).
    apply nth_firstn_lt. lia. }
  rewrite !E by lia. reflexivity.
Qed.

Lemma u32_wrap x :
  0 <= x < 2 ^ 33 ->
  (x < 2 ^ 32 /\ u32 x = x) \/ (2 ^ 32 <= x /\ u32 x = x - 2 ^ 32).
Proof.
  intros H. unfold u32. change (2 ^ 33) with (2 * 2 ^ 32) in H.
  destruct (Z_lt_ge_dec x (2 ^ 32)) as [Hlt|Hge].
  - left. split; [exact Hlt|]. apply Z.mod_small. lia.
  - right. split; [lia|].
    replace x with ((x - 2 ^ 32) + 1 * 2 ^ 32) at 1 by lia.
    rewrite Z.mod_add by lia. apply Z.mod_small. lia.
Qed.

(** ** Memory safety of one invocation *)

Section ReceiverSafety.

Variable PACKET_MAX_LEN : Z.
Variable PING_WAIT_TIME : Z.
Variable PING_WAIT_RETRIES : Z.
Hypothesis cap_range : PACKET_HEADER_LEN <= PACKET_MAX_LEN < 2 ^ 31.

Local Abbreviation recvPacket' :=
  (recvPacket PACKET_MAX_LEN PING_WAIT_TIME PING_WAIT_RETRIES).
Local Abbreviation maxPayload := (i_maxPayloadSize PACKET_MAX_LEN).
Local Abbreviation ok := (request_ok PACKET_MAX_LEN).

Lemma maxPayload_eq : maxPayload = PACKET_MAX_LEN - PACKET_HEADER_LEN.
Proof.
  unfold i_maxPayloadSize, PACKET_HEADER_LEN in *.
  apply u32_small. change (2 ^ 32) with 4294967296.
  change (2 ^ 31) with 2147483648 in cap_range. lia.
Qed.

Lemma recv_header_safe fuel : forall rcv buf w tr,
  blen buf = PACKET_MAX_LEN -> 0 <= rcv < 2 ^ 32 ->
  (rcv < PACKET_HEADER_LEN -> PACKET_HEADER_LEN - rcv <= Z.of_nat fuel) ->
  Forall (header_ok PACKET_MAX_LEN) tr ->
  header_safe PACKET_MAX_LEN rcv buf (recv_header fuel rcv buf w tr).
Proof.
  unfold PACKET_HEADER_LEN in *.
  change (2 ^ 31) with 2147483648 in cap_range.
  induction fuel as [|fuel IH]; intros rcv buf w tr Hbuf Hrcv Hfuel Htr;
    cbn [recv_header]; unfold PACKET_HEADER_LEN;
    destruct (rcv <? 4) eqn:Hlt.
  - lia.
  - cbn [header_safe]. unfold PACKET_HEADER_LEN.
    repeat split; try assumption. right. repeat split. lia.
  - assert (Hlen : u32 (4 - rcv) = 4 - rcv).
    { apply u32_small. change (2 ^ 32) with 4294967296. lia. }
    rewrite Hlen.
    destruct (tls_Recv w (4 - rcv)) as [[r bs] w'] eqn:Hread.
    apply tls_Recv_bounds in Hread; [|lia].
    assert (Hint : to_int r = r).
    { apply to_int_small. change (2 ^ 31) with 2147483648. lia. }
    rewrite Hint.
    assert (Hok : Forall (header_ok PACKET_MAX_LEN) (tr ++ [mkReq HeaderRead rcv (4 - rcv)])).
    { apply Forall_app. split; [exact Htr|]. constructor; [|constructor].
      intros size. unfold request_ok, PACKET_HEADER_LEN. cbn [r_off r_len r_site]. lia. }
    destruct (r <=? 0) eqn:Hr.
    + cbn [header_safe]. unfold PACKET_HEADER_LEN.
      repeat split; try assumption; lia.
    + destruct Hread as [[Hneg _]|[Hrng Hbs]]; [lia|].
      assert (Hsum : u32 (rcv + r) = rcv + r).
      { apply u32_small. change (2 ^ 32) with 4294967296. lia. }
      rewrite Hsum.
      specialize (IH (rcv + r) (store buf rcv bs) w'
                     (tr ++ [mkReq HeaderRead rcv (4 - rcv)])).
      assert (Hst : blen (store buf rcv bs) = PACKET_MAX_LEN).
      { rewrite store_length; [exact Hbuf | lia | lia]. }
      specialize (IH Hst).
      assert (Hr2 : 0 <= rcv + r < 2 ^ 32)
        by (change (2 ^ 32) with 4294967296; lia).
      specialize (IH Hr2).
      assert (Hf2 : rcv + r < 4 -> 4 - (rcv + r) <= Z.of_nat fuel) by lia.
      specialize (IH Hf2 Hok).
      destruct (recv_header fuel (rcv + r) (store buf rcv bs) w' _)
        as [rcv' buf' w'' tr'|i rcv' buf' w'' tr'|];
        cbn [header_safe] in IH |- *; unfold PACKET_HEADER_LEN in IH |- *.
      * destruct IH as (Hb & Ht & Hc). repeat split; try assumption.
        left. split; [lia|]. lia.
      * exact IH.
      * exact IH.
  - cbn [header_safe]. unfold PACKET_HEADER_LEN.
    repeat split; try assumption. right. repeat split. lia.
Qed.

Lemma recv_payload_safe p s size rcv buf w tr l :
  blen buf = PACKET_MAX_LEN -> size = U32_AT buf -> size <= maxPayload ->
  PACKET_HEADER_LEN <= rcv -> rcv - PACKET_HEADER_LEN <= size ->
  Forall (ok size) tr ->
  invocation_safe PACKET_MAX_LEN (recv_payload p s size rcv buf w tr l).
Proof.
  intros Hbuf Hsize Hmax Hrcv Hle Htr. rewrite maxPayload_eq in Hmax.
  pose proof (U32_AT_range buf) as Hu. rewrite <- Hsize in Hu.
  unfold PACKET_HEADER_LEN in *.
  change (2 ^ 31) with 2147483648 in cap_range.
  change (2 ^ 32) with 4294967296 in Hu.
  unfold recv_payload, PACKET_HEADER_LEN.
  assert (E1 : u32 (rcv - 4) = rcv - 4)
    by (apply u32_small; change (2 ^ 32) with 4294967296; lia).
  assert (E2 : u32 (size - (rcv - 4)) = size - (rcv - 4))
    by (apply u32_small; change (2 ^ 32) with 4294967296; lia).
  assert (E3 : u32 (size + 4) = size + 4)
    by (apply u32_small; change (2 ^ 32) with 4294967296; lia).
  rewrite E1, E2, E3.
  destruct (tls_Recv w (size - (rcv - 4))) as [[r bs] w'] eqn:Hread.
  apply tls_Recv_bounds in Hread; [|lia].
  assert (Hint : to_int r = r)
    by (apply to_int_small; change (2 ^ 31) with 2147483648; lia).
  rewrite Hint.
  assert (Hbs : blen bs <= size - (rcv - 4) /\ 0 <= blen bs).
  { pose proof (blen_nonneg bs).
    destruct Hread as [[_ ->]|[? ?]]; [cbn; lia | lia]. }
  assert (Hst : blen (store buf rcv bs) = PACKET_MAX_LEN)
    by (rewrite store_length; lia).
  assert (Hhd : U32_AT (store buf rcv bs) = size)
    by (rewrite U32_AT_store; unfold PACKET_HEADER_LEN; lia).
  assert (Hok : Forall (ok size)
                  (tr ++ [mkReq PayloadRead rcv (size - (rcv - 4))])).
  { apply Forall_app. split; [exact Htr|]. constructor; [|constructor].
    unfold request_ok, PACKET_HEADER_LEN. cbn [r_off r_len r_site]. lia. }
  assert (E4 : r <= 0 \/ u32 (rcv + r) = rcv + r).
  { destruct (Z_le_gt_dec r 0); [left; assumption|right].
    apply u32_small. change (2 ^ 32) with 4294967296. lia. }
  unfold invocation_safe, consistent, PACKET_HEADER_LEN.
  destruct (r <=? 0) eqn:Hr; [|destruct E4 as [?|E4]; [lia|]; rewrite E4;
    destruct (rcv + r <? size + 4) eqn:Hlt;
      [|destruct (rcv + r =? size + 4) eqn:Heq; [|lia]]];
    cbn [res st reads set_frame i_payloadSize p_data pi_received];
    rewrite ?Hhd; change (2 ^ 32) with 4294967296;
    repeat split; try discriminate; try assumption; try lia.
Qed.

Lemma recv_drain_safe s size rcv buf w tr l :
  blen buf = PACKET_MAX_LEN -> size = U32_AT buf ->
  PACKET_HEADER_LEN <= rcv < 2 ^ 32 -> rcv - PACKET_HEADER_LEN <= size ->
  Forall (ok size) tr ->
  invocation_safe PACKET_MAX_LEN (recv_drain PACKET_MAX_LEN s size rcv buf w tr l).
Proof.
  intros Hbuf Hsize Hrcv Hle Htr.
  pose proof (U32_AT_range buf) as Hu. rewrite <- Hsize in Hu.
  pose proof maxPayload_eq as Hmp.
  unfold PACKET_HEADER_LEN in *.
  change (2 ^ 31) with 2147483648 in cap_range.
  change (2 ^ 32) with 4294967296 in Hu, Hrcv.
  unfold recv_drain, PACKET_HEADER_LEN. rewrite Hmp.
  assert (E1 : u32 (rcv - 4) = rcv - 4)
    by (apply u32_small; change (2 ^ 32) with 4294967296; lia).
  assert (E2 : u32 (size - (rcv - 4)) = size - (rcv - 4))
    by (apply u32_small; change (2 ^ 32) with 4294967296; lia).
  rewrite E1, E2.
  set (i_size := if PACKET_MAX_LEN - 4 <? size - (rcv - 4)
                 then PACKET_MAX_LEN - 4 else size - (rcv - 4)).
  assert (Hsz : 0 <= i_size <= PACKET_MAX_LEN - 4
                /\ i_size <= size - (rcv - 4)).
  { unfold i_size. destruct (_ <? _) eqn:E; lia. }
  destruct (tls_Recv w i_size) as [[r bs] w'] eqn:Hread.
  apply tls_Recv_bounds in Hread; [|lia].
  assert (Hint : to_int r = r)
    by (apply to_int_small; change (2 ^ 31) with 2147483648; lia).
  rewrite Hint.
  assert (Hbs : blen bs <= i_size /\ 0 <= blen bs).
  { pose proof (blen_nonneg bs).
    destruct Hread as [[_ ->]|[? ?]]; [cbn; lia | lia]. }
  assert (Hst : blen (store buf 4 bs) = PACKET_MAX_LEN)
    by (rewrite store_length; lia).
  assert (Hhd : U32_AT (store buf 4 bs) = size)
    by (rewrite U32_AT_store; unfold PACKET_HEADER_LEN; lia).
  assert (Hok : Forall (ok size) (tr ++ [mkReq DrainRead 4 i_size])).
  { apply Forall_app. split; [exact Htr|]. constructor; [|constructor].
    unfold request_ok, PACKET_HEADER_LEN. cbn [r_off r_len r_site]. lia. }
  pose proof (u32_range (rcv + r)) as Hur.
  change (2 ^ 32) with 4294967296 in Hur.
  assert (Hw : r <= 0 \/ u32 (rcv + r) <= rcv + r).
  { destruct (Z_le_gt_dec r 0); [left; assumption|right].
    destruct (u32_wrap (rcv + r)) as [[_ ->]|[_ ->]];
      change (2 ^ 33) with 8589934592; change (2 ^ 32) with 4294967296; lia. }
  unfold invocation_safe, consistent, PACKET_HEADER_LEN.
  destruct (r <=? 0) eqn:Hr; [|destruct Hw as [?|Hw]; [lia|];
    destruct (u32 (rcv + r) <? u32 (size + 4)) eqn:Hlt];
    cbn [res st reads set_frame i_payloadSize p_data pi_received];
    rewrite ?Hhd; change (2 ^ 32) with 4294967296;
    repeat split; try discriminate; try assumption; try lia.
Qed.

Lemma consistent_set_keepalive s t d r :
  consistent PACKET_MAX_LEN s ->
  consistent PACKET_MAX_LEN (set_keepalive s t d r).
Proof. intros H. exact H. Qed.

(** C10.  When the accumulator is consistent on entry, the packet
    buffer has [PACKET_MAX_LEN] bytes and a read stores no more than it
    was asked for, every read that the invocation requests lies inside
    the buffer: a header read ends at [PACKET_HEADER_LEN], a payload
    read ends at [PACKET_HEADER_LEN] plus the declared length, which is
    at most [PACKET_MAX_LEN], and a drain read starts at
    [PACKET_HEADER_LEN] and asks for at most the maximum payload size.
    The assertion at the completion of a message holds, the header loop
    ends, and the accumulator is consistent again on exit. *)
Theorem recvPacket_in_bounds p s w :
  consistent PACKET_MAX_LEN s ->
  res (recvPacket' p s w) <> AssertFailed
  /\ res (recvPacket' p s w) <> OutOfFuel
  /\ Forall (request_ok PACKET_MAX_LEN (i_payloadSize (st (recvPacket' p s w))))
            (reads (recvPacket' p s w))
  /\ consistent PACKET_MAX_LEN (st (recvPacket' p s w)).
Proof.
  intros Hc. change (invocation_safe PACKET_MAX_LEN (recvPacket' p s w)).
  unfold recvPacket.
  destruct (keepalive PING_WAIT_TIME PING_WAIT_RETRIES p s)
    as [i l|s1 l] eqn:Hka.
  { unfold invocation_safe. cbn. repeat split; try discriminate;
      try constructor; apply Hc. }
  assert (Hc1 : consistent PACKET_MAX_LEN s1).
  { unfold keepalive in Hka.
    repeat match type of Hka with
           | (if ?b then _ else _) = _ => destruct b
           end; inversion Hka; subst; apply consistent_set_keepalive, Hc. }
  clear Hka Hc s. destruct Hc1 as (Hbuf & Hrcv & Hhdr).
  destruct (revents_POLLIN p).
  2: { unfold invocation_safe, consistent. cbn.
       repeat split; try discriminate; try constructor; try assumption;
         try lia. }
  pose proof (recv_header_safe (Z.to_nat PACKET_HEADER_LEN) (pi_received s1)
                (p_data s1) w [] Hbuf Hrcv) as Hh.
  assert (Hfuel : pi_received s1 < PACKET_HEADER_LEN ->
                  PACKET_HEADER_LEN - pi_received s1
                  <= Z.of_nat (Z.to_nat PACKET_HEADER_LEN))
    by (unfold PACKET_HEADER_LEN; lia).
  specialize (Hh Hfuel (Forall_nil _)).
  destruct (recv_header _ _ _ _ _) as [rcv buf w' tr|i rcv buf w' tr|];
    cbn [header_safe] in Hh; [ | | contradiction ].
  - destruct Hh as (Hb & Htr & Hcase).
    assert (Htr' : Forall (ok (U32_AT buf)) tr).
    { revert Htr. apply Forall_impl. intros q Hq. apply Hq. }
    assert (Hpos : PACKET_HEADER_LEN <= rcv < 2 ^ 32
                   /\ rcv - PACKET_HEADER_LEN <= U32_AT buf).
    { pose proof (U32_AT_range buf).
      destruct Hcase as [[_ ->]|(Hge & -> & ->)];
        unfold PACKET_HEADER_LEN in *; lia. }
    destruct (maxPayload <? U32_AT buf) eqn:Hbig.
    + apply recv_drain_safe; try assumption; try reflexivity; apply Hpos.
    + apply recv_payload_safe; try assumption; try reflexivity;
        try apply Hpos. lia.
  - destruct Hh as (Hi & Hb & Htr & Hr).
    unfold invocation_safe, consistent, PACKET_HEADER_LEN in *.
    cbn [res st reads set_frame i_payloadSize p_data pi_received].
    repeat split; try discriminate; try assumption; try lia.
    revert Htr. apply Forall_impl. intros q Hq. apply Hq.
Qed.

End ReceiverSafety.

(** ** Reads on a script that delivers given bytes *)

Lemma firstn_plus {A : Type} (a b : nat) (l : list A) :
  firstn (a + b) l = firstn a l ++ firstn b (skipn a l).
Proof.
  revert l. induction a as [|a IH]; intros l; [reflexivity|].
  destruct l as [|x l]; cbn; [rewrite firstn_nil; reflexivity|].
  rewrite IH. reflexivity.
Qed.

Lemma skipn_plus {A : Type} (a b : nat) (l : list A) :
  skipn (a + b) l = skipn b (skipn a l).
Proof.
  revert l. induction a as [|a IH]; intros l; [reflexivity|].
  destruct l as [|x l]; cbn; [rewrite skipn_nil; reflexivity|]. apply IH.
Qed.

Lemma delivers_tail e w D :
  match e with Data _ => False | _ => True end ->
  delivers (e :: w) D -> delivers w D.
Proof.
  intros He [Hd Hf]. inversion Hf; subst.
  split; [|assumption]. destruct e; [contradiction | reflexivity | reflexivity].
Qed.

(** A read of [len > 0] bytes, all of which are still to come: it fails
    and stores nothing, or it yields the next [m <= len] bytes.  The
    script gets shorter unless the read was served in full from a chunk
    that has more. *)
Lemma tls_Recv_delivers w D (len : nat) r bs w' :
  delivers w D -> (0 < len <= List.length D)%nat ->
  tls_Recv w (Z.of_nat len) = (r, bs, w') ->
  ((r = 0 \/ r = -1) /\ bs = [] /\ delivers w' D
   /\ (List.length w' < List.length w)%nat)
  \/ exists m : nat,
       r = Z.of_nat m /\ (0 < m <= len)%nat /\ bs = firstn m D
       /\ delivers w' (skipn m D)
       /\ (List.length w' <= List.length w)%nat
       /\ ((m < len)%nat -> (List.length w' < List.length w)%nat).
Proof.
  intros Hdel Hlen Hread.
  destruct w as [|e w0].
  { destruct Hdel as [Hd _]. cbn in Hd. subst D. cbn in Hlen. lia. }
  destruct e as [c| | ].
  - right. destruct Hdel as [Hd Hf]. inversion Hf as [|? ? Hc Hf0]; subst.
    cbn [nonempty_chunk] in Hc. cbn [data_of] in *.
    assert (Hcl : (0 < List.length c)%nat)
      by (destruct c; [contradiction | cbn; lia]).
    unfold tls_Recv, blen in Hread.
    rewrite <- Nat2Z.inj_min, Nat2Z.id in Hread.
    set (m := Nat.min len (List.length c)) in *.
    assert (Hm : (0 < m <= len /\ m <= List.length c)%nat) by (unfold m; lia).
    exists m. inversion Hread; subst r bs w'; clear Hread.
    split; [reflexivity|]. split; [lia|].
    split; [rewrite firstn_app; replace (m - List.length c)%nat with 0%nat by lia;
            cbn; rewrite app_nil_r; reflexivity|].
    assert (Hsk : skipn m (c ++ data_of w0) = skipn m c ++ data_of w0).
    { rewrite skipn_app. replace (m - List.length c)%nat with 0%nat by lia.
      reflexivity. }
    destruct (Z.of_nat m <? Z.of_nat (List.length c)) eqn:E.
    + split; [split|].
      * cbn [data_of]. symmetry. exact Hsk.
      * constructor; [|exact Hf0]. cbn. intros Hnil.
        apply (f_equal (@List.length byte)) in Hnil.
        rewrite length_skipn in Hnil. cbn in Hnil. lia.
      * cbn [List.length]. split; [lia|]. intros Hlt.
        apply Z.ltb_lt in E. exfalso. clear Hsk. subst m.
        destruct (Nat.min_spec len (List.length c)) as [[? Hmin]|[? Hmin]];
          rewrite Hmin in *; lia.
    + split; [split|].
      * rewrite Hsk. rewrite skipn_all2 by lia. reflexivity.
      * exact Hf0.
      * cbn [List.length]. split; lia.
  - left. inversion Hread; subst. split; [left; reflexivity|].
    split; [reflexivity|]. split; [|cbn; lia].
    apply (delivers_tail Eof); [exact I | exact Hdel].
  - left. inversion Hread; subst. split; [right; reflexivity|].
    split; [reflexivity|]. split; [|cbn; lia].
    apply (delivers_tail Err); [exact I | exact Hdel].
Qed.

(** The bytes stored so far are the beginning of the frame, and stay so
    when the next bytes of the frame are stored behind them. *)
Lemma store_extends (F buf : list byte) (k m : nat) :
  (k + m <= List.length buf)%nat ->
  (k + m <= List.length F)%nat ->
  firstn k buf = firstn k F ->
  firstn (k + m) (store buf (Z.of_nat k) (firstn m (skipn k F)))
  = firstn (k + m) F.
Proof.
  intros Hb HF Hpre. unfold store. rewrite Nat2Z.id.
  assert (Hl : List.length (firstn m (skipn k F)) = m)
    by (rewrite length_firstn, length_skipn; lia).
  rewrite app_assoc, firstn_app.
  rewrite length_app, length_firstn, Hl.
  replace (k + m - (Nat.min k (List.length buf) + m))%nat with 0%nat by lia.
  cbn [firstn]. rewrite app_nil_r.
  rewrite firstn_all2 by (rewrite length_app, length_firstn, Hl; lia).
  rewrite Hpre. symmetry. apply firstn_plus.
Qed.

(** ** Reassembly of a packet that fits the buffer *)

Ltac conjs :=
  repeat match goal with |- _ /\ _ => split end;
  try assumption; try reflexivity; try lia.

Lemma U32_AT_firstn (k : nat) buf :
  (4 <= k)%nat -> U32_AT (firstn k buf) = U32_AT buf.
Proof.
  intros Hk. unfold U32_AT. rewrite !nth_firstn_lt by lia. reflexivity.
Qed.

Lemma packet_length body : List.length (packet body) = (4 + List.length body)%nat.
Proof. unfold packet. rewrite length_app. reflexivity. Qed.

Lemma packet_body body : skipn 4 (packet body) = body.
Proof. reflexivity. Qed.

Lemma prefix_header (k : nat) (buf G : list byte) :
  (4 <= k)%nat -> firstn k buf = firstn k G -> firstn 4 buf = firstn 4 G.
Proof.
  intros Hk Hpre. replace 4%nat with (Nat.min 4 k) by lia.
  rewrite <- !firstn_firstn, Hpre. reflexivity.
Qed.

Lemma prefix_min (k : nat) (buf G : list byte) :
  firstn k buf = firstn k G ->
  firstn (Nat.min k 4) buf = firstn (Nat.min k 4) G.
Proof.
  intros Hpre. rewrite Nat.min_comm, <- !firstn_firstn, Hpre. reflexivity.
Qed.

Section PacketHeader.

Variable PACKET_MAX_LEN : Z.
Hypothesis cap_range : PACKET_HEADER_LEN <= PACKET_MAX_LEN < 2 ^ 31.

Variable body : list byte.
Hypothesis body_nonempty : (1 <= List.length body)%nat.

Local Abbreviation F := (packet body).

Lemma declared_length buf :
  blen body < 2 ^ 32 -> firstn 4 buf = firstn 4 F -> U32_AT buf = blen body.
Proof using Type.
  clear cap_range body_nonempty.
  intros Hlt Hpre. rewrite <- (U32_AT_firstn 4 buf) by lia. rewrite Hpre.
  rewrite U32_AT_firstn by lia. unfold packet.
  rewrite U32_AT_SetDWBE. apply u32_small.
  pose proof (blen_nonneg body). lia.
Qed.

Lemma recv_header_assembling fuel : forall (k : nat) buf w tr,
  (k < List.length F)%nat -> blen buf = PACKET_MAX_LEN ->
  firstn (Nat.min k 4) buf = firstn (Nat.min k 4) F ->
  delivers w (skipn k F) ->
  ((k < 4)%nat -> (4 - k <= fuel)%nat) ->
  header_assembling PACKET_MAX_LEN body k buf w (recv_header fuel (Z.of_nat k) buf w tr).
Proof.
  assert (Hc1 : PACKET_MAX_LEN < 2147483648 /\ 4 <= PACKET_MAX_LEN).
  { unfold PACKET_HEADER_LEN in cap_range.
    change (2 ^ 31) with 2147483648 in cap_range. lia. }
  pose proof (packet_length body) as HFl.
  induction fuel as [|fuel IH]; intros k buf w tr Hk Hbuf Hpre Hdel Hfuel;
    cbn [recv_header]; unfold PACKET_HEADER_LEN;
    destruct (Z.of_nat k <? 4) eqn:Hlt.
  - lia.
  - apply Z.ltb_ge in Hlt. cbn [header_assembling]. exists k.
    replace (Nat.min k 4) with 4%nat in Hpre by lia. conjs.
    all: try (right; conjs).
  - apply Z.ltb_lt in Hlt.
    replace (Nat.min k 4) with k in Hpre by lia.
    assert (Hlen : u32 (4 - Z.of_nat k) = Z.of_nat (4 - k)).
    { rewrite u32_small; change (2 ^ 32) with 4294967296; lia. }
    rewrite Hlen. clear Hlen.
    destruct (tls_Recv w (Z.of_nat (4 - k))) as [[r bs] w'] eqn:Hread.
    eapply tls_Recv_delivers in Hread; [ | exact Hdel | ].
    2: { rewrite length_skipn, HFl. lia. }
    destruct Hread as [(Hr & -> & Hdel' & Hsh)
                      |(m & -> & Hm & -> & Hdel' & Hle & Hsh)].
    + assert (Hint : to_int r = r)
        by (apply to_int_small; change (2 ^ 31) with 2147483648; lia).
      rewrite Hint. clear Hint. destruct (r <=? 0) eqn:Hr0; [|lia].
      cbn [header_assembling]. split; [exact Hr|].
      exists k. conjs.
    + assert (Hint : to_int (Z.of_nat m) = Z.of_nat m)
        by (apply to_int_small; change (2 ^ 31) with 2147483648; lia).
      rewrite Hint. clear Hint.
      destruct (Z.of_nat m <=? 0) eqn:Hr0; [lia|].
      assert (Hsum : u32 (Z.of_nat k + Z.of_nat m) = Z.of_nat (k + m)).
      { rewrite u32_small; change (2 ^ 32) with 4294967296; lia. }
      rewrite Hsum. clear Hsum.
      specialize (IH (k + m)%nat
                     (store buf (Z.of_nat k) (firstn m (skipn k F))) w'
                     (tr ++ [mkReq HeaderRead (Z.of_nat k) (Z.of_nat (4 - k))])).
      assert (Hl : blen (firstn m (skipn k F)) = Z.of_nat m).
      { unfold blen. rewrite length_firstn, length_skipn, HFl. lia. }
      assert (H1 : (k + m < List.length F)%nat) by (rewrite HFl; lia).
      assert (H2 : blen (store buf (Z.of_nat k) (firstn m (skipn k F)))
                   = PACKET_MAX_LEN).
      { rewrite store_length; [exact Hbuf | lia | lia]. }
      assert (H3 : firstn (Nat.min (k + m) 4)
                     (store buf (Z.of_nat k) (firstn m (skipn k F)))
                   = firstn (Nat.min (k + m) 4) F).
      { replace (Nat.min (k + m) 4) with (k + m)%nat by lia.
        apply store_extends; [unfold blen in Hbuf; lia | lia | exact Hpre]. }
      assert (H4 : delivers w' (skipn (k + m) F))
        by (rewrite skipn_plus; exact Hdel').
      assert (H5 : (k + m < 4)%nat -> (4 - (k + m) <= fuel)%nat) by lia.
      specialize (IH H1 H2 H3 H4 H5).
      destruct (recv_header fuel _ _ w' _)
        as [rcv' buf' w'' tr'|i rcv' buf' w'' tr'|];
        cbn [header_assembling] in IH |- *.
      * destruct IH as (k' & ? & ? & ? & ? & ? & ? & Hcase).
        exists k'. conjs.
        all: try (left; destruct Hcase as [?|(? & ? & ?)]; lia).
      * destruct IH as (Hi & k' & ? & ? & ? & ? & ? & ?).
        split; [exact Hi|]. exists k'. conjs.
      * exact IH.
  - apply Z.ltb_ge in Hlt. cbn [header_assembling]. exists k.
    replace (Nat.min k 4) with 4%nat in Hpre by lia. conjs.
    all: try (right; conjs).
Qed.

End PacketHeader.

Section Reassembly.

Variable PACKET_MAX_LEN : Z.
Variable PING_WAIT_TIME : Z.
Variable PING_WAIT_RETRIES : Z.
Hypothesis cap_range : PACKET_HEADER_LEN <= PACKET_MAX_LEN < 2 ^ 31.

Variable body : list byte.
Hypothesis body_range :
  1 <= blen body <= i_maxPayloadSize PACKET_MAX_LEN.

Local Abbreviation recvPacket' :=
  (recvPacket PACKET_MAX_LEN PING_WAIT_TIME PING_WAIT_RETRIES).
Local Abbreviation F := (packet body).

Lemma body_fits :
  (1 <= List.length body)%nat
  /\ Z.of_nat (List.length F) <= PACKET_MAX_LEN
  /\ PACKET_MAX_LEN < 2147483648 /\ 4 <= PACKET_MAX_LEN.
Proof.
  pose proof (maxPayload_eq PACKET_MAX_LEN cap_range) as E.
  rewrite E in body_range. rewrite packet_length.
  unfold blen, PACKET_HEADER_LEN in *.
  change (2 ^ 31) with 2147483648 in cap_range. lia.
Qed.

Lemma declared_fit (k : nat) buf :
  (4 <= k)%nat -> firstn k buf = firstn k F -> U32_AT buf = blen body.
Proof.
  intros Hk Hpre. destruct body_fits as (? & HF & ? & ?).
  rewrite packet_length in HF.
  assert (Hlt : blen body < 2 ^ 32)
    by (unfold blen; change (2 ^ 32) with 4294967296; lia).
  exact (declared_length body buf Hlt (prefix_header k buf F Hk Hpre)).
Qed.

Lemma recv_payload_assembling p s (k : nat) buf w tr l :
  0 < val p -> b_msgReceived s = false ->
  (4 <= k < List.length F)%nat -> blen buf = PACKET_MAX_LEN ->
  firstn k buf = firstn k F -> delivers w (skipn k F) ->
  advances PACKET_MAX_LEN body w (recv_payload p s (U32_AT buf) (Z.of_nat k) buf w tr l).
Proof.
  intros Hval Hrcvd Hk Hbuf Hpre Hdel.
  destruct body_fits as (Hb1 & HF & Hc1 & Hc2).
  pose proof (packet_length body) as HFl. rewrite HFl in HF, Hk.
  rewrite (declared_fit k buf) by (try exact Hpre; lia).
  unfold recv_payload, PACKET_HEADER_LEN, blen.
  remember (List.length body) as n eqn:Hn in *.
  assert (E1 : u32 (Z.of_nat k - 4) = Z.of_nat k - 4)
    by (apply u32_small; change (2 ^ 32) with 4294967296; lia).
  assert (E2 : u32 (Z.of_nat n - (Z.of_nat k - 4)) = Z.of_nat (4 + n - k))
    by (rewrite u32_small; change (2 ^ 32) with 4294967296; lia).
  assert (E3 : u32 (Z.of_nat n + 4) = Z.of_nat n + 4)
    by (apply u32_small; change (2 ^ 32) with 4294967296; lia).
  rewrite E1, E2, E3. clear E1 E2 E3.
  destruct (tls_Recv w (Z.of_nat (4 + n - k))) as [[r bs] w'] eqn:Hread.
  eapply tls_Recv_delivers in Hread; [ | exact Hdel | ].
  2: { rewrite length_skipn, HFl. lia. }
  destruct Hread as [(Hr & -> & Hdel' & Hsh)
                    |(m & -> & Hm & -> & Hdel' & Hle & Hsh)].
  - assert (Hint : to_int r = r)
      by (apply to_int_small; change (2 ^ 31) with 2147483648; lia).
    rewrite Hint. clear Hint. destruct (r <=? 0) eqn:Hr0; [|lia].
    left. exists k. cbn [st script]. split; [|exact Hsh].
    unfold assembling, set_frame.
    cbn [pi_received p_data b_msgReceived]. rewrite store_nil, HFl.
    conjs.
  - assert (Hint : to_int (Z.of_nat m) = Z.of_nat m)
      by (apply to_int_small; change (2 ^ 31) with 2147483648; lia).
    rewrite Hint. clear Hint. destruct (Z.of_nat m <=? 0) eqn:Hr0; [lia|].
    assert (Hsum : u32 (Z.of_nat k + Z.of_nat m) = Z.of_nat (k + m))
      by (rewrite u32_small; change (2 ^ 32) with 4294967296; lia).
    rewrite Hsum. clear Hsum.
    assert (Hl : blen (firstn m (skipn k F)) = Z.of_nat m).
    { unfold blen. rewrite length_firstn, length_skipn, HFl. lia. }
    assert (H2 : blen (store buf (Z.of_nat k) (firstn m (skipn k F)))
                 = PACKET_MAX_LEN)
      by (rewrite store_length; [exact Hbuf | lia | lia]).
    assert (H3 : firstn (k + m)
                   (store buf (Z.of_nat k) (firstn m (skipn k F)))
                 = firstn (k + m) F).
    { apply store_extends; [unfold blen in Hbuf; lia | lia | exact Hpre]. }
    assert (H4 : delivers w' (skipn (k + m) F))
      by (rewrite skipn_plus; exact Hdel').
    destruct (Z.of_nat (k + m) <? Z.of_nat n + 4) eqn:Hmore.
    + apply Z.ltb_lt in Hmore.
      left. exists (k + m)%nat. cbn [st script]. split; [|apply Hsh; lia].
      unfold assembling, set_frame.
      cbn [pi_received p_data b_msgReceived]. rewrite HFl. conjs.
    + apply Z.ltb_ge in Hmore.
      destruct (Z.of_nat (k + m) =? Z.of_nat n + 4) eqn:Hall;
        [apply Z.eqb_eq in Hall | apply Z.eqb_neq in Hall; lia].
      right. unfold completed, set_frame, message.
      cbn [st script res b_msgReceived pi_received i_payloadSize p_data].
      assert (Hkm : (k + m = 4 + n)%nat) by lia.
      rewrite Hkm in H3, H4.
      split; [reflexivity|]. split; [reflexivity|].
      split; [unfold blen; rewrite Hn; reflexivity|].
      split.
      { rewrite Nat2Z.id. change (Z.to_nat PACKET_HEADER_LEN) with 4%nat.
        rewrite firstn_skipn_comm, H3.
        rewrite firstn_all2 by (rewrite HFl; lia).
        apply packet_body. }
      split.
      { destruct H4 as [Hd _]. rewrite Hd.
        apply skipn_all2. rewrite HFl. lia. }
      exists (Z.of_nat m). split; [|lia].
      destruct (val p =? -1) eqn:Hv; [lia|]. reflexivity.
Qed.

Lemma recvPacket_advances p s (k : nat) w :
  is_readable p -> assembling PACKET_MAX_LEN body k s w -> advances PACKET_MAX_LEN body w (recvPacket' p s w).
Proof.
  intros [Hval Hin] (Hrcv & Hk & Hbuf & Hpre & Hdel & Hnot).
  destruct body_fits as (Hb1 & HF & Hc1 & Hc2).
  unfold recvPacket, keepalive.
  destruct (val p =? -1) eqn:E1; [lia|].
  destruct (val p =? 0) eqn:E0; [lia|]. cbn [andb]. rewrite Hin.
  cbn [set_keepalive pi_received p_data b_msgReceived i_payloadSize].
  rewrite Hrcv.
  pose proof (recv_header_assembling PACKET_MAX_LEN cap_range body Hb1
                (Z.to_nat PACKET_HEADER_LEN) k (p_data s) w [] Hk Hbuf
                (prefix_min k _ _ Hpre) Hdel) as Hh.
  assert (Hfuel : (k < 4)%nat -> (4 - k <= Z.to_nat PACKET_HEADER_LEN)%nat)
    by (unfold PACKET_HEADER_LEN; lia).
  specialize (Hh Hfuel).
  destruct (recv_header _ _ _ _ _) as [rcv buf w' tr|i rcv buf w' tr|];
    cbn [header_assembling] in Hh; [ | | contradiction ].
  - destruct Hh as (k' & -> & Hk' & Hb & Hp4 & Hd & Hlen & Hcase).
    assert (Hp : firstn k' buf = firstn k' F).
    { destruct Hcase as [[_ ->]|(_ & -> & ->)]; assumption. }
    rewrite (declared_fit k' buf) by (try exact Hp; lia).
    destruct (_ <? blen body) eqn:Hbig; [lia|].
    rewrite <- (declared_fit k' buf) by (try exact Hp; lia).
    pose proof (recv_payload_assembling p
                  (mkRx (b_msgReceived s) (i_payloadSize s) (Z.of_nat k)
                        (p_data s) false PING_WAIT_TIME PING_WAIT_RETRIES)
                  k' buf w' tr [] Hval Hnot Hk' Hb Hp Hd) as Hadv.
    destruct Hadv as [(k2 & Hinv & Hsh)|Hdone]; [left|right; exact Hdone].
    exists k2. split; [exact Hinv|].
    eapply Nat.lt_le_trans; [exact Hsh | exact Hlen].
  - destruct Hh as (Hi & k' & -> & Hk' & Hb & Hp & Hd & Hlen).
    left. exists k'. cbn [st script]. split; [|exact Hlen].
    unfold assembling, set_frame.
    cbn [pi_received p_data b_msgReceived]. rewrite packet_length. conjs.
Qed.

Lemma awaiting_assembling s w :
  awaiting_frame PACKET_MAX_LEN s -> delivers w F -> assembling PACKET_MAX_LEN body 0 s w.
Proof.
  intros (Hbuf & Hrcv & Hnot) Hdel. unfold assembling.
  rewrite packet_length. conjs.
Qed.

Lemma assembling_nonempty k s w : assembling PACKET_MAX_LEN body k s w -> w <> [].
Proof.
  intros (_ & Hk & _ & _ & [Hd _] & _) ->. cbn [data_of] in Hd.
  apply (f_equal (@List.length byte)) in Hd.
  rewrite length_skipn in Hd. cbn [List.length] in Hd. lia.
Qed.

Lemma invocations_complete p n : forall k s w,
  is_readable p -> assembling PACKET_MAX_LEN body k s w -> (List.length w <= S n)%nat ->
  completed body (invocations PACKET_MAX_LEN PING_WAIT_TIME PING_WAIT_RETRIES p n
                         s w).
Proof.
  induction n as [|n IH]; intros k s w Hp Hinv Hlen; cbn [invocations];
    destruct (recvPacket_advances p s k w Hp Hinv) as [(k' & Hinv' & Hsh)|Hdone].
  - exfalso. apply (assembling_nonempty _ _ _ Hinv').
    destruct (script (recvPacket' p s w)); [reflexivity | cbn in Hsh; lia].
  - exact Hdone.
  - assert (Hnot : b_msgReceived (st (recvPacket' p s w)) = false)
      by apply Hinv'.
    rewrite Hnot. apply (IH k' _ _ Hp Hinv'). lia.
  - assert (Hyes : b_msgReceived (st (recvPacket' p s w)) = true)
      by apply Hdone.
    rewrite Hyes. exact Hdone.
Qed.

Lemma failed_read_returns p s e w :
  is_readable p -> e = Eof \/ e = Err ->
  res (recvPacket' p s (e :: w))
  = Returned (match e with Err => -1 | _ => 0 end)
  /\ pi_received (st (recvPacket' p s (e :: w))) = pi_received s
  /\ p_data (st (recvPacket' p s (e :: w))) = p_data s
  /\ b_msgReceived (st (recvPacket' p s (e :: w))) = b_msgReceived s
  /\ script (recvPacket' p s (e :: w)) = w.
Proof.
  intros [Hval Hin] He. unfold recvPacket, keepalive.
  destruct (val p =? -1) eqn:E1; [lia|].
  destruct (val p =? 0) eqn:E0; [lia|]. cbn [andb]. rewrite Hin.
  cbn [set_keepalive pi_received p_data b_msgReceived i_payloadSize].
  change (Z.to_nat PACKET_HEADER_LEN) with 4%nat. cbn [recv_header].
  destruct (pi_received s <? PACKET_HEADER_LEN).
  - destruct He as [-> | ->]; cbn [tls_Recv];
      change (to_int 0 <=? 0) with true; change (to_int (-1) <=? 0) with true;
      cbn [res st script set_frame pi_received p_data b_msgReceived];
      repeat split.
  - unfold recv_drain, recv_payload.
    destruct He as [-> | ->]; cbn [tls_Recv];
      change (to_int 0 <=? 0) with true; change (to_int (-1) <=? 0) with true;
      destruct (_ <? U32_AT (p_data s));
      cbn [res st script set_frame pi_received p_data b_msgReceived];
      rewrite ?store_nil; repeat split.
Qed.

(** X22.  Reassembly is resumable for every declared length from 1 to
    the maximum.  Take a packet whose payload has between 1 and the
    maximum number of bytes, and any script that delivers its bytes in
    non-empty chunks of any sizes, 1-byte chunks included, with failed
    reads anywhere in between.  Starting before the first byte, the
    invocations, at most one for each event of the script, end with
    [b_msgReceived] set, the accumulated count back at 0, and the same
    payload bytes and payload size as one invocation that is given the
    packet whole.  A read that returns 0 or -1 makes the invocation
    return that value with the accumulated count and the buffer as they
    were before the read. *)
Theorem reassembly_resumable p s w :
  is_readable p -> awaiting_frame PACKET_MAX_LEN s -> delivers w F ->
  (b_msgReceived
     (st (invocations PACKET_MAX_LEN PING_WAIT_TIME PING_WAIT_RETRIES p
            (Nat.pred (List.length w)) s w)) = true
   /\ pi_received
        (st (invocations PACKET_MAX_LEN PING_WAIT_TIME PING_WAIT_RETRIES p
               (Nat.pred (List.length w)) s w)) = 0
   /\ i_payloadSize
        (st (invocations PACKET_MAX_LEN PING_WAIT_TIME PING_WAIT_RETRIES p
               (Nat.pred (List.length w)) s w)) = blen body
   /\ message
        (st (invocations PACKET_MAX_LEN PING_WAIT_TIME PING_WAIT_RETRIES p
               (Nat.pred (List.length w)) s w)) = body)
  /\ (b_msgReceived (st (recvPacket' p s [Data F])) = true
      /\ i_payloadSize (st (recvPacket' p s [Data F])) = blen body
      /\ message (st (recvPacket' p s [Data F])) = body)
  /\ (forall s' e w',
        e = Eof \/ e = Err ->
        res (recvPacket' p s' (e :: w'))
        = Returned (match e with Err => -1 | _ => 0 end)
        /\ pi_received (st (recvPacket' p s' (e :: w'))) = pi_received s'
        /\ p_data (st (recvPacket' p s' (e :: w'))) = p_data s'
        /\ b_msgReceived (st (recvPacket' p s' (e :: w'))) = b_msgReceived s'
        /\ script (recvPacket' p s' (e :: w')) = w').
Proof.
  intros Hp Hs Hdel. split; [|split].
  - pose proof (invocations_complete p (Nat.pred (List.length w)) 0 s w Hp
                  (awaiting_assembling s w Hs Hdel)) as H.
    destruct H as (H1 & H2 & H3 & H4 & _); [lia|]. conjs.
  - assert (Hwhole : delivers [Data F] F).
    { split; [cbn [data_of]; apply app_nil_r|].
      constructor; [|constructor]. cbn [nonempty_chunk].
      unfold packet, SetDWBE. discriminate. }
    pose proof (invocations_complete p 0 0 s [Data F] Hp
                  (awaiting_assembling s _ Hs Hwhole)) as H.
    destruct H as (H1 & H2 & H3 & H4 & _); [cbn; lia|].
    cbn [invocations] in *. conjs.
  - intros s' e w' He. apply failed_read_returns; assumption.
Qed.

End Reassembly.

(** ** Sending, then receiving *)

Lemma envelope_nonempty ns payload dest t :
  1 <= ByteSize (envelope ns payload dest t).
Proof.
  unfold ByteSize, SerializeWithCachedSizesToArray, envelope.
  destruct t; cbn [set_payload protocol_version opt_field];
    change (field_varint 1 0) with [x08; x00];
    rewrite blen_app;
    match goal with |- context [blen ?l + blen ?r] =>
      pose proof (blen_nonneg r); change (blen l) with 2
    end; lia.
Qed.

(** C2.  For every envelope that [buildMessage] assembles and whose
    serialized size is at most [PACKET_MAX_LEN - PACKET_HEADER_LEN]:
    what [sendMessage] hands the transport, whenever it has obtained
    the packet, is the 4-byte big-endian size followed by the
    serialized envelope, and one invocation of [recvPacket] that is fed
    exactly these bytes completes a message with the same payload bytes
    and the same payload size. *)
Theorem framing_roundtrip PACKET_MAX_LEN PING_WAIT_TIME PING_WAIT_RETRIES
    ns payload dest t l p s :
  PACKET_HEADER_LEN <= PACKET_MAX_LEN < 2 ^ 31 ->
  ByteSize (envelope ns payload dest t) <= i_maxPayloadSize PACKET_MAX_LEN ->
  is_readable p -> awaiting_frame PACKET_MAX_LEN s ->
  exists wire,
    sent (snd (sendMessage l (envelope ns payload dest t)))
    = sent l ++ (if allocates l then [wire] else [])
    /\ wire = SetDWBE (ByteSize (envelope ns payload dest t))
              ++ SerializeWithCachedSizesToArray (envelope ns payload dest t)
    /\ b_msgReceived
         (st (recvPacket PACKET_MAX_LEN PING_WAIT_TIME PING_WAIT_RETRIES p s
                         [Data wire])) = true
    /\ i_payloadSize
         (st (recvPacket PACKET_MAX_LEN PING_WAIT_TIME PING_WAIT_RETRIES p s
                         [Data wire]))
       = ByteSize (envelope ns payload dest t)
    /\ message
         (st (recvPacket PACKET_MAX_LEN PING_WAIT_TIME PING_WAIT_RETRIES p s
                         [Data wire]))
       = SerializeWithCachedSizesToArray (envelope ns payload dest t)
    /\ pi_received
         (st (recvPacket PACKET_MAX_LEN PING_WAIT_TIME PING_WAIT_RETRIES p s
                         [Data wire])) = 0.
Proof.
  intros Hcap Hsize Hp Hs.
  set (msg := envelope ns payload dest t) in *.
  exists (frame msg). split; [apply sent_sendMessage|].
  split; [reflexivity|].
  assert (Hbody : 1 <= blen (SerializeWithCachedSizesToArray msg)
                  <= i_maxPayloadSize PACKET_MAX_LEN).
  { split; [apply (envelope_nonempty ns payload dest t) | exact Hsize]. }
  assert (Hwhole : delivers [Data (frame msg)] (frame msg)).
  { split; [cbn [data_of]; apply app_nil_r|].
    constructor; [|constructor]. cbn [nonempty_chunk].
    unfold frame, SetDWBE. discriminate. }
  pose proof (invocations_complete PACKET_MAX_LEN PING_WAIT_TIME
                PING_WAIT_RETRIES Hcap _ Hbody p 0 0 s [Data (frame msg)] Hp
                (awaiting_assembling PACKET_MAX_LEN _ s _ Hs Hwhole))
    as H.
  destruct H as (H1 & H2 & H3 & H4 & _); [cbn; lia|].
  cbn [invocations] in *. conjs.
Qed.

(** A GET_STATUS request of the media namespace, sent and received with
    a buffer of 10240 bytes. *)
Lemma framing_roundtrip_witness :
  exists wire,
    sent (snd (sendMessage idle_link
                 (envelope sample_media_ns (get_status_json 5) "app-1"
                           CastMessage_PayloadType_STRING)))
    = sent idle_link ++ [wire]
    /\ b_msgReceived
         (st (recvPacket 10240 6000 0 readable (fresh_rx 10240) [Data wire]))
       = true.
Proof.
  destruct (framing_roundtrip 10240 6000 0 sample_media_ns
              (get_status_json 5) "app-1" CastMessage_PayloadType_STRING
              idle_link readable (fresh_rx 10240))
    as (wire & Hsent & _ & Hdone & _).
  - vm_compute. split; [discriminate | reflexivity].
  - vm_compute. discriminate.
  - split; [reflexivity | reflexivity].
  - repeat split.
  - exists wire. split; [exact Hsent | exact Hdone].
Defined.

(** A freshly constructed [CastMessage], which [buildMessage] never
    sends as it is, serializes to no bytes at all; its packet is the
    bare header and the receiving side does not complete it. *)
Lemma empty_message_is_not_completed :
  ByteSize CastMessage_new = 0
  /\ frame CastMessage_new = [x00; x00; x00; x00]
  /\ b_msgReceived
       (st (recvPacket 10240 6000 0 readable (fresh_rx 10240)
                       [Data (frame CastMessage_new)])) = false.
Proof. repeat split. Qed.

(** The packet "ABC" in four chunks around a failed read, with a buffer
    of 16 bytes. *)
Lemma reassembly_resumable_witness :
  message (st (invocations 16 6000 0 readable 4 (fresh_rx 16) abc_in_pieces))
  = [x41; x42; x43].
Proof.
  refine (proj2 (proj2 (proj2 (proj1
            (reassembly_resumable 16 6000 0 _ [x41; x42; x43] _ readable
               (fresh_rx 16) abc_in_pieces _ _ _))))).
  - vm_compute. split; [discriminate | reflexivity].
  - vm_compute. split; discriminate.
  - split; reflexivity.
  - repeat split.
  - split; [reflexivity|]. repeat constructor; discriminate.
Defined.

(** After the header of a packet that declares an empty payload, an
    invocation asks for 0 bytes, takes the 0 it gets for a failed read
    and returns; nothing changes any more. *)
Lemma zero_length_stalls n :
  st (invocations 16 6000 0 readable n
        (mkRx false 0 4 (repeat x00 16) false 6000 0) [])
  = mkRx false 0 4 (repeat x00 16) false 6000 0.
Proof. induction n as [|n IH]; [reflexivity | exact IH]. Qed.

(** C3, at an input that leaves the claim unmet.  The header 00 00 00
    00 declares a payload of length 0, which is within the maximum.
    With the four header bytes counted the packet is complete, the
    accumulated count equals the declared length plus the header
    length; but [recvPacket] first asks for the 0 bytes that are
    missing, takes the 0 that this read returns for a closed stream and
    returns it.  The same happens on every later invocation: however
    often [recvPacket] is invoked, [b_msgReceived] is never set. *)
Lemma zero_length_packet_never_completes :
  ~ exists n,
      b_msgReceived
        (st (invocations 16 6000 0 readable n (fresh_rx 16)
               [Data (packet [])])) = true.
Proof.
  intros [n H]. destruct n as [|n]; [discriminate H|].
  change (invocations 16 6000 0 readable (S n) (fresh_rx 16) [Data (packet [])])
    with (invocations 16 6000 0 readable n
            (mkRx false 0 4 (repeat x00 16) false 6000 0) []) in H.
  rewrite zero_length_stalls in H. discriminate H.
Qed.

(** The reads of the first invocation on the chunked packet "ABC". *)
Lemma recvPacket_in_bounds_witness :
  Forall (request_ok 16
            (i_payloadSize (st (recvPacket 16 6000 0 readable (fresh_rx 16)
                                           abc_in_pieces))))
         (reads (recvPacket 16 6000 0 readable (fresh_rx 16) abc_in_pieces)).
Proof.
  refine (proj1 (proj2 (proj2
            (recvPacket_in_bounds 16 6000 0 _ readable (fresh_rx 16)
               abc_in_pieces _)))).
  - vm_compute. split; [discriminate | reflexivity].
  - split; [reflexivity|]. split; [vm_compute; split; [discriminate|reflexivity]|].
    intros H. vm_compute in H. exfalso. apply H. reflexivity.
Defined.

(** ** A declared length next to [2^32] *)

(** C4, at an input that leaves the claim unmet.  The header FF FF FF
    FF declares 4294967295 bytes.  After the first drain read, which
    here yields a single byte, the sum [i_payloadSize +
    PACKET_HEADER_LEN] has wrapped to 3, the accumulated count 5 is not
    below it, and [recvPacket] resets the accumulator and returns -1
    with 4294967294 declared bytes not drained.  The next invocation
    takes the bytes that follow, which belong to the oversized payload,
    for a new packet and hands them to the caller as a message. *)
Theorem oversized_length_wraps :
  let first := recvPacket 10240 6000 0 readable (fresh_rx 10240)
                 [ Data [xff; xff; xff; xff; x41];
                   Data [x00; x00; x00; x01; x42] ] in
  let second := recvPacket 10240 6000 0 readable (st first) (script first) in
  res first = Returned (-1)
  /\ i_payloadSize (st first) = 4294967295
  /\ pi_received (st first) = 0
  /\ reads first = [ mkReq HeaderRead 0 4; mkReq DrainRead 4 10236 ]
  /\ script first = [ Data [x00; x00; x00; x01; x42] ]
  /\ b_msgReceived (st second) = true
  /\ message (st second) = [x42].
Proof. vm_compute. repeat split. Qed.

(** ** Draining an oversized packet *)

Lemma firstn_store_header buf bs :
  (4 <= List.length buf)%nat ->
  firstn 4 (store buf PACKET_HEADER_LEN bs) = firstn 4 buf.
Proof.
  intros Hlen. unfold store, PACKET_HEADER_LEN.
  change (Z.to_nat 4) with 4%nat.
  rewrite firstn_app, length_firstn.
  replace (4 - Nat.min 4 (List.length buf))%nat with 0%nat by lia.
  rewrite firstn_O, app_nil_r, firstn_firstn. reflexivity.
Qed.

Section Drain.

Variable PACKET_MAX_LEN : Z.
Variable PING_WAIT_TIME : Z.
Variable PING_WAIT_RETRIES : Z.
Hypothesis cap_range : PACKET_HEADER_LEN < PACKET_MAX_LEN < 2 ^ 31.

Variable body : list byte.
Hypothesis body_range :
  i_maxPayloadSize PACKET_MAX_LEN < blen body < 2 ^ 32 - PACKET_HEADER_LEN.

Local Abbreviation recvPacket' :=
  (recvPacket PACKET_MAX_LEN PING_WAIT_TIME PING_WAIT_RETRIES).
Local Abbreviation F := (packet body).

Lemma oversized_fits :
  (1 <= List.length body)%nat
  /\ PACKET_MAX_LEN - 4 < Z.of_nat (List.length body) < 4294967292
  /\ 4 < PACKET_MAX_LEN < 2147483648
  /\ i_maxPayloadSize PACKET_MAX_LEN = PACKET_MAX_LEN - 4.
Proof.
  assert (Hc : PACKET_HEADER_LEN <= PACKET_MAX_LEN < 2 ^ 31) by lia.
  pose proof (maxPayload_eq PACKET_MAX_LEN Hc) as E.
  rewrite E in body_range. unfold blen, PACKET_HEADER_LEN in *.
  change (2 ^ 31) with 2147483648 in cap_range.
  change (2 ^ 32) with 4294967296 in body_range. lia.
Qed.

Lemma too_long_logged l :
  existsb (log_eqb PACKET_TOO_LONG) (l ++ [PACKET_TOO_LONG]) = true.
Proof. rewrite existsb_app. cbn. apply orb_true_r. Qed.

Lemma remaining_delivers w (k : nat) :
  delivers w (skipn k F) ->
  remaining w = (List.length F - k + List.length w)%nat.
Proof.
  intros [Hd _]. unfold remaining. rewrite Hd, length_skipn. reflexivity.
Qed.

Lemma recv_drain_step s (k : nat) buf w tr l :
  b_msgReceived s = false ->
  (4 <= k < List.length F)%nat -> blen buf = PACKET_MAX_LEN ->
  firstn 4 buf = firstn 4 F -> delivers w (skipn k F) ->
  drains PACKET_MAX_LEN body w (recv_drain PACKET_MAX_LEN s (U32_AT buf) (Z.of_nat k) buf w tr l).
Proof.
  intros Hnot Hk Hbuf Hpre Hdel.
  destruct oversized_fits as (Hb1 & Hn & Hc & Hmax).
  pose proof (packet_length body) as HFl. rewrite HFl in Hk.
  assert (Hdecl : U32_AT buf = blen body).
  { apply (declared_length body buf); [|exact Hpre].
    unfold blen. change (2 ^ 32) with 4294967296. lia. }
  rewrite Hdecl. unfold recv_drain, PACKET_HEADER_LEN, blen. rewrite Hmax.
  remember (List.length body) as n eqn:En in *.
  assert (E1 : u32 (Z.of_nat k - 4) = Z.of_nat k - 4)
    by (apply u32_small; change (2 ^ 32) with 4294967296; lia).
  assert (E2 : u32 (Z.of_nat n - (Z.of_nat k - 4)) = Z.of_nat (4 + n - k))
    by (rewrite u32_small; change (2 ^ 32) with 4294967296; lia).
  assert (E3 : u32 (Z.of_nat n + 4) = Z.of_nat n + 4)
    by (apply u32_small; change (2 ^ 32) with 4294967296; lia).
  rewrite E1, E2, E3. clear E1 E2 E3.
  assert (Hsize : exists len : nat,
            (if PACKET_MAX_LEN - 4 <? Z.of_nat (4 + n - k)
             then PACKET_MAX_LEN - 4 else Z.of_nat (4 + n - k))
            = Z.of_nat len
            /\ (0 < len <= 4 + n - k)%nat
            /\ Z.of_nat len <= PACKET_MAX_LEN - 4).
  { destruct (PACKET_MAX_LEN - 4 <? Z.of_nat (4 + n - k)) eqn:E.
    - apply Z.ltb_lt in E. exists (Z.to_nat (PACKET_MAX_LEN - 4)).
      rewrite Z2Nat.id by lia. conjs.
    - apply Z.ltb_ge in E. exists (4 + n - k)%nat. conjs. }
  destruct Hsize as (len & -> & Hlen & Hcap).
  pose proof (remaining_delivers w k Hdel) as Hrem. rewrite HFl in Hrem.
  destruct (tls_Recv w (Z.of_nat len)) as [[r bs] w'] eqn:Hread.
  eapply tls_Recv_delivers in Hread; [ | exact Hdel | ].
  2: { rewrite length_skipn, HFl. lia. }
  destruct Hread as [(Hr & -> & Hdel' & Hsh)
                    |(m & -> & Hm & -> & Hdel' & Hle & Hsh)].
  - assert (Hint : to_int r = r)
      by (apply to_int_small; change (2 ^ 31) with 2147483648; lia).
    rewrite Hint. clear Hint. destruct (r <=? 0) eqn:Hr0; [|lia].
    left. exists k. cbn [st script].
    pose proof (remaining_delivers w' k Hdel') as Hrem'.
    rewrite HFl in Hrem'.
    split; [|split; [|lia]].
    + unfold draining, set_frame.
      cbn [pi_received p_data b_msgReceived]. rewrite store_nil, HFl.
      replace (Nat.min k 4) with 4%nat by lia. conjs.
    + unfold drop_reported, set_frame. cbn [logs st pi_received].
      destruct (Z.of_nat k =? 0) eqn:E;
        [apply Z.eqb_eq in E; lia|]. apply andb_false_r.
  - assert (Hint : to_int (Z.of_nat m) = Z.of_nat m)
      by (apply to_int_small; change (2 ^ 31) with 2147483648; lia).
    rewrite Hint. clear Hint.
    destruct (Z.of_nat m <=? 0) eqn:Hr0; [lia|].
    assert (Hsum : u32 (Z.of_nat k + Z.of_nat m) = Z.of_nat (k + m))
      by (rewrite u32_small; change (2 ^ 32) with 4294967296; lia).
    rewrite Hsum. clear Hsum.
    assert (Hl : blen (firstn m (skipn k F)) = Z.of_nat m).
    { unfold blen. rewrite length_firstn, length_skipn, HFl. lia. }
    assert (H2 : blen (store buf 4 (firstn m (skipn k F))) = PACKET_MAX_LEN)
      by (rewrite store_length; [exact Hbuf | lia | lia]).
    assert (H3 : firstn 4 (store buf 4 (firstn m (skipn k F))) = firstn 4 F).
    { rewrite <- Hpre. apply firstn_store_header.
      unfold blen in Hbuf. lia. }
    assert (H4 : delivers w' (skipn (k + m) F))
      by (rewrite skipn_plus; exact Hdel').
    pose proof (remaining_delivers w' (k + m) H4) as Hrem'.
    rewrite HFl in Hrem'.
    destruct (Z.of_nat (k + m) <? Z.of_nat n + 4) eqn:Hmore.
    + apply Z.ltb_lt in Hmore. left. exists (k + m)%nat. cbn [st script].
      split; [|split; [|lia]].
      * unfold draining, set_frame.
        cbn [pi_received p_data b_msgReceived]. rewrite HFl.
        replace (Nat.min (k + m) 4) with 4%nat by lia. conjs.
      * unfold drop_reported, set_frame. cbn [logs st pi_received].
        destruct (Z.of_nat (k + m) =? 0) eqn:E;
          [apply Z.eqb_eq in E; lia|]. apply andb_false_r.
    + apply Z.ltb_ge in Hmore. right. unfold dropped, drop_reported, set_frame.
      cbn [res st script logs pi_received b_msgReceived].
      rewrite too_long_logged.
      split; [reflexivity|]. split; [reflexivity|]. split; [exact Hnot|].
      split; [|reflexivity].
      destruct H4 as [Hd _]. rewrite Hd. apply skipn_all2. rewrite HFl. lia.
Qed.

Lemma recvPacket_drains p s (k : nat) w :
  is_readable p -> draining PACKET_MAX_LEN body k s w -> drains PACKET_MAX_LEN body w (recvPacket' p s w).
Proof.
  intros [Hval Hin] (Hrcv & Hk & Hbuf & Hpre & Hdel & Hnot).
  destruct oversized_fits as (Hb1 & Hn & Hc & Hmax).
  assert (Hcap : PACKET_HEADER_LEN <= PACKET_MAX_LEN < 2 ^ 31) by lia.
  pose proof (packet_length body) as HFl.
  pose proof (remaining_delivers w k Hdel) as Hrem.
  unfold recvPacket, keepalive.
  destruct (val p =? -1) eqn:E1; [lia|].
  destruct (val p =? 0) eqn:E0; [lia|]. cbn [andb]. rewrite Hin.
  cbn [set_keepalive pi_received p_data b_msgReceived i_payloadSize].
  rewrite Hrcv.
  pose proof (recv_header_assembling PACKET_MAX_LEN Hcap body Hb1
                (Z.to_nat PACKET_HEADER_LEN) k (p_data s) w [] Hk Hbuf
                Hpre Hdel) as Hh.
  assert (Hfuel : (k < 4)%nat -> (4 - k <= Z.to_nat PACKET_HEADER_LEN)%nat)
    by (unfold PACKET_HEADER_LEN; lia).
  specialize (Hh Hfuel).
  destruct (recv_header _ _ _ _ _) as [rcv buf w' tr|i rcv buf w' tr|];
    cbn [header_assembling] in Hh; [ | | contradiction ].
  - destruct Hh as (k' & -> & Hk' & Hb & Hp4 & Hd & Hlen & Hcase).
    assert (Hkk : (k <= k')%nat) by (destruct Hcase as [?|(? & ? & ?)]; lia).
    assert (Hdecl : U32_AT buf = blen body).
    { apply (declared_length body buf); [|exact Hp4].
      unfold blen. change (2 ^ 32) with 4294967296. lia. }
    pose proof (recv_drain_step
                  (mkRx (b_msgReceived s) (i_payloadSize s) (Z.of_nat k)
                        (p_data s) false PING_WAIT_TIME PING_WAIT_RETRIES)
                  k' buf w' tr [] Hnot Hk' Hb Hp4 Hd) as Hstep.
    rewrite Hdecl in Hstep |- *.
    destruct (_ <? blen body) eqn:Hbig.
    2: { apply Z.ltb_ge in Hbig. unfold blen in Hbig. lia. }
    pose proof (remaining_delivers w' k' Hd) as Hrem'.
    destruct Hstep as [(k2 & Hinv & Hno & Hsh)|Hdone];
      [left|right; exact Hdone].
    exists k2. split; [exact Hinv|]. split; [exact Hno|].
    eapply Nat.lt_le_trans; [exact Hsh|]. rewrite Hrem, Hrem'. lia.
  - destruct Hh as (Hi & k' & -> & Hk' & Hb & Hp & Hd & Hlen).
    pose proof (remaining_delivers w' k' Hd) as Hrem'.
    left. exists k'. cbn [st script].
    split; [|split; [reflexivity | rewrite Hrem, Hrem'; lia]].
    unfold draining, set_frame.
    cbn [pi_received p_data b_msgReceived]. rewrite HFl.
    replace (Nat.min k' 4) with k' by lia. conjs.
Qed.

Lemma draining_nonempty k s w : draining PACKET_MAX_LEN body k s w -> (0 < remaining w)%nat.
Proof.
  intros (_ & Hk & _ & _ & Hd & _).
  rewrite (remaining_delivers w k Hd). lia.
Qed.

Lemma drain_loop_drops p n : forall k s w,
  is_readable p -> draining PACKET_MAX_LEN body k s w -> (remaining w <= S n)%nat ->
  dropped (drain_loop PACKET_MAX_LEN PING_WAIT_TIME PING_WAIT_RETRIES p n s w).
Proof.
  induction n as [|n IH]; intros k s w Hp Hinv Hlen; cbn [drain_loop];
    destruct (recvPacket_drains p s k w Hp Hinv)
      as [(k' & Hinv' & Hno & Hsh)|Hdone].
  - pose proof (draining_nonempty _ _ _ Hinv'). lia.
  - exact Hdone.
  - rewrite Hno. apply (IH k' _ _ Hp Hinv'). lia.
  - assert (Hyes : drop_reported (recvPacket' p s w) = true) by apply Hdone.
    rewrite Hyes. exact Hdone.
Qed.

(** X21.  Where the arithmetic does not wrap, an oversized packet is
    drained in full.  A packet that declares more than the maximum
    payload size and less than [2^32 - PACKET_HEADER_LEN] bytes is
    drained to its last byte, whatever the chunks and whatever reads
    fail in between; then the accumulator is reset, the invocation
    returns -1, and no message has been announced. *)
Lemma oversized_packet_drained p s w :
  is_readable p -> awaiting_frame PACKET_MAX_LEN s -> delivers w F ->
  dropped (drain_loop PACKET_MAX_LEN PING_WAIT_TIME PING_WAIT_RETRIES p
                      (remaining w) s w).
Proof.
  intros Hp (Hbuf & Hrcv & Hnot) Hdel.
  apply (drain_loop_drops p (remaining w) 0 s w Hp); [|lia].
  unfold draining. rewrite packet_length. cbn [Nat.min firstn]. conjs.
Qed.

End Drain.

(** * Further properties *)

(** ** Sequences of message calls *)

Lemma envelope_is_ok ns payload dest t : envelope_ok (envelope ns payload dest t).
Proof.
  unfold envelope_ok, envelope.
  destruct t; cbn; repeat split; try discriminate;
    [left | right]; repeat split; discriminate.
Qed.

Lemma new_results_buildMessage l ns payload dest t :
  new_results (buildMessage l ns payload dest t) = tl (new_results l).
Proof.
  unfold buildMessage, sendMessage, new_nothrow, tls_Send.
  destruct (new_results l) as [|[|] rest] eqn:E; cbn [negb snd tl];
    cbn [sent send_results new_results];
    try reflexivity;
    destruct (send_results l) as [|r rs];
    destruct (_ =? _); cbn [snd new_results]; try reflexivity;
    exact E.
Qed.

Lemma buildMessage_starved l ns payload dest t :
  allocates l = false ->
  sent (buildMessage l ns payload dest t) = sent l
  /\ send_results (buildMessage l ns payload dest t) = send_results l.
Proof.
  unfold allocates, buildMessage, sendMessage, new_nothrow.
  destruct (new_results l) as [|[|] rest]; cbn [hd]; try discriminate.
  intros _. cbn [negb snd sent send_results]. split; reflexivity.
Qed.

Lemma buildMessage_step l ns payload dest t :
  exists extra,
    sent (buildMessage l ns payload dest t) = sent l ++ extra
    /\ (List.length extra <= 1)%nat
    /\ Forall is_frame extra
    /\ (all_allocated l ->
        all_allocated (buildMessage l ns payload dest t)
        /\ List.length extra = 1%nat).
Proof.
  exists (handed l (envelope ns payload dest t)).
  split; [apply sent_buildMessage|].
  assert (Hf : is_frame (frame (envelope ns payload dest t))).
  { exists (envelope ns payload dest t).
    split; [apply envelope_is_ok | reflexivity]. }
  unfold handed, allocates, all_allocated.
  rewrite new_results_buildMessage.
  destruct (new_results l) as [|b rest]; cbn [hd tl].
  - repeat split; [cbn; lia | repeat constructor; exact Hf | constructor].
  - destruct b.
    + repeat split; [cbn; lia | repeat constructor; exact Hf|].
      inversion H; assumption.
    + repeat split; [cbn; lia | constructor | | ];
        inversion H; discriminate.
Qed.

(** A call that sends nothing. *)
Lemma step_unsent c c' l r :
  state_of r = (c', l) ->
  transport_of c' = transport_of c ->
  i_receiver_requestId c <= i_receiver_requestId c' ->
  i_requestId c <= i_requestId c' ->
  (r = Finished (c', l) -> c' = c) ->
  step_ok c l r.
Proof.
  intros Hst Ht Hr Hp Hfin. unfold step_ok. rewrite Hst. cbn [fst snd].
  repeat split; try assumption.
  exists []. rewrite app_nil_r. repeat split; [cbn; lia | constructor | |].
  - assumption.
  - intros a Ea. assert (Ha : a = (c', l)).
    { rewrite Ea in Hst. cbn [state_of] in Hst. exact Hst. }
    subst a. rewrite (Hfin Ea). cbn [fst List.length]. lia.
Qed.

(** A call that returns after [buildMessage]. *)
Lemma step_built c c' l ns payload dest t :
  transport_of c' = transport_of c ->
  i_receiver_requestId c <= i_receiver_requestId c' ->
  i_requestId c <= i_requestId c' ->
  ids_used c' - ids_used c <= 1 ->
  step_ok c l (Finished (c', buildMessage l ns payload dest t)).
Proof.
  intros Ht Hr Hp Hid. unfold step_ok. cbn [state_of fst snd].
  repeat split; try assumption.
  destruct (buildMessage_step l ns payload dest t)
    as (extra & Hs & Hn & Hf & Hall).
  exists extra. repeat split; try assumption.
  - apply Hall. assumption.
  - intros a Ea. injection Ea as <-. cbn [fst].
    destruct (Hall H) as [_ ->]. cbn [Z.of_nat Pos.of_succ_nat]. lia.
Qed.

Lemma step_push ns c l dest payload :
  step_ok c l (pushMediaPlayerMessage ns (bump_player c) l dest payload).
Proof.
  unfold pushMediaPlayerMessage.
  destruct (empty dest).
  - apply (step_unsent c (bump_player c) l); try reflexivity;
      cbn [bump_player i_receiver_requestId i_requestId]; try lia.
    discriminate.
  - apply step_built; try reflexivity; unfold ids_used;
      cbn [bump_player i_receiver_requestId i_requestId]; lia.
Qed.

Section SessionFacts.

Variable NAMESPACE_DEVICEAUTH : string.
Variable NAMESPACE_HEARTBEAT : string.
Variable NAMESPACE_CONNECTION : string.
Variable NAMESPACE_RECEIVER : string.
Variable NAMESPACE_MEDIA : string.
Variable DEFAULT_CHOMECAST_RECEIVER : string.
Variable APP_ID : string.
Variable show_float : spec_float -> string.
Variable auth_challenge : string.

Local Abbreviation exec' :=
  (exec NAMESPACE_DEVICEAUTH NAMESPACE_HEARTBEAT NAMESPACE_CONNECTION
        NAMESPACE_RECEIVER NAMESPACE_MEDIA DEFAULT_CHOMECAST_RECEIVER APP_ID
        show_float auth_challenge).
Local Abbreviation run' :=
  (run NAMESPACE_DEVICEAUTH NAMESPACE_HEARTBEAT NAMESPACE_CONNECTION
       NAMESPACE_RECEIVER NAMESPACE_MEDIA DEFAULT_CHOMECAST_RECEIVER APP_ID
       show_float auth_challenge).

Ltac builders :=
  unfold msgAuth, msgPing, msgPong, msgConnect, msgReceiverClose,
    msgReceiverGetStatus, msgReceiverLaunchApp, msgPlayerGetStatus,
    msgPlayerLoad, msgPlayerPlay, msgPlayerStop, msgPlayerPause,
    player_verb, msgPlayerSetVolume, msgPlayerSeek.

Ltac unsent c l :=
  apply (step_unsent c c l); try reflexivity; try lia; try discriminate.

Ltac built :=
  apply step_built; try reflexivity; unfold ids_used;
  cbn [bump_receiver bump_player i_receiver_requestId i_requestId]; lia.

Lemma exec_step cmd c l : step_ok c l (exec' cmd c l).
Proof.
  destruct cmd; cbn [exec]; builders;
    try built; try apply step_push;
    try (destruct (empty mediaSessionId);
         [unsent c l | try apply step_push]).
  destruct (_ || _); [unsent c l | apply step_push].
Qed.

Lemma run_invariant cmds : forall c l,
  transport_of (fst (state_of (run' cmds c l))) = transport_of c
  /\ i_receiver_requestId c <= i_receiver_requestId (fst (state_of (run' cmds c l)))
  /\ i_requestId c <= i_requestId (fst (state_of (run' cmds c l)))
  /\ exists extra,
       sent (snd (state_of (run' cmds c l))) = sent l ++ extra
       /\ (List.length extra <= List.length cmds)%nat
       /\ Forall is_frame extra
       /\ (all_allocated l ->
           forall a, run' cmds c l = Finished a ->
             ids_used (fst a) - ids_used c <= Z.of_nat (List.length extra)).
Proof.
  induction cmds as [|cmd rest IH]; intros c l.
  - cbn [run state_of fst snd]. repeat split; try lia.
    exists []. rewrite app_nil_r. repeat split; [cbn; lia | constructor|].
    intros _ a E. injection E as <-. cbn [fst List.length]. lia.
  - pose proof (exec_step cmd c l) as (Ht & Hr & Hp & extra & Hs & Hn & Hf & Hi).
    cbn [run]. destruct (exec' cmd c l) as [[c1 l1]|[c1 l1]] eqn:E;
      cbn [state_of fst snd] in Ht, Hr, Hp, Hs, Hi.
    + destruct (IH c1 l1) as (Ht' & Hr' & Hp' & extra' & Hs' & Hn' & Hf' & Hi').
      repeat split; try lia; [congruence|].
      exists (extra ++ extra'). repeat split.
      * rewrite Hs', Hs, app_assoc. reflexivity.
      * rewrite length_app. cbn [List.length]. lia.
      * apply Forall_app. split; assumption.
      * intros Hall a Ea. destruct (Hi Hall) as [Hall1 Hi1].
        specialize (Hi1 (c1, l1) eq_refl). specialize (Hi' Hall1 a Ea).
        cbn [fst] in Hi1. rewrite length_app, Nat2Z.inj_add. lia.
    + cbn [state_of fst snd]. repeat split; try lia; [exact Ht|].
      exists extra. repeat split; [exact Hs | cbn [List.length]; lia | exact Hf|].
      intros _ a Ea. discriminate Ea.
Qed.

Lemma outcome_push ns c l1 l2 dest payload :
  sent l1 = sent l2 -> new_results l1 = new_results l2 ->
  outcome_of (pushMediaPlayerMessage ns c l1 dest payload)
  = outcome_of (pushMediaPlayerMessage ns c l2 dest payload)
  /\ new_results (snd (state_of (pushMediaPlayerMessage ns c l1 dest payload)))
     = new_results (snd (state_of (pushMediaPlayerMessage ns c l2 dest payload))).
Proof.
  intros H Hn. unfold pushMediaPlayerMessage.
  destruct (empty dest); cbn [outcome_of state_of snd];
    rewrite ?sent_buildMessage, ?new_results_buildMessage;
    unfold handed, allocates; rewrite H, Hn; split; reflexivity.
Qed.

Lemma exec_outcome cmd c l1 l2 :
  sent l1 = sent l2 -> new_results l1 = new_results l2 ->
  outcome_of (exec' cmd c l1) = outcome_of (exec' cmd c l2)
  /\ new_results (snd (state_of (exec' cmd c l1)))
     = new_results (snd (state_of (exec' cmd c l2))).
Proof.
  intros H Hn.
  destruct cmd; cbn [exec]; builders;
    try (destruct (empty mediaSessionId));
    try (destruct (_ || _));
    try (apply outcome_push; assumption);
    cbn [outcome_of state_of snd];
    rewrite ?sent_buildMessage, ?new_results_buildMessage;
    unfold handed, allocates; rewrite H, Hn; split; reflexivity.
Qed.

Lemma outcome_of_inv r1 r2 :
  outcome_of r1 = outcome_of r2 ->
  (exists c l1 l2, r1 = Finished (c, l1) /\ r2 = Finished (c, l2)
                   /\ sent l1 = sent l2)
  \/ (exists c l1 l2, r1 = Aborted (c, l1) /\ r2 = Aborted (c, l2)
                      /\ sent l1 = sent l2).
Proof.
  destruct r1 as [[c1 l1]|[c1 l1]], r2 as [[c2 l2]|[c2 l2]];
    cbn [outcome_of]; intros E; inversion E; subst;
    [left | right]; exists c2, l1, l2; repeat split; assumption.
Qed.

Lemma exec_object cmd c l1 l2 :
  object_of (exec' cmd c l1) = object_of (exec' cmd c l2).
Proof.
  destruct cmd; cbn [exec]; builders; unfold pushMediaPlayerMessage;
    try (destruct (empty mediaSessionId));
    try (destruct (_ || _));
    try (destruct (empty destinationId));
    reflexivity.
Qed.

Lemma object_of_inv r1 r2 :
  object_of r1 = object_of r2 ->
  (exists c l1 l2, r1 = Finished (c, l1) /\ r2 = Finished (c, l2))
  \/ (exists c l1 l2, r1 = Aborted (c, l1) /\ r2 = Aborted (c, l2)).
Proof.
  destruct r1 as [[c1 l1]|[c1 l1]], r2 as [[c2 l2]|[c2 l2]];
    cbn [object_of]; intros E; inversion E; subst;
    [left | right]; exists c2, l1, l2; split; reflexivity.
Qed.

Lemma exec_starved cmd c l :
  allocates l = false ->
  sent (snd (state_of (exec' cmd c l))) = sent l
  /\ send_results (snd (state_of (exec' cmd c l))) = send_results l.
Proof.
  intros Hl.
  destruct cmd; cbn [exec]; builders; unfold pushMediaPlayerMessage;
    try (destruct (empty mediaSessionId));
    try (destruct (_ || _));
    try (destruct (empty destinationId));
    cbn [state_of snd];
    try (split; reflexivity);
    apply buildMessage_starved; exact Hl.
Qed.

(** X1. No sequence of message calls touches the connection itself: the
    socket, the credentials, the TLS session and the server address are
    the same afterwards, and neither request counter ever decreases,
    whether the sequence returns or stops at an assertion. *)
Theorem run_keeps_transport cmds c l :
  transport_of (fst (state_of (run' cmds c l))) = transport_of c
  /\ i_receiver_requestId c <= i_receiver_requestId (fst (state_of (run' cmds c l)))
  /\ i_requestId c <= i_requestId (fst (state_of (run' cmds c l))).
Proof.
  destruct (run_invariant cmds c l) as (Ht & Hr & Hp & _). repeat split; assumption.
Qed.

(** X2. Whatever a sequence of message calls hands to the transport is
    appended to what was sent before, at most one buffer per call, and each
    buffer is the length-prefixed serialisation of a complete envelope:
    protocol version, source sender-vlc, a destination, a namespace, and
    exactly one payload of the announced type. *)
Theorem run_sends_frames cmds c l :
  exists extra,
    sent (snd (state_of (run' cmds c l))) = sent l ++ extra
    /\ (List.length extra <= List.length cmds)%nat
    /\ Forall is_frame extra.
Proof.
  destruct (run_invariant cmds c l) as (_ & _ & _ & extra & Hs & Hn & Hf & _).
  exists extra. repeat split; assumption.
Qed.

(** X3. As long as no allocation of a packet fails, a sequence of
    message calls that returns has consumed at most as many request
    identifiers (of both counters together) as it has handed messages
    to the transport. *)
Theorem run_ids_bounded cmds c l c' l' :
  all_allocated l ->
  run' cmds c l = Finished (c', l') ->
  ids_used c' - ids_used c
    <= Z.of_nat (List.length (sent l')) - Z.of_nat (List.length (sent l)).
Proof.
  intros Hall E.
  destruct (run_invariant cmds c l) as (_ & _ & _ & extra & Hs & _ & _ & Hi).
  rewrite E in Hs. cbn [state_of snd] in Hs.
  specialize (Hi Hall _ E). cbn [fst] in Hi.
  rewrite Hs, length_app, Nat2Z.inj_add. lia.
Qed.

(** X4. The result of [sendMessage] never reaches a caller.  Whatever
    the transport answers and whether or not the packets can be
    allocated, a sequence of message calls returns or stops at the same
    place and leaves the same object with the same counters; and with
    the same allocations, a transport that fails or writes short is
    handed the same buffers. *)
Theorem run_ignores_send_results cmds : forall c l1 l2,
  object_of (run' cmds c l1) = object_of (run' cmds c l2)
  /\ (sent l1 = sent l2 -> new_results l1 = new_results l2 ->
      outcome_of (run' cmds c l1) = outcome_of (run' cmds c l2)).
Proof.
  induction cmds as [|cmd rest IH]; intros c l1 l2; cbn [run].
  - split; [reflexivity|]. intros H _. cbn [outcome_of]. rewrite H. reflexivity.
  - split.
    + destruct (object_of_inv _ _ (exec_object cmd c l1 l2))
        as [(c' & l1' & l2' & -> & ->)|(c' & l1' & l2' & -> & ->)].
      * apply IH.
      * reflexivity.
    + intros H Hn. destruct (exec_outcome cmd c l1 l2 H Hn) as [Ho Hn'].
      destruct (outcome_of_inv _ _ Ho)
        as [(c' & l1' & l2' & E1 & E2 & H')|(c' & l1' & l2' & E1 & E2 & H')];
        rewrite E1, E2 in *; cbn [state_of snd] in Hn'.
      * apply IH; assumption.
      * cbn [outcome_of]. rewrite H'. reflexivity.
Qed.

(** X5. An allocation failure in [sendMessage] is silent.  When the
    packet cannot be allocated, [sendMessage] returns [VLC_ENOMEM];
    every message call then leaves the transport untouched, nothing
    handed over and no answer consumed, and yet returns or stops
    exactly as it does when the message is sent, with its request
    identifier consumed all the same. *)
Theorem alloc_failure_is_silent cmd c l :
  allocates l = false ->
  (forall msg, fst (sendMessage l msg) = VLC_ENOMEM)
  /\ sent (snd (state_of (exec' cmd c l))) = sent l
  /\ send_results (snd (state_of (exec' cmd c l))) = send_results l
  /\ forall l2, object_of (exec' cmd c l) = object_of (exec' cmd c l2).
Proof.
  intros Hl. split; [|split; [|split]].
  - intros msg. unfold allocates in Hl. unfold sendMessage, new_nothrow.
    destruct (new_results l) as [|[|] rest]; cbn [hd] in Hl;
      try discriminate. reflexivity.
  - apply exec_starved, Hl.
  - apply exec_starved, Hl.
  - intros l2. apply exec_object.
Qed.

End SessionFacts.

(** The sample session returns: four messages sent, four identifiers
    used. *)
Lemma run_ids_bounded_witness :
  ids_used (fst (state_of sample_run)) - ids_used sample_comm
    <= Z.of_nat (List.length (sent (snd (state_of sample_run))))
       - Z.of_nat (List.length (sent idle_link)).
Proof.
  apply (run_ids_bounded "urn:x-cast:com.google.cast.tp.deviceauth"
           "urn:x-cast:com.google.cast.tp.heartbeat"
           "urn:x-cast:com.google.cast.tp.connection"
           sample_receiver_ns sample_media_ns sample_receiver sample_app
           sample_show EmptyString sample_session sample_comm idle_link
           (fst (state_of sample_run)) (snd (state_of sample_run))).
  - constructor.
  - vm_compute. reflexivity.
Defined.

(** The sample session on a transport that refuses three buffers. *)
Lemma run_ignores_send_results_witness :
  outcome_of sample_run
  = outcome_of
      (run "urn:x-cast:com.google.cast.tp.deviceauth"
           "urn:x-cast:com.google.cast.tp.heartbeat"
           "urn:x-cast:com.google.cast.tp.connection"
           sample_receiver_ns sample_media_ns sample_receiver sample_app
           sample_show EmptyString sample_session sample_comm failing_link).
Proof.
  refine (proj2 (run_ignores_send_results
                   "urn:x-cast:com.google.cast.tp.deviceauth"
                   "urn:x-cast:com.google.cast.tp.heartbeat"
                   "urn:x-cast:com.google.cast.tp.connection"
                   sample_receiver_ns sample_media_ns sample_receiver
                   sample_app sample_show EmptyString sample_session
                   sample_comm idle_link failing_link) _ _);
    reflexivity.
Defined.

(** A status request of the media namespace when the packet cannot be
    allocated: nothing reaches the transport, the request identifier 5
    is used up. *)
Lemma alloc_failure_is_silent_witness :
  sent (snd (state_of
               (exec "urn:x-cast:com.google.cast.tp.deviceauth"
                     "urn:x-cast:com.google.cast.tp.heartbeat"
                     "urn:x-cast:com.google.cast.tp.connection"
                     sample_receiver_ns sample_media_ns sample_receiver
                     sample_app sample_show EmptyString
                     (PlayerGetStatus "app-1") sample_comm starved_link)))
  = sent starved_link.
Proof.
  refine (proj1 (proj2 (alloc_failure_is_silent
                   "urn:x-cast:com.google.cast.tp.deviceauth"
                   "urn:x-cast:com.google.cast.tp.heartbeat"
                   "urn:x-cast:com.google.cast.tp.connection"
                   sample_receiver_ns sample_media_ns sample_receiver
                   sample_app sample_show EmptyString
                   (PlayerGetStatus "app-1"%string) sample_comm starved_link
                   _))).
  reflexivity.
Defined.

(** ** Connecting and disconnecting *)

Section ConnectFacts.

Variable CHROMECAST_CONTROL_PORT : Z.

Local Abbreviation connect' := (connect CHROMECAST_CONTROL_PORT).

(** X6. [connect] returns [true] exactly when all four steps work: the
    TCP connection, the local address, the TLS credentials and the TLS
    session.  It then holds the descriptor, the local address, the
    credentials and the session that it was given, and has not touched
    the request counters. *)
Theorem connect_succeeds_iff e c r targetIP devicePort :
  (connected (connect' e c r targetIP devicePort) = true <-> succeeds e)
  /\ (connected (connect' e c r targetIP devicePort) = true ->
      comm (connect' e c r targetIP devicePort)
      = mkComm (env_ConnectTCP e) (env_ClientCreate e)
               (env_ClientSessionCreateFD e) (snd (env_GetSockAddress e))
               (i_receiver_requestId c) (i_requestId c)).
Proof.
  unfold connect, succeeds. cbn [i_sock_fd set_sock].
  destruct (env_ConnectTCP e <? 0) eqn:Efd;
    [apply Z.ltb_lt in Efd | apply Z.ltb_ge in Efd].
  { cbn [connected]. split; [split|]; [discriminate | lia | discriminate]. }
  destruct (env_GetSockAddress e) as [rc ip]. cbn [fst snd].
  destruct (rc =? 0) eqn:Erc;
    [apply Z.eqb_eq in Erc | apply Z.eqb_neq in Erc]; cbn [negb].
  2: { cbn [connected]. split; [split|]; [discriminate | tauto | discriminate]. }
  unfold set_tls, set_creds, set_serverIp, set_sock.
  cbn [p_creds p_tls i_sock_fd serverIp i_receiver_requestId i_requestId].
  destruct (env_ClientCreate e) as [h|].
  2: { cbn [connected]. split; [split|]; [discriminate | tauto | discriminate]. }
  destruct (env_ClientSessionCreateFD e) as [t|]; cbn [connected comm].
  - split; [split|]; [intros _ | reflexivity | reflexivity].
    repeat split; [exact Efd | exact Erc | discriminate | discriminate].
  - split; [split|]; [discriminate | tauto | discriminate].
Qed.

(** X7. A connection that was established is taken down in full: after
    [connect] has returned [true], [disconnect] closes the session, the
    socket and the credentials, and the resources of the process are
    again what they were before [connect]; the object keeps no
    session. *)
Theorem connect_disconnect_restores e c r targetIP devicePort :
  fresh e r -> fresh_session e r ->
  connected (connect' e c r targetIP devicePort) = true ->
  snd (disconnect (comm (connect' e c r targetIP devicePort))
                  (rsrc (connect' e c r targetIP devicePort))) = r
  /\ p_tls (fst (disconnect (comm (connect' e c r targetIP devicePort))
                            (rsrc (connect' e c r targetIP devicePort))))
     = None.
Proof.
  intros [Hfd Hcr] Hse. unfold fresh_session in Hse.
  unfold connect. cbn [i_sock_fd set_sock].
  destruct r as [socks creds sessions].
  cbn [open_sockets live_creds live_sessions] in *.
  destruct (env_ConnectTCP e <? 0) eqn:Efd; [discriminate|].
  destruct (env_GetSockAddress e) as [rc ip].
  destruct (negb (rc =? 0)); [discriminate|].
  unfold set_tls, set_creds, set_serverIp, set_sock.
  cbn [p_creds p_tls i_sock_fd serverIp i_receiver_requestId i_requestId
       open_sockets live_creds live_sessions].
  destruct (env_ClientCreate e) as [h|]; [|discriminate].
  destruct (env_ClientSessionCreateFD e) as [t|]; [|discriminate].
  intros _. unfold disconnect, vlc_tls_Delete, vlc_tls_Close, set_tls.
  cbn [comm rsrc p_tls p_creds i_sock_fd open_sockets live_creds live_sessions
       fst snd].
  rewrite !remove_handle_head by auto. split; reflexivity.
Qed.

(** X8. A failed [net_GetSockAddress] leaves the connected socket open
    for good: [connect] returns [false], and on an object that had no
    session neither [disconnect] nor the destructor closes the
    descriptor afterwards. *)
Theorem local_address_failure_leaks e c r targetIP devicePort :
  0 <= env_ConnectTCP e -> fst (env_GetSockAddress e) <> 0 ->
  p_tls c = None ->
  connected (connect' e c r targetIP devicePort) = false
  /\ In (env_ConnectTCP e)
        (open_sockets
           (snd (ChromecastCommunication_delete
                   (comm (connect' e c r targetIP devicePort))
                   (rsrc (connect' e c r targetIP devicePort))))).
Proof.
  intros Hfd Hrc Htls. unfold connect. cbn [i_sock_fd set_sock].
  destruct (env_ConnectTCP e <? 0) eqn:Efd; [apply Z.ltb_lt in Efd; lia|].
  destruct (env_GetSockAddress e) as [rc ip]. cbn [fst] in Hrc.
  destruct (rc =? 0) eqn:Erc; [apply Z.eqb_eq in Erc; contradiction|].
  cbn [negb connected comm rsrc].
  unfold ChromecastCommunication_delete, disconnect, set_sock.
  cbn [p_tls]. rewrite Htls. cbn [snd open_sockets].
  split; [reflexivity | left; reflexivity].
Qed.

(** X9. [connect] gives up nothing that it has not obtained itself: a
    socket, credentials or a session that were in use before the call
    are still in use after it, whether it succeeds or fails, unless the
    environment has handed out the very same handle again. *)
Theorem connect_keeps_foreign_resources e c r targetIP devicePort :
  (forall fd, In fd (open_sockets r) -> fd <> env_ConnectTCP e ->
     In fd (open_sockets (rsrc (connect CHROMECAST_CONTROL_PORT e c r targetIP devicePort))))
  /\ (forall h, In h (live_creds r) -> env_ClientCreate e <> Some h ->
        In h (live_creds (rsrc (connect CHROMECAST_CONTROL_PORT e c r targetIP devicePort))))
  /\ (forall t, In t (live_sessions r) ->
        In t (live_sessions (rsrc (connect CHROMECAST_CONTROL_PORT e c r targetIP devicePort)))).
Proof.
  assert (Hkeep : forall x h l, In x l -> x <> h -> In x (remove_handle h l)).
  { intros x h l Hin Hne. unfold remove_handle. apply filter_In.
    split; [exact Hin|]. destruct (x =? h) eqn:E; [|reflexivity].
    apply Z.eqb_eq in E. contradiction. }
  unfold connect. cbn [i_sock_fd set_sock].
  destruct r as [socks creds sessions].
  cbn [open_sockets live_creds live_sessions].
  destruct (env_ConnectTCP e <? 0) eqn:Efd.
  { cbn [rsrc open_sockets live_creds live_sessions]. repeat split; auto. }
  destruct (env_GetSockAddress e) as [rc ip].
  destruct (negb (rc =? 0)).
  { cbn [rsrc open_sockets live_creds live_sessions].
    repeat split; auto. intros fd Hin _. right. exact Hin. }
  unfold set_tls, set_creds, set_serverIp, set_sock, vlc_tls_Delete, net_Close.
  cbn [p_creds p_tls i_sock_fd serverIp i_receiver_requestId i_requestId
       open_sockets live_creds live_sessions].
  destruct (env_ClientCreate e) as [h|].
  2: { cbn [rsrc open_sockets live_creds live_sessions]. repeat split; auto.
       intros fd Hin Hne. apply Hkeep; [right; exact Hin | exact Hne]. }
  destruct (env_ClientSessionCreateFD e) as [t|];
    cbn [rsrc open_sockets live_creds live_sessions].
  - repeat split; intros x Hin; try intros Hne; right; exact Hin.
  - repeat split; auto.
    + intros fd Hin Hne. apply Hkeep; [right; exact Hin | exact Hne].
    + intros x Hin Hne. apply Hkeep; [right; exact Hin | congruence].
Qed.

(** X10. [disconnect] can be repeated: a second call, such as the one
    the destructor makes after an explicit [disconnect], changes
    neither the object nor the resources. *)
Theorem disconnect_idempotent c r :
  disconnect (fst (disconnect c r)) (snd (disconnect c r)) = disconnect c r
  /\ ChromecastCommunication_delete (fst (disconnect c r)) (snd (disconnect c r))
     = disconnect c r.
Proof.
  unfold ChromecastCommunication_delete, disconnect.
  destruct (p_tls c) as [t|] eqn:E; cbn [fst snd set_tls p_tls];
    [|rewrite E]; split; reflexivity.
Qed.

End ConnectFacts.

Lemma connect_disconnect_restores_witness :
  snd (disconnect
         (comm (connect 8009 working_env ChromecastCommunication_new
                        busy_resources "192.168.1.20" 0))
         (rsrc (connect 8009 working_env ChromecastCommunication_new
                        busy_resources "192.168.1.20" 0)))
  = busy_resources.
Proof.
  refine (proj1 (connect_disconnect_restores 8009 working_env
                   ChromecastCommunication_new busy_resources
                   "192.168.1.20"%string 0 _ _ _)).
  - split; [vm_compute; intuition discriminate|].
    intros h E. injection E as <-. vm_compute. intuition discriminate.
  - intros h E. injection E as <-. vm_compute. intuition discriminate.
  - reflexivity.
Defined.

Lemma local_address_failure_leaks_witness :
  In 7 (open_sockets
          (snd (ChromecastCommunication_delete
                  (comm (connect 8009 no_local_address
                           ChromecastCommunication_new busy_resources
                           "192.168.1.20" 0))
                  (rsrc (connect 8009 no_local_address
                           ChromecastCommunication_new busy_resources
                           "192.168.1.20" 0))))).
Proof.
  refine (proj2 (local_address_failure_leaks 8009 no_local_address
                   ChromecastCommunication_new busy_resources
                   "192.168.1.20"%string 0 _ _ _)).
  - vm_compute. discriminate.
  - vm_compute. discriminate.
  - reflexivity.
Defined.

Lemma connect_failure_unwinds_witness :
  rsrc (connect 8009 no_session_env ChromecastCommunication_new busy_resources
                "192.168.1.20" 0) = busy_resources.
Proof.
  refine (proj2 (connect_failure_unwinds 8009 no_session_env
                   ChromecastCommunication_new busy_resources
                   "192.168.1.20"%string 0 _ _)).
  - split; [vm_compute; intuition discriminate|].
    intros h E. injection E as <-. vm_compute. intuition discriminate.
  - right. split; [vm_compute; discriminate|].
    split; [reflexivity | right; reflexivity].
Defined.

(** ** What one invocation of [recvPacket] does and does not do *)

Section InvocationFacts.

Variable PACKET_MAX_LEN : Z.
Variable PING_WAIT_TIME : Z.
Variable PING_WAIT_RETRIES : Z.

Local Abbreviation recvPacket' :=
  (recvPacket PACKET_MAX_LEN PING_WAIT_TIME PING_WAIT_RETRIES).

(** X12. When the poll does not report the socket readable, the
    invocation reads nothing: no read is requested, the byte stream,
    the buffer, the accumulated count, the payload size and
    [b_msgReceived] are as before.  The value returned is -1 for a
    failed poll, 1 for an interrupted poll and 0 in every other case,
    a timeout and a hang-up alike. *)
Theorem nothing_readable_reads_nothing p s w :
  revents_POLLIN p = false ->
  reads (recvPacket PACKET_MAX_LEN PING_WAIT_TIME PING_WAIT_RETRIES p s w) = []
  /\ script
       (recvPacket PACKET_MAX_LEN PING_WAIT_TIME PING_WAIT_RETRIES p s w) = w
  /\ b_msgReceived
       (st (recvPacket PACKET_MAX_LEN PING_WAIT_TIME PING_WAIT_RETRIES p s w))
    = b_msgReceived s
  /\ i_payloadSize
       (st (recvPacket PACKET_MAX_LEN PING_WAIT_TIME PING_WAIT_RETRIES p s w))
    = i_payloadSize s
  /\ pi_received
       (st (recvPacket PACKET_MAX_LEN PING_WAIT_TIME PING_WAIT_RETRIES p s w))
    = pi_received s
  /\ p_data
       (st (recvPacket PACKET_MAX_LEN PING_WAIT_TIME PING_WAIT_RETRIES p s w))
    = p_data s
  /\ res (recvPacket PACKET_MAX_LEN PING_WAIT_TIME PING_WAIT_RETRIES p s w)
     = Returned (if val p =? -1 then if errno_EINTR p then 1 else -1 else 0).
Proof.
  intros Hin. unfold recvPacket, keepalive. rewrite Hin.
  destruct (val p =? -1) eqn:E1, (errno_EINTR p); cbn [andb negb].
  - apply Z.eqb_eq in E1. rewrite E1. cbn [Z.eqb]. repeat split.
  - repeat split.
  - destruct (val p =? 0), (pb_pingTimeout s);
      try destruct (pi_wait_retries s =? 0); repeat split.
  - destruct (val p =? 0), (pb_pingTimeout s);
      try destruct (pi_wait_retries s =? 0); repeat split.
Qed.

(** X13. [recvPacket] never clears [b_msgReceived]: once the flag is
    set it stays set across invocations until the caller clears it. *)
Theorem recvPacket_never_clears_flag p s w :
  b_msgReceived s = true ->
  b_msgReceived
       (st (recvPacket PACKET_MAX_LEN PING_WAIT_TIME PING_WAIT_RETRIES p s w))
    = true.
Proof.
  intros Hf. unfold recvPacket, keepalive.
  destruct (_ && _); [exact Hf|].
  assert (Hk : forall s1 l,
    b_msgReceived s1 = true ->
    b_msgReceived
      (st (if revents_POLLIN p
           then match recv_header (Z.to_nat PACKET_HEADER_LEN) (pi_received s1)
                        (p_data s1) w [] with
                | HdrDone rcv buf w' tr =>
                    if i_maxPayloadSize PACKET_MAX_LEN <? U32_AT buf
                    then recv_drain PACKET_MAX_LEN s1 (U32_AT buf) rcv buf w' tr l
                    else recv_payload p s1 (U32_AT buf) rcv buf w' tr l
                | HdrReturn i_ret rcv buf w' tr =>
                    mkRes (Returned i_ret)
                      (set_frame s1 (b_msgReceived s1) (i_payloadSize s1) rcv buf)
                      w' tr l
                | HdrFuel => mkRes OutOfFuel s1 w [] l
                end
           else mkRes (Returned (if (val p =? -1) && errno_EINTR p
                                 then 1 else 0)) s1 w [] l)) = true).
  { intros s1 l H1. destruct (revents_POLLIN p); [|exact H1].
    destruct (recv_header _ _ _ _ _) as [rcv buf w' tr|i rcv buf w' tr|];
      [ | exact H1 | exact H1 ].
    unfold recv_drain, recv_payload.
    repeat match goal with
           | |- context [let '(_, _) := ?x in _] => destruct x
           | |- context [if ?x then _ else _] => destruct x
           end; cbn [st set_frame b_msgReceived]; auto. }
  destruct (val p =? 0); [destruct (pb_pingTimeout s);
    [destruct (pi_wait_retries s =? 0); [exact Hf|]|]|];
    apply Hk; exact Hf.
Qed.

(** X14. An interrupted poll counts as a sign of life: it clears the
    ping-timeout flag and restores [PING_WAIT_TIME] and
    [PING_WAIT_RETRIES] exactly as arriving data does, and with nothing
    readable the invocation returns 1. *)
Theorem interrupted_poll_resets_keepalive p s w :
  val p = -1 -> errno_EINTR p = true ->
  pb_pingTimeout
       (st (recvPacket PACKET_MAX_LEN PING_WAIT_TIME PING_WAIT_RETRIES p s w))
    = false
  /\ pi_wait_delay
       (st (recvPacket PACKET_MAX_LEN PING_WAIT_TIME PING_WAIT_RETRIES p s w))
    = PING_WAIT_TIME
  /\ pi_wait_retries
       (st (recvPacket PACKET_MAX_LEN PING_WAIT_TIME PING_WAIT_RETRIES p s w))
    = PING_WAIT_RETRIES
  /\ (revents_POLLIN p = false -> res
       (recvPacket PACKET_MAX_LEN PING_WAIT_TIME PING_WAIT_RETRIES p s w)
    = Returned 1).
Proof.
  intros Hv He. unfold recvPacket, keepalive. rewrite Hv, He.
  change (-1 =? -1) with true. change (-1 =? 0) with false.
  cbn [andb negb].
  destruct (revents_POLLIN p); [|cbn; auto].
  destruct (recv_header _ _ _ _ _) as [rcv buf w' tr|i rcv buf w' tr|];
    [ | cbn; repeat split; discriminate | cbn; repeat split; discriminate ].
  unfold recv_drain, recv_payload.
  repeat match goal with
         | |- context [let '(_, _) := ?x in _] => destruct x
         | |- context [if ?x then _ else _] => destruct x
         end; cbn; repeat split; discriminate.
Qed.

Lemma header_reads fuel : forall rcv buf w tr,
  match recv_header fuel rcv buf w tr with
  | HdrDone _ _ _ tr' | HdrReturn _ _ _ _ tr' =>
      exists hs, tr' = tr ++ hs /\ (List.length hs <= fuel)%nat
                 /\ Forall (fun q => r_site q = HeaderRead) hs
  | HdrFuel => True
  end.
Proof.
  induction fuel as [|fuel IH]; intros rcv buf w tr; cbn [recv_header];
    destruct (rcv <? PACKET_HEADER_LEN).
  - exact I.
  - exists []. rewrite app_nil_r. repeat split; [cbn; lia | constructor].
  - destruct (tls_Recv w _) as [[r bs] w'].
    destruct (to_int r <=? 0).
    + exists [mkReq HeaderRead rcv (u32 (PACKET_HEADER_LEN - rcv))].
      repeat split; [cbn; lia | repeat constructor].
    + specialize (IH (u32 (rcv + to_int r)) (store buf rcv bs) w'
                     (tr ++ [mkReq HeaderRead rcv (u32 (PACKET_HEADER_LEN - rcv))])).
      destruct (recv_header fuel _ _ _ _); [ | | exact I];
        destruct IH as (hs & -> & Hl & Hf);
        exists (mkReq HeaderRead rcv (u32 (PACKET_HEADER_LEN - rcv)) :: hs);
        (repeat split;
         [rewrite <- app_assoc; reflexivity | cbn [List.length]; lia
         | constructor; [reflexivity | exact Hf]]).
  - exists []. rewrite app_nil_r. repeat split; [cbn; lia | constructor].
Qed.

(** X15. One invocation makes a bounded number of reads: at most four
    for the header, then at most one for the payload or for the bytes
    it drains, and never a header read after that one. *)
Theorem recvPacket_reads_bounded p s w :
  exists hs last,
    reads
         (recvPacket PACKET_MAX_LEN PING_WAIT_TIME PING_WAIT_RETRIES p s w)
      = hs ++ last
    /\ (List.length hs <= 4)%nat
    /\ Forall (fun q => r_site q = HeaderRead) hs
    /\ (List.length last <= 1)%nat
    /\ Forall (fun q => r_site q <> HeaderRead) last.
Proof.
  assert (Hnone : exists hs last : list request,
            @nil request = hs ++ last /\ (List.length hs <= 4)%nat
            /\ Forall (fun q => r_site q = HeaderRead) hs
            /\ (List.length last <= 1)%nat
            /\ Forall (fun q => r_site q <> HeaderRead) last).
  { exists [], []. repeat split; try constructor; cbn; lia. }
  unfold recvPacket.
  destruct (keepalive _ _ p s) as [i l|s1 l]; [exact Hnone|].
  destruct (revents_POLLIN p); [|exact Hnone].
  pose proof (header_reads (Z.to_nat PACKET_HEADER_LEN) (pi_received s1)
                (p_data s1) w []) as Hh.
  destruct (recv_header _ _ _ _ _) as [rcv buf w' tr|i rcv buf w' tr|];
    [ | | exact Hnone ].
  - destruct Hh as (hs & -> & Hl & Hf). cbn [List.app].
    change (Z.to_nat PACKET_HEADER_LEN) with 4%nat in Hl.
    unfold recv_drain, recv_payload.
    destruct (_ <? U32_AT buf).
    + destruct (tls_Recv w' _) as [[r bs] w2].
      exists hs, [mkReq DrainRead PACKET_HEADER_LEN
                    (if i_maxPayloadSize PACKET_MAX_LEN
                        <? u32 (U32_AT buf - u32 (rcv - PACKET_HEADER_LEN))
                     then i_maxPayloadSize PACKET_MAX_LEN
                     else u32 (U32_AT buf - u32 (rcv - PACKET_HEADER_LEN)))].
      repeat match goal with
             | |- context [if ?x then _ else _] => destruct x
             end; cbn [reads]; repeat split; try assumption; try (cbn; lia);
        repeat constructor; discriminate.
    + destruct (tls_Recv w' _) as [[r bs] w2].
      exists hs, [mkReq PayloadRead rcv
                    (u32 (U32_AT buf - u32 (rcv - PACKET_HEADER_LEN)))].
      repeat match goal with
             | |- context [if ?x then _ else _] => destruct x
             end; cbn [reads]; repeat split; try assumption; try (cbn; lia);
        repeat constructor; discriminate.
  - destruct Hh as (hs & -> & Hl & Hf). cbn [List.app reads].
    change (Z.to_nat PACKET_HEADER_LEN) with 4%nat in Hl.
    exists hs, []. rewrite app_nil_r.
    repeat split; try assumption; try constructor; cbn; lia.
Qed.

End InvocationFacts.

Lemma nothing_readable_reads_nothing_witness :
  res (recvPacket 16 6000 0 hung_up (fresh_rx 16) abc_in_pieces) = Returned 0.
Proof.
  refine (proj2 (proj2 (proj2 (proj2 (proj2 (proj2
            (nothing_readable_reads_nothing 16 6000 0 hung_up (fresh_rx 16)
               abc_in_pieces _))))))).
  reflexivity.
Defined.

Lemma recvPacket_never_clears_flag_witness :
  b_msgReceived
    (st (recvPacket 16 6000 0 readable
           (mkRx true 3 0 (repeat x00 16) false 6000 0) abc_in_pieces)) = true.
Proof.
  apply (recvPacket_never_clears_flag 16 6000 0 readable
           (mkRx true 3 0 (repeat x00 16) false 6000 0) abc_in_pieces).
  reflexivity.
Defined.

Lemma interrupted_poll_resets_keepalive_witness :
  pb_pingTimeout
    (st (recvPacket 16 6000 3 interrupted
           (mkRx false 0 0 (repeat x00 16) true 500 0) [])) = false.
Proof.
  refine (proj1 (interrupted_poll_resets_keepalive 16 6000 3 interrupted
                   (mkRx false 0 0 (repeat x00 16) true 500 0) [] _ _));
    reflexivity.
Defined.

(** ** Packets that declare no payload, or nearly [2^32] bytes *)

Section EdgeLengths.

Variable PACKET_MAX_LEN : Z.
Variable PING_WAIT_TIME : Z.
Variable PING_WAIT_RETRIES : Z.

Local Abbreviation recvPacket' :=
  (recvPacket PACKET_MAX_LEN PING_WAIT_TIME PING_WAIT_RETRIES).

Lemma empty_payload_step p s w :
  is_readable p -> pi_received s = PACKET_HEADER_LEN ->
  U32_AT (p_data s) = 0 ->
  b_msgReceived (st (recvPacket' p s w)) = b_msgReceived s
  /\ pi_received (st (recvPacket' p s w)) = PACKET_HEADER_LEN
  /\ p_data (st (recvPacket' p s w)) = p_data s
  /\ (res (recvPacket' p s w) = Returned 0
      \/ res (recvPacket' p s w) = Returned (-1))
  /\ data_of (script (recvPacket' p s w)) = data_of w.
Proof.
  intros [Hval Hin] Hrcv Hsize. unfold recvPacket, keepalive.
  destruct (val p =? -1) eqn:E1; [lia|].
  destruct (val p =? 0) eqn:E0; [lia|]. cbn [andb]. rewrite Hin.
  cbn [set_keepalive pi_received p_data b_msgReceived i_payloadSize].
  rewrite Hrcv. change (Z.to_nat PACKET_HEADER_LEN) with 4%nat.
  cbn [recv_header]. rewrite Z.ltb_irrefl, Hsize.
  pose proof (u32_range (PACKET_MAX_LEN - PACKET_HEADER_LEN)) as Hmax.
  unfold i_maxPayloadSize.
  destruct (_ <? 0) eqn:Hbig; [apply Z.ltb_lt in Hbig; lia|].
  unfold recv_payload.
  change (u32 (0 - u32 (PACKET_HEADER_LEN - PACKET_HEADER_LEN))) with 0.
  destruct w as [|[bs| | ] w0]; cbn [tls_Recv].
  - change (to_int 0 <=? 0) with true.
    cbn [st res script set_frame b_msgReceived pi_received p_data].
    rewrite store_nil. repeat split. left. reflexivity.
  - pose proof (blen_nonneg bs) as Hb.
    rewrite Z.min_l by exact Hb. change (Z.to_nat 0) with 0%nat.
    cbn [firstn skipn Z.of_nat]. change (to_int 0 <=? 0) with true.
    cbn [st res script set_frame b_msgReceived pi_received p_data].
    rewrite store_nil. repeat split; [left; reflexivity|].
    destruct (0 <? blen bs) eqn:E; [reflexivity|].
    apply Z.ltb_ge in E. cbn [data_of].
    rewrite (blen_nil bs) by lia. reflexivity.
  - change (to_int 0 <=? 0) with true.
    cbn [st res script set_frame b_msgReceived pi_received p_data].
    rewrite store_nil. repeat split. left. reflexivity.
  - change (to_int (-1) <=? 0) with true.
    cbn [st res script set_frame b_msgReceived pi_received p_data].
    rewrite store_nil. repeat split. right. reflexivity.
Qed.

(** X16. A packet that declares a payload of length 0 is never
    completed.  Once its four header bytes are in the buffer, every
    further invocation, whatever the stream holds, asks for 0 bytes and
    returns the 0 or -1 of that read: [b_msgReceived] stays clear, the
    accumulated count stays at the header length and not one byte of
    the stream is consumed, so the packets that follow are never
    read. *)
Theorem empty_payload_never_completes p n : forall s w,
  is_readable p -> pi_received s = PACKET_HEADER_LEN ->
  U32_AT (p_data s) = 0 -> b_msgReceived s = false ->
  b_msgReceived
    (st (invocations PACKET_MAX_LEN PING_WAIT_TIME PING_WAIT_RETRIES p n s w))
  = false
  /\ pi_received
       (st (invocations PACKET_MAX_LEN PING_WAIT_TIME PING_WAIT_RETRIES p n s w))
     = PACKET_HEADER_LEN
  /\ (res (invocations PACKET_MAX_LEN PING_WAIT_TIME PING_WAIT_RETRIES p n s w)
      = Returned 0
      \/ res (invocations PACKET_MAX_LEN PING_WAIT_TIME PING_WAIT_RETRIES p n s w)
         = Returned (-1))
  /\ data_of
       (script (invocations PACKET_MAX_LEN PING_WAIT_TIME PING_WAIT_RETRIES p n
                  s w))
     = data_of w.
Proof.
  induction n as [|n IH]; intros s w Hp Hrcv Hsize Hflag; cbn [invocations];
    destruct (empty_payload_step p s w Hp Hrcv Hsize)
      as (Hf & Hr & Hd & Hres & Hdata).
  - rewrite Hf. repeat split; assumption.
  - rewrite Hf, Hflag.
    destruct (IH (st (recvPacket' p s w)) (script (recvPacket' p s w)) Hp Hr)
      as (H1 & H2 & H3 & H4); [rewrite Hd; exact Hsize | congruence|].
    repeat split; try assumption. rewrite H4. exact Hdata.
Qed.

(** X17. A declared length of [2^32 - 4] or more is not drained.  With
    the header in the buffer and data at hand, the first drain read is
    also the last: the sum of the declared length and the header length
    has wrapped below the accumulated count, the invocation resets the
    count and returns -1, and all it has taken from the stream is that
    one read of at most the buffer's payload capacity. *)
Theorem huge_length_not_drained p s bs w :
  PACKET_HEADER_LEN < PACKET_MAX_LEN < 2 ^ 31 ->
  is_readable p -> pi_received s = PACKET_HEADER_LEN ->
  2 ^ 32 - PACKET_HEADER_LEN <= U32_AT (p_data s) -> bs <> [] ->
  res (recvPacket' p s (Data bs :: w)) = Returned (-1)
  /\ pi_received (st (recvPacket' p s (Data bs :: w))) = 0
  /\ drop_reported (recvPacket' p s (Data bs :: w)) = true
  /\ data_of (script (recvPacket' p s (Data bs :: w)))
     = skipn (Z.to_nat (PACKET_MAX_LEN - PACKET_HEADER_LEN)) bs ++ data_of w.
Proof.
  intros Hcap [Hval Hin] Hrcv Hsize Hbs.
  pose proof (U32_AT_range (p_data s)) as Hu.
  unfold PACKET_HEADER_LEN in *.
  change (2 ^ 31) with 2147483648 in Hcap.
  change (2 ^ 32) with 4294967296 in Hsize, Hu.
  unfold recvPacket, keepalive.
  destruct (val p =? -1) eqn:E1; [lia|].
  destruct (val p =? 0) eqn:E0; [lia|]. cbn [andb]. rewrite Hin.
  cbn [set_keepalive pi_received p_data b_msgReceived i_payloadSize].
  rewrite Hrcv. change (Z.to_nat PACKET_HEADER_LEN) with 4%nat.
  cbn [recv_header]. unfold PACKET_HEADER_LEN. rewrite Z.ltb_irrefl.
  assert (Hmax : i_maxPayloadSize PACKET_MAX_LEN = PACKET_MAX_LEN - 4).
  { unfold i_maxPayloadSize, PACKET_HEADER_LEN. apply u32_small.
    change (2 ^ 32) with 4294967296. lia. }
  rewrite Hmax.
  destruct (_ <? U32_AT (p_data s)) eqn:Hbig;
    [clear Hbig | apply Z.ltb_ge in Hbig; lia].
  unfold recv_drain, PACKET_HEADER_LEN. rewrite Hmax.
  change (u32 (4 - 4)) with 0. rewrite Z.sub_0_r.
  rewrite (u32_small (U32_AT (p_data s)))
    by (change (2 ^ 32) with 4294967296; lia).
  destruct (_ <? U32_AT (p_data s)) eqn:Hbig;
    [clear Hbig | apply Z.ltb_ge in Hbig; lia].
  cbn [tls_Recv].
  assert (Hlen : 0 < blen bs).
  { unfold blen. destruct bs; [contradiction | cbn [List.length]; lia]. }
  remember (Z.to_nat (Z.min (PACKET_MAX_LEN - 4) (blen bs))) as m eqn:Hm.
  assert (Hmr : (0 < m)%nat /\ Z.of_nat m <= PACKET_MAX_LEN - 4
                /\ Z.of_nat m <= blen bs) by lia.
  rewrite (to_int_small (Z.of_nat m))
    by (change (2 ^ 31) with 2147483648; lia).
  destruct (Z.of_nat m <=? 0) eqn:Hle; [apply Z.leb_le in Hle; lia|].
  rewrite (u32_small (4 + Z.of_nat m))
    by (change (2 ^ 32) with 4294967296; lia).
  assert (Hwrap : u32 (U32_AT (p_data s) + 4)
                  = U32_AT (p_data s) + 4 - 4294967296).
  { unfold u32. change (2 ^ 32) with 4294967296.
    symmetry. apply (Z.mod_unique_pos _ _ 1); lia. }
  rewrite Hwrap.
  destruct (_ <? _) eqn:Hlt; [apply Z.ltb_lt in Hlt; lia|].
  unfold drop_reported.
  cbn [st res script logs set_frame pi_received List.app existsb].
  split; [reflexivity|]. split; [reflexivity|]. split; [reflexivity|].
  destruct (Z.of_nat m <? blen bs) eqn:Hpart.
  - cbn [data_of]. f_equal. f_equal. apply Z.ltb_lt in Hpart. lia.
  - apply Z.ltb_ge in Hpart.
    rewrite skipn_all2 by (unfold blen in *; lia). reflexivity.
Qed.

End EdgeLengths.

Lemma empty_payload_never_completes_witness :
  b_msgReceived
    (st (invocations 16 6000 0 readable 5 after_empty_header
           [Data [x00; x00; x00; x01; x41]])) = false.
Proof.
  refine (proj1 (empty_payload_never_completes 16 6000 0 readable 5
                   after_empty_header [Data [x00; x00; x00; x01; x41]]
                   _ _ _ _)).
  - split; reflexivity.
  - reflexivity.
  - reflexivity.
  - reflexivity.
Defined.

Lemma huge_length_not_drained_witness :
  res (recvPacket 16 6000 0 readable
         (mkRx false 0 4 (xff :: xff :: xff :: xfe :: repeat x00 12)
               false 6000 0)
         [Data [x41]; Data [x42]]) = Returned (-1).
Proof.
  refine (proj1 (huge_length_not_drained 16 6000 0 readable
                   (mkRx false 0 4 (xff :: xff :: xff :: xfe :: repeat x00 12)
                         false 6000 0) [x41] [Data [x42]] _ _ _ _ _)).
  - vm_compute. split; reflexivity.
  - split; reflexivity.
  - reflexivity.
  - vm_compute. discriminate.
  - discriminate.
Defined.

(** ** A packet at the head of a stream *)

Section Stream.

Variable PACKET_MAX_LEN : Z.
Variable PING_WAIT_TIME : Z.
Variable PING_WAIT_RETRIES : Z.
Hypothesis cap_range : PACKET_HEADER_LEN <= PACKET_MAX_LEN < 2 ^ 31.

Variable body : list byte.
Hypothesis body_range :
  1 <= blen body <= i_maxPayloadSize PACKET_MAX_LEN.

Variable rest : list byte.

Local Abbreviation recvPacket' :=
  (recvPacket PACKET_MAX_LEN PING_WAIT_TIME PING_WAIT_RETRIES).
Local Abbreviation F := (packet body).
Local Abbreviation upcoming' := (upcoming body rest).

Lemma upcoming_length (k : nat) :
  (k <= List.length F)%nat ->
  List.length (upcoming' k) = (List.length F - k + List.length rest)%nat.
Proof.
  intros Hk. unfold upcoming. rewrite length_app, length_skipn. reflexivity.
Qed.

Lemma upcoming_firstn (k m : nat) :
  (k + m <= List.length F)%nat ->
  firstn m (upcoming' k) = firstn m (skipn k F).
Proof.
  intros Hk. unfold upcoming. rewrite firstn_app, length_skipn.
  replace (m - (List.length F - k))%nat with 0%nat by lia.
  cbn [firstn]. apply app_nil_r.
Qed.

Lemma upcoming_skipn (k m : nat) :
  (k + m <= List.length F)%nat ->
  skipn m (upcoming' k) = upcoming' (k + m).
Proof.
  intros Hk. unfold upcoming. rewrite skipn_app, length_skipn.
  replace (m - (List.length F - k))%nat with 0%nat by lia.
  cbn [skipn]. rewrite skipn_plus. reflexivity.
Qed.

Lemma upcoming_end : upcoming' (List.length F) = rest.
Proof. unfold upcoming. rewrite skipn_all. reflexivity. Qed.

Lemma recv_header_in_stream fuel : forall (k : nat) buf w tr,
  (k < List.length F)%nat -> blen buf = PACKET_MAX_LEN ->
  firstn (Nat.min k 4) buf = firstn (Nat.min k 4) F ->
  delivers w (upcoming' k) ->
  ((k < 4)%nat -> (4 - k <= fuel)%nat) ->
  header_in_stream PACKET_MAX_LEN body rest k buf w
    (recv_header fuel (Z.of_nat k) buf w tr).
Proof using cap_range body_range.
  destruct (body_fits PACKET_MAX_LEN cap_range body body_range)
    as (Hb1 & HF & Hc1 & Hc2).
  pose proof (packet_length body) as HFl.
  induction fuel as [|fuel IH]; intros k buf w tr Hk Hbuf Hpre Hdel Hfuel;
    cbn [recv_header]; unfold PACKET_HEADER_LEN;
    destruct (Z.of_nat k <? 4) eqn:Hlt.
  - lia.
  - apply Z.ltb_ge in Hlt. cbn [header_in_stream]. exists k.
    replace (Nat.min k 4) with 4%nat in Hpre by lia. conjs.
    all: try (right; conjs).
  - apply Z.ltb_lt in Hlt.
    replace (Nat.min k 4) with k in Hpre by lia.
    assert (Hlen : u32 (4 - Z.of_nat k) = Z.of_nat (4 - k)).
    { rewrite u32_small; change (2 ^ 32) with 4294967296; lia. }
    rewrite Hlen. clear Hlen.
    destruct (tls_Recv w (Z.of_nat (4 - k))) as [[r bs] w'] eqn:Hread.
    eapply tls_Recv_delivers in Hread; [ | exact Hdel | ].
    2: { rewrite upcoming_length by lia. rewrite HFl. lia. }
    destruct Hread as [(Hr & -> & Hdel' & Hsh)
                      |(m & -> & Hm & -> & Hdel' & Hle & Hsh)].
    + assert (Hint : to_int r = r)
        by (apply to_int_small; change (2 ^ 31) with 2147483648; lia).
      rewrite Hint. clear Hint. destruct (r <=? 0) eqn:Hr0; [|lia].
      cbn [header_in_stream]. split; [exact Hr|].
      exists k. conjs.
    + rewrite upcoming_firstn by (rewrite HFl; lia).
      rewrite upcoming_skipn in Hdel' by (rewrite HFl; lia).
      assert (Hint : to_int (Z.of_nat m) = Z.of_nat m)
        by (apply to_int_small; change (2 ^ 31) with 2147483648; lia).
      rewrite Hint. clear Hint.
      destruct (Z.of_nat m <=? 0) eqn:Hr0; [lia|].
      assert (Hsum : u32 (Z.of_nat k + Z.of_nat m) = Z.of_nat (k + m)).
      { rewrite u32_small; change (2 ^ 32) with 4294967296; lia. }
      rewrite Hsum. clear Hsum.
      specialize (IH (k + m)%nat
                     (store buf (Z.of_nat k) (firstn m (skipn k F))) w'
                     (tr ++ [mkReq HeaderRead (Z.of_nat k) (Z.of_nat (4 - k))])).
      assert (Hl : blen (firstn m (skipn k F)) = Z.of_nat m).
      { unfold blen. rewrite length_firstn, length_skipn, HFl. lia. }
      assert (H1 : (k + m < List.length F)%nat) by (rewrite HFl; lia).
      assert (H2 : blen (store buf (Z.of_nat k) (firstn m (skipn k F)))
                   = PACKET_MAX_LEN).
      { rewrite store_length; [exact Hbuf | lia | lia]. }
      assert (H3 : firstn (Nat.min (k + m) 4)
                     (store buf (Z.of_nat k) (firstn m (skipn k F)))
                   = firstn (Nat.min (k + m) 4) F).
      { replace (Nat.min (k + m) 4) with (k + m)%nat by lia.
        apply store_extends; [unfold blen in Hbuf; lia | lia | exact Hpre]. }
      assert (H5 : (k + m < 4)%nat -> (4 - (k + m) <= fuel)%nat) by lia.
      specialize (IH H1 H2 H3 Hdel' H5).
      destruct (recv_header fuel _ _ w' _)
        as [rcv' buf' w'' tr'|i rcv' buf' w'' tr'|];
        cbn [header_in_stream] in IH |- *.
      * destruct IH as (k' & ? & ? & ? & ? & ? & ? & Hcase).
        exists k'. conjs.
        all: try (left; destruct Hcase as [?|(? & ? & ?)]; lia).
      * destruct IH as (Hi & k' & ? & ? & ? & ? & ? & ?).
        split; [exact Hi|]. exists k'. conjs.
      * exact IH.
  - apply Z.ltb_ge in Hlt. cbn [header_in_stream]. exists k.
    replace (Nat.min k 4) with 4%nat in Hpre by lia. conjs.
    all: try (right; conjs).
Qed.

Lemma recv_payload_in_stream p s (k : nat) buf w tr l :
  0 < val p -> b_msgReceived s = false ->
  (4 <= k < List.length F)%nat -> blen buf = PACKET_MAX_LEN ->
  firstn k buf = firstn k F -> delivers w (upcoming' k) ->
  proceeds PACKET_MAX_LEN body rest w
    (recv_payload p s (U32_AT buf) (Z.of_nat k) buf w tr l).
Proof using cap_range body_range.
  intros Hval Hrcvd Hk Hbuf Hpre Hdel.
  destruct (body_fits PACKET_MAX_LEN cap_range body body_range)
    as (Hb1 & HF & Hc1 & Hc2).
  pose proof (packet_length body) as HFl.
  pose proof upcoming_end as Hend. rewrite HFl in HF, Hk, Hend.
  rewrite (declared_fit PACKET_MAX_LEN cap_range body body_range k buf)
    by (try exact Hpre; lia).
  unfold recv_payload, PACKET_HEADER_LEN, blen.
  remember (List.length body) as n eqn:Hn in *.
  assert (E1 : u32 (Z.of_nat k - 4) = Z.of_nat k - 4)
    by (apply u32_small; change (2 ^ 32) with 4294967296; lia).
  assert (E2 : u32 (Z.of_nat n - (Z.of_nat k - 4)) = Z.of_nat (4 + n - k))
    by (rewrite u32_small; change (2 ^ 32) with 4294967296; lia).
  assert (E3 : u32 (Z.of_nat n + 4) = Z.of_nat n + 4)
    by (apply u32_small; change (2 ^ 32) with 4294967296; lia).
  rewrite E1, E2, E3. clear E1 E2 E3.
  destruct (tls_Recv w (Z.of_nat (4 + n - k))) as [[r bs] w'] eqn:Hread.
  eapply tls_Recv_delivers in Hread; [ | exact Hdel | ].
  2: { rewrite upcoming_length by (rewrite HFl; lia). rewrite HFl. lia. }
  destruct Hread as [(Hr & -> & Hdel' & Hsh)
                    |(m & -> & Hm & -> & Hdel' & Hle & Hsh)].
  - assert (Hint : to_int r = r)
      by (apply to_int_small; change (2 ^ 31) with 2147483648; lia).
    rewrite Hint. clear Hint. destruct (r <=? 0) eqn:Hr0; [|lia].
    left. exists k. cbn [st script]. split; [|exact Hsh].
    unfold in_stream, set_frame.
    cbn [pi_received p_data b_msgReceived]. rewrite store_nil, HFl.
    conjs.
  - rewrite upcoming_firstn by (rewrite HFl; lia).
    rewrite upcoming_skipn in Hdel' by (rewrite HFl; lia).
    assert (Hint : to_int (Z.of_nat m) = Z.of_nat m)
      by (apply to_int_small; change (2 ^ 31) with 2147483648; lia).
    rewrite Hint. clear Hint. destruct (Z.of_nat m <=? 0) eqn:Hr0; [lia|].
    assert (Hsum : u32 (Z.of_nat k + Z.of_nat m) = Z.of_nat (k + m))
      by (rewrite u32_small; change (2 ^ 32) with 4294967296; lia).
    rewrite Hsum. clear Hsum.
    assert (Hl : blen (firstn m (skipn k F)) = Z.of_nat m).
    { unfold blen. rewrite length_firstn, length_skipn, HFl. lia. }
    assert (H2 : blen (store buf (Z.of_nat k) (firstn m (skipn k F)))
                 = PACKET_MAX_LEN)
      by (rewrite store_length; [exact Hbuf | lia | lia]).
    assert (H3 : firstn (k + m)
                   (store buf (Z.of_nat k) (firstn m (skipn k F)))
                 = firstn (k + m) F).
    { apply store_extends; [unfold blen in Hbuf; lia | lia | exact Hpre]. }
    destruct (Z.of_nat (k + m) <? Z.of_nat n + 4) eqn:Hmore.
    + apply Z.ltb_lt in Hmore.
      left. exists (k + m)%nat. cbn [st script]. split; [|apply Hsh; lia].
      unfold in_stream, set_frame.
      cbn [pi_received p_data b_msgReceived]. rewrite HFl. conjs.
    + apply Z.ltb_ge in Hmore.
      destruct (Z.of_nat (k + m) =? Z.of_nat n + 4) eqn:Hall;
        [apply Z.eqb_eq in Hall | apply Z.eqb_neq in Hall; lia].
      right. unfold taken, set_frame, message.
      cbn [st script res b_msgReceived pi_received i_payloadSize p_data].
      assert (Hkm : (k + m = 4 + n)%nat) by lia.
      rewrite Hkm in H3, Hdel'. rewrite Hend in Hdel'.
      split; [reflexivity|]. split; [reflexivity|].
      split; [unfold blen; rewrite Hn; reflexivity|].
      split.
      { rewrite Nat2Z.id. change (Z.to_nat PACKET_HEADER_LEN) with 4%nat.
        rewrite firstn_skipn_comm, H3.
        rewrite firstn_all2 by (rewrite HFl; lia).
        apply packet_body. }
      split; [exact H2|]. split; [exact Hdel'|].
      exists (Z.of_nat m). split; [|lia].
      destruct (val p =? -1) eqn:Hv; [lia|]. reflexivity.
Qed.

Lemma recvPacket_proceeds p s (k : nat) w :
  is_readable p -> in_stream PACKET_MAX_LEN body rest k s w ->
  proceeds PACKET_MAX_LEN body rest w (recvPacket' p s w).
Proof using cap_range body_range.
  intros [Hval Hin] (Hrcv & Hk & Hbuf & Hpre & Hdel & Hnot).
  destruct (body_fits PACKET_MAX_LEN cap_range body body_range)
    as (Hb1 & HF & Hc1 & Hc2).
  unfold recvPacket, keepalive.
  destruct (val p =? -1) eqn:E1; [lia|].
  destruct (val p =? 0) eqn:E0; [lia|]. cbn [andb]. rewrite Hin.
  cbn [set_keepalive pi_received p_data b_msgReceived i_payloadSize].
  rewrite Hrcv.
  pose proof (recv_header_in_stream (Z.to_nat PACKET_HEADER_LEN) k (p_data s)
                w [] Hk Hbuf (prefix_min k _ _ Hpre) Hdel) as Hh.
  assert (Hfuel : (k < 4)%nat -> (4 - k <= Z.to_nat PACKET_HEADER_LEN)%nat)
    by (unfold PACKET_HEADER_LEN; lia).
  specialize (Hh Hfuel).
  destruct (recv_header _ _ _ _ _) as [rcv buf w' tr|i rcv buf w' tr|];
    cbn [header_in_stream] in Hh; [ | | contradiction ].
  - destruct Hh as (k' & -> & Hk' & Hb & Hp4 & Hd & Hlen & Hcase).
    assert (Hp : firstn k' buf = firstn k' F).
    { destruct Hcase as [[_ ->]|(_ & -> & ->)]; assumption. }
    rewrite (declared_fit PACKET_MAX_LEN cap_range body body_range k' buf)
      by (try exact Hp; lia).
    destruct (_ <? blen body) eqn:Hbig; [lia|].
    rewrite <- (declared_fit PACKET_MAX_LEN cap_range body body_range k' buf)
      by (try exact Hp; lia).
    pose proof (recv_payload_in_stream p
                  (mkRx (b_msgReceived s) (i_payloadSize s) (Z.of_nat k)
                        (p_data s) false PING_WAIT_TIME PING_WAIT_RETRIES)
                  k' buf w' tr [] Hval Hnot Hk' Hb Hp Hd) as Hadv.
    destruct Hadv as [(k2 & Hinv & Hsh)|Hdone]; [left|right; exact Hdone].
    exists k2. split; [exact Hinv|].
    eapply Nat.lt_le_trans; [exact Hsh | exact Hlen].
  - destruct Hh as (Hi & k' & -> & Hk' & Hb & Hp & Hd & Hlen).
    left. exists k'. cbn [st script]. split; [|exact Hlen].
    unfold in_stream, set_frame.
    cbn [pi_received p_data b_msgReceived]. rewrite packet_length. conjs.
Qed.

Lemma in_stream_nonempty k s w :
  in_stream PACKET_MAX_LEN body rest k s w -> w <> [].
Proof using Type.
  intros (_ & Hk & _ & _ & [Hd _] & _) ->. cbn [data_of] in Hd.
  apply (f_equal (@List.length byte)) in Hd.
  rewrite upcoming_length in Hd by lia. cbn [List.length] in Hd. lia.
Qed.

Lemma invocations_take p n : forall k s w,
  is_readable p -> in_stream PACKET_MAX_LEN body rest k s w ->
  (List.length w <= S n)%nat ->
  taken PACKET_MAX_LEN body rest
    (invocations PACKET_MAX_LEN PING_WAIT_TIME PING_WAIT_RETRIES p n s w).
Proof using cap_range body_range.
  induction n as [|n IH]; intros k s w Hp Hinv Hlen; cbn [invocations];
    destruct (recvPacket_proceeds p s k w Hp Hinv) as [(k' & Hinv' & Hsh)|Hdone].
  - exfalso. apply (in_stream_nonempty _ _ _ Hinv').
    destruct (script (recvPacket' p s w)); [reflexivity | cbn in Hsh; lia].
  - exact Hdone.
  - assert (Hnot : b_msgReceived (st (recvPacket' p s w)) = false)
      by apply Hinv'.
    rewrite Hnot. apply (IH k' _ _ Hp Hinv'). lia.
  - assert (Hyes : b_msgReceived (st (recvPacket' p s w)) = true)
      by apply Hdone.
    rewrite Hyes. exact Hdone.
Qed.

(** X18. [recvPacket] respects the boundary between packets.  When a
    packet with a payload of 1 to the maximum number of bytes is
    followed in the stream by further bytes, delivered in chunks of any
    sizes that need not end where the packet ends, the invocations up
    to the one that sets [b_msgReceived] hand over exactly that payload
    and consume exactly that packet: the accumulated count is back at
    0, the buffer keeps its capacity, and the stream still delivers
    every byte that follows, so the next packet starts at its own
    header. *)
Theorem packet_taken_from_stream p s w :
  is_readable p -> awaiting_frame PACKET_MAX_LEN s ->
  delivers w (F ++ rest) ->
  b_msgReceived
    (st (invocations PACKET_MAX_LEN PING_WAIT_TIME PING_WAIT_RETRIES p
           (Nat.pred (List.length w)) s w)) = true
  /\ message
       (st (invocations PACKET_MAX_LEN PING_WAIT_TIME PING_WAIT_RETRIES p
              (Nat.pred (List.length w)) s w)) = body
  /\ i_payloadSize
       (st (invocations PACKET_MAX_LEN PING_WAIT_TIME PING_WAIT_RETRIES p
              (Nat.pred (List.length w)) s w)) = blen body
  /\ pi_received
       (st (invocations PACKET_MAX_LEN PING_WAIT_TIME PING_WAIT_RETRIES p
              (Nat.pred (List.length w)) s w)) = 0
  /\ blen (p_data
             (st (invocations PACKET_MAX_LEN PING_WAIT_TIME PING_WAIT_RETRIES p
                    (Nat.pred (List.length w)) s w))) = PACKET_MAX_LEN
  /\ delivers
       (script (invocations PACKET_MAX_LEN PING_WAIT_TIME PING_WAIT_RETRIES p
                  (Nat.pred (List.length w)) s w)) rest.
Proof using cap_range body_range.
  intros Hp (Hbuf & Hrcv & Hnot) Hdel.
  assert (Hinv : in_stream PACKET_MAX_LEN body rest 0 s w).
  { unfold in_stream, upcoming. rewrite packet_length. cbn [skipn firstn].
    conjs. }
  destruct (invocations_take p (Nat.pred (List.length w)) 0 s w Hp Hinv)
    as (H1 & H2 & H3 & H4 & H5 & H6 & _); [lia|].
  conjs.
Qed.

End Stream.

(** The packet "ABC" followed by the packet "DE": the payload "ABC" is
    handed over and the stream still delivers the packet "DE". *)
Lemma packet_taken_from_stream_witness :
  message (st (invocations 16 6000 0 readable 3 (fresh_rx 16) two_packets))
  = [x41; x42; x43]
  /\ delivers
       (script (invocations 16 6000 0 readable 3 (fresh_rx 16) two_packets))
       (packet [x44; x45]).
Proof.
  refine ((fun H => conj (proj1 (proj2 H))
                          (proj2 (proj2 (proj2 (proj2 (proj2 H))))))
            (packet_taken_from_stream 16 6000 0 _ [x41; x42; x43] _
               (packet [x44; x45]) readable (fresh_rx 16) two_packets
               _ _ _)).
  - vm_compute. split; [discriminate | reflexivity].
  - vm_compute. split; discriminate.
  - split; reflexivity.
  - repeat split.
  - split; [reflexivity|]. repeat constructor; discriminate.
Defined.

(** A packet of five bytes does not fit a buffer of eight: it is
    drained and the drop is reported. *)
Lemma oversized_packet_drained_witness :
  res (drain_loop 8 6000 0 readable (remaining oversized_in_pieces)
         (fresh_rx 8) oversized_in_pieces) = Returned (-1).
Proof.
  refine (proj1 (oversized_packet_drained 8 6000 0 _
                   [x41; x42; x43; x44; x45] _ readable (fresh_rx 8)
                   oversized_in_pieces _ _ _)).
  - vm_compute. split; reflexivity.
  - vm_compute. split; reflexivity.
  - split; reflexivity.
  - repeat split.
  - split; [reflexivity|]. repeat constructor; discriminate.
Defined.

(** ** When a message is announced *)

Section Announcement.

Variable PACKET_MAX_LEN : Z.
Variable PING_WAIT_TIME : Z.
Variable PING_WAIT_RETRIES : Z.
Hypothesis cap_range : PACKET_HEADER_LEN <= PACKET_MAX_LEN < 2 ^ 31.

Local Abbreviation recvPacket' :=
  (recvPacket PACKET_MAX_LEN PING_WAIT_TIME PING_WAIT_RETRIES).
Local Abbreviation maxPayload := (i_maxPayloadSize PACKET_MAX_LEN).

(** What the caller finds when the flag has just been raised. *)
Local Abbreviation sound r :=
  (pi_received (st r) = 0
   /\ 1 <= i_payloadSize (st r) <= maxPayload
   /\ U32_AT (p_data (st r)) = i_payloadSize (st r)
   /\ blen (message (st r)) = i_payloadSize (st r)
   /\ exists i, res r = Returned i /\ 0 < i).

Lemma recv_drain_keeps_flag s size rcv buf w tr l :
  b_msgReceived (st (recv_drain PACKET_MAX_LEN s size rcv buf w tr l))
  = b_msgReceived s.
Proof using Type.
  unfold recv_drain.
  repeat match goal with
         | |- context [let '(_, _) := ?x in _] => destruct x
         | |- context [if ?x then _ else _] => destruct x
         end; reflexivity.
Qed.

Lemma recv_payload_announces p s size rcv buf w tr l :
  blen buf = PACKET_MAX_LEN -> size = U32_AT buf -> size <= maxPayload ->
  PACKET_HEADER_LEN <= rcv -> rcv - PACKET_HEADER_LEN <= size ->
  b_msgReceived s = false ->
  b_msgReceived (st (recv_payload p s size rcv buf w tr l)) = true ->
  sound (recv_payload p s size rcv buf w tr l).
Proof using cap_range.
  intros Hbuf Hsize Hmax Hrcv Hle Hflag.
  pose proof Hmax as Hmax'. rewrite (maxPayload_eq _ cap_range) in Hmax'.
  pose proof (U32_AT_range buf) as Hu. rewrite <- Hsize in Hu.
  unfold PACKET_HEADER_LEN in *.
  change (2 ^ 31) with 2147483648 in cap_range.
  change (2 ^ 32) with 4294967296 in Hu.
  unfold recv_payload, PACKET_HEADER_LEN.
  assert (E1 : u32 (rcv - 4) = rcv - 4)
    by (apply u32_small; change (2 ^ 32) with 4294967296; lia).
  assert (E2 : u32 (size - (rcv - 4)) = size - (rcv - 4))
    by (apply u32_small; change (2 ^ 32) with 4294967296; lia).
  assert (E3 : u32 (size + 4) = size + 4)
    by (apply u32_small; change (2 ^ 32) with 4294967296; lia).
  rewrite E1, E2, E3.
  destruct (tls_Recv w (size - (rcv - 4))) as [[r bs] w'] eqn:Hread.
  apply tls_Recv_bounds in Hread; [|lia].
  assert (Hint : to_int r = r)
    by (apply to_int_small; change (2 ^ 31) with 2147483648; lia).
  rewrite Hint.
  assert (Hbs : blen bs <= size - (rcv - 4) /\ 0 <= blen bs).
  { pose proof (blen_nonneg bs).
    destruct Hread as [[_ ->]|[? ?]]; [cbn; lia | lia]. }
  assert (Hst : blen (store buf rcv bs) = PACKET_MAX_LEN)
    by (rewrite store_length; lia).
  assert (Hhd : U32_AT (store buf rcv bs) = size)
    by (rewrite U32_AT_store; unfold PACKET_HEADER_LEN; lia).
  destruct (r <=? 0) eqn:Hr;
    [cbn [st set_frame b_msgReceived]; congruence|].
  apply Z.leb_gt in Hr.
  assert (E4 : u32 (rcv + r) = rcv + r)
    by (apply u32_small; change (2 ^ 32) with 4294967296; lia).
  rewrite E4.
  destruct (rcv + r <? size + 4) eqn:Hlt;
    [cbn [st set_frame b_msgReceived]; congruence|].
  destruct (rcv + r =? size + 4) eqn:Heq;
    [|cbn [st set_frame b_msgReceived]; congruence].
  apply Z.eqb_eq in Heq. intros _.
  cbn [st res set_frame pi_received i_payloadSize p_data].
  split; [reflexivity|]. split; [lia|]. split; [exact Hhd|]. split.
  - unfold message, set_frame. cbn [i_payloadSize p_data].
    unfold blen in *. rewrite length_firstn, length_skipn.
    change (Z.to_nat PACKET_HEADER_LEN) with 4%nat. lia.
  - destruct ((val p =? -1) && errno_EINTR p).
    + exists 1. split; [reflexivity | lia].
    + exists r. split; [reflexivity | lia].
Qed.

(** X19. A message is announced only when it is there.  With the
    accumulator consistent on entry, an invocation that raises
    [b_msgReceived] has reset the accumulated count to 0, reports a
    payload size between 1 and the maximum that is the big-endian
    number in the first four bytes of the buffer, leaves that many
    payload bytes behind the header, and returns a positive value. *)
Theorem announced_message_is_sound p s w :
  consistent PACKET_MAX_LEN s -> b_msgReceived s = false ->
  b_msgReceived (st (recvPacket' p s w)) = true ->
  pi_received (st (recvPacket' p s w)) = 0
  /\ 1 <= i_payloadSize (st (recvPacket' p s w)) <= maxPayload
  /\ U32_AT (p_data (st (recvPacket' p s w)))
     = i_payloadSize (st (recvPacket' p s w))
  /\ blen (message (st (recvPacket' p s w)))
     = i_payloadSize (st (recvPacket' p s w))
  /\ exists i, res (recvPacket' p s w) = Returned i /\ 0 < i.
Proof using cap_range.
  intros Hc Hflag. unfold recvPacket.
  destruct (keepalive PING_WAIT_TIME PING_WAIT_RETRIES p s)
    as [i l|s1 l] eqn:Hka.
  { cbn [st]. congruence. }
  assert (Hc1 : consistent PACKET_MAX_LEN s1 /\ b_msgReceived s1 = false).
  { unfold keepalive in Hka.
    repeat match type of Hka with
           | (if ?b then _ else _) = _ => destruct b
           end; inversion Hka; subst; split; assumption. }
  clear Hka Hc Hflag s. destruct Hc1 as ((Hbuf & Hrcv & Hhdr) & Hflag).
  destruct (revents_POLLIN p); [|cbn [st]; congruence].
  pose proof (recv_header_safe PACKET_MAX_LEN cap_range
                (Z.to_nat PACKET_HEADER_LEN) (pi_received s1)
                (p_data s1) w [] Hbuf Hrcv) as Hh.
  assert (Hfuel : pi_received s1 < PACKET_HEADER_LEN ->
                  PACKET_HEADER_LEN - pi_received s1
                  <= Z.of_nat (Z.to_nat PACKET_HEADER_LEN))
    by (unfold PACKET_HEADER_LEN; lia).
  specialize (Hh Hfuel (Forall_nil _)).
  destruct (recv_header _ _ _ _ _) as [rcv buf w' tr|i rcv buf w' tr|];
    cbn [header_safe] in Hh; [ | | contradiction ].
  - destruct Hh as (Hb & Htr & Hcase).
    assert (Hpos : PACKET_HEADER_LEN <= rcv < 2 ^ 32
                   /\ rcv - PACKET_HEADER_LEN <= U32_AT buf).
    { pose proof (U32_AT_range buf).
      destruct Hcase as [[_ ->]|(Hge & -> & ->)];
        unfold PACKET_HEADER_LEN in *; lia. }
    destruct (maxPayload <? U32_AT buf) eqn:Hbig.
    + rewrite recv_drain_keeps_flag. congruence.
    + apply Z.ltb_ge in Hbig.
      apply recv_payload_announces; try assumption; try reflexivity;
        apply Hpos.
  - cbn [st set_frame b_msgReceived]. congruence.
Qed.

(** X20. The retry budget never goes below zero: with a non-negative
    [PING_WAIT_RETRIES], an invocation that starts with a non-negative
    budget ends with one, whatever the poll reports and whatever the
    stream holds, so that a run of timeouts always reaches the budget
    0 at which the connection is reported dead. *)
Theorem retries_never_negative p s w :
  0 <= PING_WAIT_RETRIES -> 0 <= pi_wait_retries s ->
  0 <= pi_wait_retries
       (st (recvPacket PACKET_MAX_LEN PING_WAIT_TIME PING_WAIT_RETRIES p s w)).
Proof using Type.
  intros Hcfg Hs. unfold recvPacket, keepalive.
  destruct (_ && _); [exact Hs|].
  assert (Hk : forall s1 l,
    0 <= pi_wait_retries s1 ->
    0 <= pi_wait_retries
      (st (if revents_POLLIN p
           then match recv_header (Z.to_nat PACKET_HEADER_LEN) (pi_received s1)
                        (p_data s1) w [] with
                | HdrDone rcv buf w' tr =>
                    if i_maxPayloadSize PACKET_MAX_LEN <? U32_AT buf
                    then recv_drain PACKET_MAX_LEN s1 (U32_AT buf) rcv buf w' tr l
                    else recv_payload p s1 (U32_AT buf) rcv buf w' tr l
                | HdrReturn i_ret rcv buf w' tr =>
                    mkRes (Returned i_ret)
                      (set_frame s1 (b_msgReceived s1) (i_payloadSize s1) rcv buf)
                      w' tr l
                | HdrFuel => mkRes OutOfFuel s1 w [] l
                end
           else mkRes (Returned (if (val p =? -1) && errno_EINTR p
                                 then 1 else 0)) s1 w [] l))).
  { intros s1 l H1. destruct (revents_POLLIN p); [|exact H1].
    destruct (recv_header _ _ _ _ _) as [rcv buf w' tr|i rcv buf w' tr|];
      [ | exact H1 | exact H1 ].
    unfold recv_drain, recv_payload.
    repeat match goal with
           | |- context [let '(_, _) := ?x in _] => destruct x
           | |- context [if ?x then _ else _] => destruct x
           end; cbn [st set_frame pi_wait_retries]; exact H1. }
  destruct (val p =? 0); [destruct (pb_pingTimeout s);
    [destruct (pi_wait_retries s =? 0) eqn:E; [exact Hs|]|]|];
    apply Hk; unfold set_keepalive; cbn [pi_wait_retries];
    try apply Z.eqb_neq in E; unfold PONG_WAIT_RETRIES; lia.
Qed.

End Announcement.

Lemma announced_message_is_sound_witness :
  pi_received
    (st (recvPacket 16 6000 0 readable (fresh_rx 16)
           [Data (packet [x41; x42; x43])])) = 0.
Proof.
  refine (proj1 (announced_message_is_sound 16 6000 0 _ readable (fresh_rx 16)
                   [Data (packet [x41; x42; x43])] _ _ _)).
  - vm_compute. split; [discriminate | reflexivity].
  - split; [reflexivity|]. split; [vm_compute; split; [discriminate|reflexivity]|].
    intros Hn. vm_compute in Hn. exfalso. apply Hn. reflexivity.
  - reflexivity.
  - reflexivity.
Defined.

Lemma retries_never_negative_witness :
  0 <= pi_wait_retries
         (st (recvPacket 16 6000 0
                (mkPoll 0 false false)
                (mkRx false 0 0 (repeat x00 16) true 500 2) [])).
Proof.
  apply (retries_never_negative 16 6000 0 (mkPoll 0 false false)
           (mkRx false 0 0 (repeat x00 16) true 500 2) []).
  - vm_compute. discriminate.
  - vm_compute. discriminate.
Defined.

(** The attempt on which everything works, on a new object. *)
Lemma connect_succeeds_iff_witness :
  comm (connect 8009 working_env ChromecastCommunication_new busy_resources
                "192.168.1.20" 0)
  = mkComm 7 (Some 1) (Some 2) "10.0.0.5" 0 0.
Proof.
  refine (proj2 (connect_succeeds_iff 8009 working_env
                   ChromecastCommunication_new busy_resources
                   "192.168.1.20"%string 0) _).
  reflexivity.
Defined.

(** Somebody else's socket 3 is still open after an attempt that failed
    at the TLS session and closed its own socket 7. *)
Lemma connect_keeps_foreign_resources_witness :
  In 3 (open_sockets
          (rsrc (connect 8009 no_session_env ChromecastCommunication_new
                         busy_resources "192.168.1.20" 0))).
Proof.
  refine (proj1 (connect_keeps_foreign_resources 8009 no_session_env
                   ChromecastCommunication_new busy_resources
                   "192.168.1.20"%string 0) 3 _ _).
  - left. reflexivity.
  - vm_compute. discriminate.
Defined.
